(** * StarryPy3k player manager: a shallow embedding of
    [plugins/player_manager.py] and the properties of its registry.

    The plugin keeps two persistent dictionaries (players and planets) on a
    shelf opened with [writeback=True], so the objects handed out by the
    look-ups are the very objects the shelf holds.  The embedding therefore
    separates the dictionaries (keys to references) from the object heaps
    (references to records): a handler that writes through
    [protocol.player] changes the record every other reference sees. *)

From Stdlib Require Import ZArith Ascii String.
From Stdlib.Strings Require Import Byte.
From stdpp Require Import base option list strings gmap pretty.

Local Open Scope string_scope.
Local Open Scope Z_scope.
Local Open Scope list_scope.

(** ** Python values used by the plugin *)

(** [bytes] objects: the client UUID arrives as one. *)
Definition bytes := list Byte.byte.

(** The exceptions the plugin's statements can raise. *)
Inductive exn :=
| AttributeError
| TypeError
| UnicodeDecodeError
| ValueError.

(** The outcome of running a statement sequence: a value or an exception. *)
Inductive result (A : Type) :=
| Ok (a : A)
| Raise (e : exn).
Arguments Ok {A} a.
Arguments Raise {A} e.

Module Py.

(** The double-quote character, code point 34. *)
Definition dquote : ascii := ascii_of_byte x22.
(** The single-quote character, code point 39. *)
Definition squote : ascii := ascii_of_byte x27.
Definition backslash : ascii := ascii_of_byte x5c.

Definition hex_digit (n : N) : ascii :=
  if (n <? 10)%N then ascii_of_N (48 + n) else ascii_of_N (87 + n).

(** [bytes.decode("ascii")]: every byte must be below 128. *)
Definition is_ascii_byte (b : Byte.byte) : bool := (Byte.to_N b <? 128)%N.

Definition decode_ascii (u : bytes) : result string :=
  if forallb is_ascii_byte u
  then Ok (string_of_list_ascii (map ascii_of_byte u))
  else Raise UnicodeDecodeError.

(** [repr] of a bytes object, which is what [str(uuid)] yields: the quote is
    the single quote unless the bytes hold a single quote and no double
    quote; the quote and the backslash are escaped, tab, newline and
    carriage return have their letter escapes and every other byte outside
    the printable ASCII range is written in lowercase hexadecimal. *)
Definition has_byte (c : ascii) (u : bytes) : bool :=
  existsb (fun b => Ascii.eqb (ascii_of_byte b) c) u.

Definition repr_quote (u : bytes) : ascii :=
  if has_byte squote u && negb (has_byte dquote u) then dquote else squote.

Definition repr_byte (quote : ascii) (b : Byte.byte) : string :=
  let c := ascii_of_byte b in
  let n := Byte.to_N b in
  if Ascii.eqb c quote || Ascii.eqb c backslash then String backslash (String c "")
  else if (n =? 9)%N then String backslash "t"
  else if (n =? 10)%N then String backslash "n"
  else if (n =? 13)%N then String backslash "r"
  else if (n <? 32)%N || (127 <=? n)%N
       then String backslash
              (String "x" (String (hex_digit (n / 16)) (String (hex_digit (n mod 16)) "")))
  else String c "".

Definition str_bytes (u : bytes) : string :=
  let q := repr_quote u in
  String "b" (String q (String.concat "" (map (repr_byte q) u) +:+ String q "")).

(** Reading a [repr] back, as the Python reader does with a bytes literal
    that [repr] wrote: up to the closing quote, a backslash introduces an
    escape and any other character stands for itself. *)
Definition hex_value (c : ascii) : option N :=
  let n := N_of_ascii c in
  if (48 <=? n)%N && (n <=? 57)%N then Some (n - 48)%N
  else if (97 <=? n)%N && (n <=? 102)%N then Some (n - 87)%N
  else None.

Definition unescape (d : ascii) : Byte.byte :=
  if Ascii.eqb d "t" then x09
  else if Ascii.eqb d "n" then x0a
  else if Ascii.eqb d "r" then x0d
  else byte_of_ascii d.

Fixpoint unrepr_body (quote : ascii) (s : string) : option bytes :=
  match s with
  | EmptyString => None
  | String c rest =>
      if Ascii.eqb c quote then
        match rest with EmptyString => Some [] | String _ _ => None end
      else if Ascii.eqb c backslash then
        match rest with
        | EmptyString => None
        | String d rest' =>
            if Ascii.eqb d "x" then
              match rest' with
              | String h1 (String h2 rest'') =>
                  match hex_value h1, hex_value h2 with
                  | Some hi, Some lo =>
                      match Byte.of_N (16 * hi + lo) with
                      | Some b => cons b <$> unrepr_body quote rest''
                      | None => None
                      end
                  | _, _ => None
                  end
              | _ => None
              end
            else cons (unescape d) <$> unrepr_body quote rest'
        end
      else cons (byte_of_ascii c) <$> unrepr_body quote rest
  end.

Definition unrepr (s : string) : option bytes :=
  match s with
  | String "b" (String quote body) => unrepr_body quote body
  | _ => None
  end.

(** ["%d" % n] for an integer. *)
Definition fmt_d (n : Z) : string := pretty n.

(** [str.isascii]: every character of the string is below 128. *)
Definition isascii (s : string) : bool :=
  forallb (fun c => (N_of_ascii c <? 128)%N) (list_ascii_of_string s).

(** [str.lower] on strings of ASCII characters ([isascii]): the letters A
    to Z are lowered and every other character is kept.  Outside ASCII
    [str.lower] follows the case tables of Unicode, which are not modelled:
    what is proved of a search by name is proved of ASCII names. *)
Definition lower_ascii (c : ascii) : ascii :=
  let n := N_of_ascii c in
  if (65 <=? n)%N && (n <=? 90)%N then ascii_of_N (n + 32) else c.

Fixpoint lower (s : string) : string :=
  match s with
  | EmptyString => EmptyString
  | String c s' => String (lower_ascii c) (lower s')
  end.

(** [sep.join(parts)]. *)
Fixpoint join (sep : string) (parts : list string) : string :=
  match parts with
  | [] => ""
  | [p] => p
  | p :: rest => p +:+ sep +:+ join sep rest
  end.

(** A [dict] with string keys, in insertion order: iteration over
    [values()] follows the order in which the keys were first stored. *)
Definition dict (V : Type) := list (string * V).

Fixpoint dict_get {V} (d : dict V) (k : string) : option V :=
  match d with
  | [] => None
  | (k', v) :: d' => if String.eqb k' k then Some v else dict_get d' k
  end.

Definition dict_contains {V} (d : dict V) (k : string) : bool :=
  match dict_get d k with Some _ => true | None => false end.

(** [d[k] = v]: an existing key keeps its position, a new one goes last. *)
Fixpoint dict_set {V} (d : dict V) (k : string) (v : V) : dict V :=
  match d with
  | [] => [(k, v)]
  | (k', v') :: d' =>
      if String.eqb k' k then (k', v) :: d' else (k', v') :: dict_set d' k v
  end.

Definition dict_keys {V} (d : dict V) : list string := map fst d.
Definition dict_values {V} (d : dict V) : list V := map snd d.

(** How many entries of [d] carry the key [k]. *)
Definition dict_count {V} (d : dict V) (k : string) : nat :=
  length (List.filter (fun kv => String.eqb (fst kv) k) d).

End Py.

(** ** The role classes (lines 11-36) *)

(** [Role] is the imported base class; the other seven are declared here. *)
Inductive RoleClass :=
| Role | Owner | SuperAdmin | Admin | Moderator | Guest | Ban | Kick.

#[global] Instance RoleClass_eq_dec : EqDecision RoleClass.
Proof. solve_decision. Defined.

(** The base named in each [class] statement. *)
Definition base (c : RoleClass) : option RoleClass :=
  match c with
  | Role => None
  | Owner => Some Role
  | SuperAdmin => Some Owner
  | Admin => Some SuperAdmin
  | Moderator => Some Admin
  | Guest => Some Moderator
  | Ban => Some Moderator
  | Kick => Some Moderator
  end.

Definition __name__ (c : RoleClass) : string :=
  match c with
  | Role => "Role"
  | Owner => "Owner"
  | SuperAdmin => "SuperAdmin"
  | Admin => "Admin"
  | Moderator => "Moderator"
  | Guest => "Guest"
  | Ban => "Ban"
  | Kick => "Kick"
  end.

(** The method resolution order of a single-inheritance class: the class,
    then the chain of its bases.  Eight steps reach the root from any of
    the eight classes. *)
Fixpoint mro_from (fuel : nat) (c : RoleClass) : list RoleClass :=
  match fuel with
  | O => []
  | S fuel' =>
      c :: match base c with
           | Some b => mro_from fuel' b
           | None => []
           end
  end.

Definition mro (c : RoleClass) : list RoleClass := mro_from 8 c.

Definition issubclass (c d : RoleClass) : bool := bool_decide (d ∈ mro c).

(** The classes this file declares, in declaration order. *)
Definition declared_roles : list RoleClass :=
  [Owner; SuperAdmin; Admin; Moderator; Guest; Ban; Kick].

(** Modelled from the spec: the [roles] attribute of [Owner], which the
    metaclass of [base_plugin.Role] fills in and which is not among the
    sources.  The spec's [ownerRoles()] "returns every role in the tree". *)
Definition Owner_roles : list RoleClass := declared_roles.

(** [{x.__name__ for x in Owner.roles}] *)
Definition owner_role_names : gset string :=
  list_to_set (map __name__ Owner_roles).

(** The declared class of a name; no other name is a role. *)
Definition role_named (n : string) : option RoleClass :=
  List.find (fun c => String.eqb (__name__ c) n) declared_roles.

(** Modelled from the spec: [implies(role, target)], the query of the role
    hierarchy, which no function of the sources implements: "true iff
    [target] is [role] or a descendant of [role] in the fixed tree", and an
    unknown role name "resolves to false".  The tree is the one the class
    statements declare, where a descendant is a subclass. *)
Definition implies (role target : string) : bool :=
  match role_named role, role_named target with
  | Some r, Some t => issubclass t r
  | _, _ => false
  end.

(** ** Connection states (lines 39-47) *)

Inductive State :=
| VERSION_SENT
| CLIENT_CONNECT_RECEIVED
| HANDSHAKE_CHALLENGE_SENT
| HANDSHAKE_RESPONSE_RECEIVED
| CONNECT_RESPONSE_SENT
| CONNECTED
| CONNECTED_WITH_HEARTBEAT.

(** [State] is an [IntEnum]: a member is its integer. *)
Definition State_value (s : State) : Z :=
  match s with
  | VERSION_SENT => 0
  | CLIENT_CONNECT_RECEIVED => 1
  | HANDSHAKE_CHALLENGE_SENT => 2
  | HANDSHAKE_RESPONSE_RECEIVED => 3
  | CONNECT_RESPONSE_SENT => 4
  | CONNECTED => 5
  | CONNECTED_WITH_HEARTBEAT => 6
  end.

(** ** Records (lines 49-85) *)

(** References to objects: an index into the heap of its class. *)
Abbreviation ref := nat (only parsing).

(** A connection object is named by the number the server gave it. *)
Abbreviation conn_id := nat (only parsing).

Module Player.

Record t := mk {
  uuid : bytes;
  name : string;
  last_seen : Z;
  roles : gset string;
  logged_in : bool;
  protocol : option conn_id;
  client_id : Z;
  ip : string;
  planet : string;
  on_ship : bool;
  muted : bool
}.

(** [Player.__init__]; [now] is what [datetime.datetime.now()] reads, and
    the [roles] argument is given by the set of its elements. *)
Definition __init__ (now : Z) (uuid : bytes) (name : string)
    (last_seen : option Z) (roles : option (gset string)) (logged_in : bool)
    (protocol : option conn_id) (client_id : Z) (ip : string)
    (planet : string) (on_ship : bool) (muted : bool) : t :=
  {| uuid := uuid;
     name := name;
     last_seen := match last_seen with None => now | Some ts => ts end;
     roles := match roles with None => ∅ | Some rs => rs end;
     logged_in := logged_in;
     protocol := protocol;
     client_id := client_id;
     ip := ip;
     planet := planet;
     on_ship := on_ship;
     muted := muted |}.

(** Attribute assignments. *)
Definition set_roles (v : gset string) (p : t) : t :=
  mk (uuid p) (name p) (last_seen p) v (logged_in p) (protocol p)
     (client_id p) (ip p) (planet p) (on_ship p) (muted p).

Definition set_logged_in (v : bool) (p : t) : t :=
  mk (uuid p) (name p) (last_seen p) (roles p) v (protocol p)
     (client_id p) (ip p) (planet p) (on_ship p) (muted p).

Definition set_protocol (v : option conn_id) (p : t) : t :=
  mk (uuid p) (name p) (last_seen p) (roles p) (logged_in p) v
     (client_id p) (ip p) (planet p) (on_ship p) (muted p).

Definition set_client_id (v : Z) (p : t) : t :=
  mk (uuid p) (name p) (last_seen p) (roles p) (logged_in p) (protocol p)
     v (ip p) (planet p) (on_ship p) (muted p).

Definition set_on_ship (v : bool) (p : t) : t :=
  mk (uuid p) (name p) (last_seen p) (roles p) (logged_in p) (protocol p)
     (client_id p) (ip p) (planet p) v (muted p).

End Player.

Module Planet.

Record t := mk {
  sector : string;
  a : Z;
  x : Z;
  y : Z;
  planet : Z;
  satellite : Z
}.

Definition __init__ (sector : string) (location : Z * Z * Z)
    (planet satellite : Z) : t :=
  let '(a, x, y) := location in
  {| sector := sector; a := a; x := x; y := y;
     planet := planet; satellite := satellite |}.

(** ["%s:%d:%d:%d:%d:%d"] over the six fields. *)
Definition fmt_location (sector : string) (a x y planet satellite : Z) : string :=
  sector +:+ ":" +:+ Py.fmt_d a +:+ ":" +:+ Py.fmt_d x +:+ ":" +:+ Py.fmt_d y
         +:+ ":" +:+ Py.fmt_d planet +:+ ":" +:+ Py.fmt_d satellite.

Definition __str__ (self : t) : string :=
  fmt_location (sector self) (a self) (x self) (y self)
               (planet self) (satellite self).

End Planet.

(** ** The plugin's world *)

(** What the plugin does to its collaborators, in the order it happens. *)
Inductive Level := INFO | DEBUG.

Inductive Event :=
| Log (lvl : Level) (fmt : string) (args : list string)
| Print (text : string)
| Die (c : conn_id)
| Broadcast (text : string)
| SendMessage (c : conn_id) (text : string).

(** The shelf's two dictionaries hold references; the records live in the
    heaps.  [owner_uuid] is [config.config.owner_uuid], [clock] the time
    [datetime.datetime.now()] reads, [trace] the effects so far. *)
Record World := mkWorld {
  shelf_players : Py.dict ref;
  shelf_planets : Py.dict ref;
  player_heap : list Player.t;
  planet_heap : list Planet.t;
  owner_uuid : string;
  clock : Z;
  trace : list Event
}.

(** A connection object ([protocol] in the handlers): the attributes the
    plugin reads and writes.  An attribute never assigned is [None]. *)
Record Connection := mkConnection {
  ident : conn_id;
  state : option Z;
  player : option ref
}.

(** A handler runs against its connection and the world. *)
Record Session := mkSession {
  protocol : Connection;
  world : World
}.

(** A reference outside its heap: no Python program can hold one, and no
    world built by the plugin contains one ([sessions_stay_well_formed]).
    The model stops there with an outcome of its own. *)
Inductive outcome (A : Type) :=
| Done (r : result A)
| Dangling.
Arguments Done {A} r.
Arguments Dangling {A}.

(** Statement sequences over a state [S]: the state after, and how the
    sequence ended.  An exception keeps the state reached so far. *)
Definition M (S A : Type) : Type := S -> outcome A * S.

Definition ret {S A} (a : A) : M S A := fun s => (Done (Ok a), s).

Definition raise {S A} (e : exn) : M S A := fun s => (Done (Raise e), s).

Definition bind {S A B} (m : M S A) (k : A -> M S B) : M S B :=
  fun s =>
    match m s with
    | (Done (Ok a), s') => k a s'
    | (Done (Raise e), s') => (Done (Raise e), s')
    | (Dangling, s') => (Dangling, s')
    end.

Notation "x <- m ;; k" := (bind m (fun x => k))
  (at level 20, m at level 99, k at level 200, only parsing).
Notation "m ;;; k" := (bind m (fun _ => k))
  (at level 100, k at level 200, right associativity, only parsing).

Definition get {S} : M S S := fun s => (Done (Ok s), s).
Definition modify {S} (f : S -> S) : M S unit := fun s => (Done (Ok tt), f s).

(** A world statement inside a handler. *)
Definition lift {A} (m : M World A) : M Session A :=
  fun s =>
    let '(r, w) := m (world s) in (r, mkSession (protocol s) w).

(** *** World primitives *)

Definition with_players (d : Py.dict ref) (h : list Player.t) (w : World) : World :=
  mkWorld d (shelf_planets w) h (planet_heap w) (owner_uuid w) (clock w) (trace w).

Definition with_planets (d : Py.dict ref) (h : list Planet.t) (w : World) : World :=
  mkWorld (shelf_players w) d (player_heap w) h (owner_uuid w) (clock w) (trace w).

Definition with_trace (t : list Event) (w : World) : World :=
  mkWorld (shelf_players w) (shelf_planets w) (player_heap w) (planet_heap w)
          (owner_uuid w) (clock w) t.

Definition emit (e : Event) : M World unit :=
  modify (fun w => with_trace (trace w ++ [e]) w).

(** Reading the object behind a [Player] reference. *)
Definition player_read (l : ref) : M World Player.t :=
  fun w =>
    match player_heap w !! l with
    | Some p => (Done (Ok p), w)
    | None => (Dangling, w)
    end.

(** An attribute assignment on the object behind a [Player] reference. *)
Definition player_assign (l : ref) (f : Player.t -> Player.t) : M World unit :=
  fun w =>
    match player_heap w !! l with
    | Some p => (Done (Ok tt), with_players (shelf_players w) (<[l := f p]> (player_heap w)) w)
    | None => (Dangling, w)
    end.

Definition planet_read (l : ref) : M World Planet.t :=
  fun w =>
    match planet_heap w !! l with
    | Some p => (Done (Ok p), w)
    | None => (Dangling, w)
    end.

(** [uuid.decode("ascii")] as a statement. *)
Definition decode (u : bytes) : M World string :=
  fun w => (Done (Py.decode_ascii u), w).

Definition py_bool (b : bool) : string := if b then "True" else "False".

(** *** Session primitives *)

(** [protocol.state = v] *)
Definition set_state (v : Z) : M Session unit :=
  modify (fun s =>
    mkSession (mkConnection (ident (protocol s)) (Some v) (player (protocol s)))
              (world s)).

(** [protocol.player = l] *)
Definition set_player (l : ref) : M Session unit :=
  modify (fun s =>
    mkSession (mkConnection (ident (protocol s)) (state (protocol s)) (Some l))
              (world s)).

(** [protocol.player], about to be dereferenced: without a bound player
    the attribute access that follows raises [AttributeError]. *)
Definition bound_player : M Session ref :=
  fun s =>
    match player (protocol s) with
    | Some l => (Done (Ok l), s)
    | None => (Done (Raise AttributeError), s)
    end.

Definition self_ident : M Session conn_id :=
  fun s => (Done (Ok (ident (protocol s))), s).

(** [protocol.player.attr = v], with [f] the assignment to [attr]. *)
Definition assign_player_attr (f : Player.t -> Player.t) : M Session unit :=
  p <- bound_player ;;
  lift (player_assign p f).

(** ** Event payloads ([data['parsed']]) *)

(** The keyword arguments of [add_or_get_player] other than [uuid]; a
    keyword the caller leaves out is given by the default of the
    signature. *)
Record PlayerKw := mkPlayerKw {
  kw_name : string;
  kw_last_seen : option Z;
  kw_roles : option (gset string);
  kw_logged_in : bool;
  kw_protocol : option conn_id;
  kw_client_id : Z;
  kw_ip : string;
  kw_planet : string;
  kw_on_ship : bool;
  kw_muted : bool
}.

Definition kw_defaults : PlayerKw :=
  {| kw_name := ""; kw_last_seen := None; kw_roles := None;
     kw_logged_in := true; kw_protocol := None; kw_client_id := -1;
     kw_ip := "0.0.0.0"; kw_planet := ""; kw_on_ship := true;
     kw_muted := false |}.

Record Coordinate := mkCoordinate {
  co_sector : string;
  co_location : Z * Z * Z;
  co_planet : Z;
  co_satellite : Z
}.

(** The parsed packet of an event.  [ClientConnect] may lack the [uuid]
    key; [WorldStart] carries [planet.celestialParameters], which may be
    [None]; [Opaque] stands for every packet the plugin does not inspect. *)
Inductive Parsed :=
| ClientConnect (uuid : option bytes) (kw : PlayerKw)
| ConnectResponse (success : bool) (client_id : Z)
| WorldStart (celestialParameters : option Coordinate)
| Opaque.

(** ** The stores (lines 173-235) *)

(** A new object: it gets the next free reference. *)
Definition new_player (p : Player.t) : M World ref :=
  fun w =>
    (Done (Ok (length (player_heap w))),
     with_players (shelf_players w) (player_heap w ++ [p]) w).

Definition new_planet (p : Planet.t) : M World ref :=
  fun w =>
    (Done (Ok (length (planet_heap w))),
     with_planets (shelf_planets w) (planet_heap w ++ [p]) w).

(** [self.shelf['players'][key] = l] *)
Definition store_player (key : string) (l : ref) : M World unit :=
  modify (fun w => with_players (Py.dict_set (shelf_players w) key l) (player_heap w) w).

Definition store_planet (key : string) (l : ref) : M World unit :=
  modify (fun w => with_planets (Py.dict_set (shelf_planets w) key l) (planet_heap w) w).

(** [add_or_get_player].  The membership test and the subscript of the
    first branch read the same key of the same dictionary, so they are one
    look-up here; the log line between them is emitted first. *)
Definition add_or_get_player (uuid : bytes) (name : string)
    (last_seen : option Z) (roles : option (gset string)) (logged_in : bool)
    (protocol : option conn_id) (client_id : Z) (ip : string)
    (planet : string) (on_ship : bool) (muted : bool) : M World ref :=
  w <- get ;;
  match Py.dict_get (shelf_players w) (Py.str_bytes uuid) with
  | Some p =>
      emit (Log INFO "Returning existing player." []) ;;;
      decoded <- decode uuid ;;
      (if String.eqb decoded (owner_uuid w)
       then player_assign p (Player.set_roles owner_role_names)
       else ret tt) ;;;
      ret p
  | None =>
      emit (Log INFO "Creating new player with UUID %s and name %s"
                [Py.str_bytes uuid; name]) ;;;
      decoded <- decode uuid ;;
      let roles :=
        if String.eqb decoded (owner_uuid w) then Some owner_role_names else roles in
      decoded' <- decode uuid ;;
      emit (Log DEBUG "Matches owner UUID: "
                [py_bool (String.eqb decoded' (owner_uuid w))]) ;;;
      p <- new_player (Player.__init__ (clock w) uuid name last_seen roles
                         logged_in protocol client_id ip planet on_ship muted) ;;
      store_player (Py.str_bytes uuid) p ;;;
      ret p
  end.

(** [add_or_get_player(uuid, **kw)] *)
Definition add_or_get_player_kw (uuid : bytes) (kw : PlayerKw) : M World ref :=
  add_or_get_player uuid (kw_name kw) (kw_last_seen kw) (kw_roles kw)
    (kw_logged_in kw) (kw_protocol kw) (kw_client_id kw) (kw_ip kw)
    (kw_planet kw) (kw_on_ship kw) (kw_muted kw).

(** The loop of [get_player_by_name] over [self.shelf['players'].values()]. *)
Fixpoint scan_players (lname : string) (check_logged_in : bool)
    (values : list ref) : M World (option ref) :=
  match values with
  | [] => ret None
  | player :: rest =>
      p <- player_read player ;;
      if String.eqb (Py.lower (Player.name p)) lname
      then if negb check_logged_in || Player.logged_in p
           then ret (Some player)
           else scan_players lname check_logged_in rest
      else scan_players lname check_logged_in rest
  end.

Definition get_player_by_name (name : string) (check_logged_in : bool)
    : M World (option ref) :=
  let lname := Py.lower name in
  w <- get ;;
  scan_players lname check_logged_in (Py.dict_values (shelf_players w)).

(** [add_or_get_planet]; as in [add_or_get_player] the membership test and
    the subscript are one look-up. *)
Definition add_or_get_planet (sector : string) (location : Z * Z * Z)
    (planet satellite : Z) : M World ref :=
  let '(a, x, y) := location in
  let loc_string := Planet.fmt_location sector a x y planet satellite in
  w <- get ;;
  match Py.dict_get (shelf_planets w) loc_string with
  | Some existing =>
      emit (Print "Returning already existing planet.") ;;;
      ret existing
  | None =>
      let obj := Planet.__init__ sector location planet satellite in
      created <- new_planet obj ;;
      store_planet (Planet.__str__ obj) created ;;;
      ret created
  end.

(** ** The event handlers (lines 107-164) *)

Definition on_protocol_version (data : Parsed) : M Session bool :=
  set_state (State_value VERSION_SENT) ;;;
  ret true.

Definition on_handshake_challenge (data : Parsed) : M Session bool :=
  set_state (State_value HANDSHAKE_CHALLENGE_SENT) ;;;
  ret true.

Definition on_handshake_response (data : Parsed) : M Session bool :=
  set_state (State_value HANDSHAKE_RESPONSE_RECEIVED) ;;;
  ret true.

Definition on_connect_response (data : Parsed) : M Session bool :=
  match data with
  | ConnectResponse success client_id =>
      (if success then
         assign_player_attr (Player.set_logged_in true) ;;;
         assign_player_attr (Player.set_client_id client_id) ;;;
         self <- self_ident ;;
         assign_player_attr (Player.set_protocol (Some self)) ;;;
         set_state (State_value CONNECTED)
       else
         assign_player_attr (Player.set_logged_in false) ;;;
         assign_player_attr (Player.set_client_id (-1))) ;;;
      ret true
  | _ => raise AttributeError
  end.

Definition on_client_connect (data : Parsed) : M Session bool :=
  match data with
  | ClientConnect (Some uuid) kw =>
      p <- lift (add_or_get_player_kw uuid kw) ;;
      set_player p ;;;
      ret true
  | _ => raise TypeError
  end.

Definition on_client_disconnect (data : Parsed) : M Session bool :=
  assign_player_attr (Player.set_protocol None) ;;;
  assign_player_attr (Player.set_logged_in false) ;;;
  ret true.

Definition on_server_disconnect (data : Parsed) : M Session bool :=
  assign_player_attr (Player.set_protocol None) ;;;
  assign_player_attr (Player.set_logged_in false) ;;;
  ret true.

Definition on_warp_command (data : Parsed) : M Session bool :=
  ret true.

(** The local [location] of [on_world_start]: a [Planet] or a string. *)
Inductive Location :=
| AtPlanet (l : ref)
| Text (s : string).

(** [str(location)], as the logger's ["%s"] renders it. *)
Definition str_location (location : Location) : M World string :=
  match location with
  | AtPlanet l => obj <- planet_read l ;; ret (Planet.__str__ obj)
  | Text s => ret s
  end.

Definition on_world_start (data : Parsed) : M Session bool :=
  match data with
  | WorldStart celestialParameters =>
      location <-
        match celestialParameters with
        | Some coordinate =>
            l <- lift (add_or_get_planet (co_sector coordinate)
                         (co_location coordinate) (co_planet coordinate)
                         (co_satellite coordinate)) ;;
            ret (AtPlanet l)
        | None =>
            assign_player_attr (Player.set_on_ship true) ;;;
            ret (Text "on ship")
        end ;;
      p <- bound_player ;;
      obj <- lift (player_read p) ;;
      shown <- lift (str_location location) ;;
      lift (emit (Log INFO "Player %s is now at location: %s"
                      [Player.name obj; shown])) ;;;
      ret true
  | _ => raise AttributeError
  end.

Definition on_heartbeat (data : Parsed) : M Session bool :=
  set_state 6 ;;;
  ret true.

(** The [on_] methods by name, as the dispatch runtime looks them up. *)
Definition handlers : list (string * (Parsed -> M Session bool)) :=
  [ ("on_protocol_version", on_protocol_version);
    ("on_handshake_challenge", on_handshake_challenge);
    ("on_handshake_response", on_handshake_response);
    ("on_connect_response", on_connect_response);
    ("on_client_connect", on_client_connect);
    ("on_client_disconnect", on_client_disconnect);
    ("on_server_disconnect", on_server_disconnect);
    ("on_warp_command", on_warp_command);
    ("on_world_start", on_world_start);
    ("on_heartbeat", on_heartbeat) ].

(** ** The [kick] command (lines 210-221)

    The body behind the [@command("kick", role=Kick)] decorator; [data] is
    the list of words after the command name. *)
Definition kick (data : list string) : M Session unit :=
  let name := Py.join " " data in
  p <- lift (get_player_by_name (Py.join " " data) false) ;;
  match p with
  | Some p =>
      target <- lift (player_read p) ;;
      match Player.protocol target with
      | Some c => lift (emit (Die c))
      | None => raise AttributeError
      end ;;;
      issuer <- bound_player ;;
      issuer_obj <- lift (player_read issuer) ;;
      target <- lift (player_read p) ;;
      lift (emit (Broadcast (Player.name issuer_obj +:+ " has kicked "
                               +:+ Player.name target +:+ ".")))
  | None =>
      self <- self_ident ;;
      lift (emit (SendMessage self ("Couldn't find a player with name " +:+ name)))
  end.

(** ** Well-formed worlds

    Two facts Python guarantees and the lists of the model do not: the keys
    of a dictionary are distinct, and a reference held by a dictionary
    leads to an object. *)

Definition wf_dict (d : Py.dict ref) (heap_size : nat) : Prop :=
  NoDup (Py.dict_keys d) /\ Forall (fun kv => (snd kv < heap_size)%nat) d.

Definition wf_world (w : World) : Prop :=
  wf_dict (shelf_players w) (length (player_heap w))
  /\ wf_dict (shelf_planets w) (length (planet_heap w)).

(** The world of a first start: [sync] has created the empty dictionaries. *)
Definition fresh_world (owner : string) (now : Z) : World :=
  mkWorld [] [] [] [] owner now [].

(** A connection the server has just accepted. *)
Definition fresh_connection (c : conn_id) : Connection :=
  mkConnection c None None.

(** The session in which the object behind [l] has become [q]. *)
Definition write_player (l : ref) (q : Player.t) (s : Session) : Session :=
  mkSession (protocol s)
    (with_players (shelf_players (world s))
       (<[l := q]> (player_heap (world s))) (world s)).

(** A planet is stored under [key] twice over: two calls in a row return
    one reference, the first leaves it under [key], the second changes
    neither the dictionary nor the heap, and a key the shelf did not know
    leads to a record with the fields of the call. *)
Definition same_planet_twice (w : World) (sector : string) (a x y : Z)
    (planet satellite : Z) (key : string) : Prop :=
  exists l w1 w2,
    add_or_get_planet sector (a, x, y) planet satellite w = (Done (Ok l), w1)
    /\ add_or_get_planet sector (a, x, y) planet satellite w1 = (Done (Ok l), w2)
    /\ Py.dict_get (shelf_planets w1) key = Some l
    /\ shelf_planets w2 = shelf_planets w1
    /\ planet_heap w2 = planet_heap w1
    /\ (Py.dict_get (shelf_planets w) key = None ->
        planet_heap w1 !! l = Some (Planet.mk sector a x y planet satellite)).

(** A handler that never answers [False]. *)
Definition returns_true {S} (m : M S bool) : Prop :=
  forall s v s', m s = (Done (Ok v), s') -> v = true.

(** A player named Bob, as a client-connect packet introduces him on
    connection 7 of a server started for the first time. *)
Definition bob : bytes := [x62; x6f; x62].

Definition bob_kw : PlayerKw :=
  mkPlayerKw "Bob" None None true None (-1) "0.0.0.0" "" true false.

Definition bob_connects : Session :=
  snd (on_client_connect (ClientConnect (Some bob) bob_kw)
         (mkSession (fresh_connection 7%nat) (fresh_world "ab0" 100))).

(** Bob's connection after a successful connect response, and the world
    he leaves behind when he disconnects. *)
Definition bob_online : Session :=
  snd (on_connect_response (ConnectResponse true 1) bob_connects).

Definition bob_left : World :=
  world (snd (on_client_disconnect Opaque bob_online)).

(** Alice, fully connected on connection 8 after Bob has left. *)
Definition alice : bytes := [x61; x6c; x69; x63; x65].

Definition alice_kw : PlayerKw :=
  mkPlayerKw "Alice" None None true None (-1) "0.0.0.0" "" true false.

Definition alice_online : Session :=
  snd (on_connect_response (ConnectResponse true 2)
         (snd (on_client_connect (ClientConnect (Some alice) alice_kw)
                 (mkSession (fresh_connection 8%nat) bob_left)))).

(** What a disconnect handler [h] leaves of the player [p] behind [l]:
    logged out, no connection, and the same uuid, name and roles. *)
Definition disconnects_keeping (h : Parsed -> M Session bool) (data : Parsed)
    (s : Session) (l : ref) (p : Player.t) : Prop :=
  exists s' p',
    h data s = (Done (Ok true), s')
    /\ player_heap (world s') !! l = Some p'
    /\ Player.logged_in p' = false
    /\ Player.protocol p' = None
    /\ Player.uuid p' = Player.uuid p
    /\ Player.name p' = Player.name p
    /\ Player.roles p' = Player.roles p.

(** Every planet on the shelf is stored under its own [str]. *)
Definition planets_keyed (w : World) : Prop :=
  Forall (fun kv => Planet.__str__ <$> planet_heap w !! snd kv = Some (fst kv))
         (shelf_planets w).

(** Calls of [add_or_get_player] with one [uuid], one after the other: the
    outcomes in call order and the world after the last.  A call that
    raises hands its world to the next. *)
Fixpoint run_calls (uuid : bytes) (calls : list PlayerKw) (w : World)
    : list (outcome ref) * World :=
  match calls with
  | [] => ([], w)
  | kw :: rest =>
      let '(r, w1) := add_or_get_player_kw uuid kw w in
      let '(rs, w2) := run_calls uuid rest w1 in
      (r :: rs, w2)
  end.

(** ** Specifications of statement sequences

    A state type comes with an invariant [ok] and an order [le] under
    which states only grow.  [safe ok le P m Q]: from an [ok] state in [P]
    the sequence [m] never follows a dangling reference; it ends, by
    return or by exception, in an [ok] state above the one it started
    from, and a returned value [a] comes with [Q a] of the final state. *)
Definition safe {S A} (ok : S -> Prop) (le : S -> S -> Prop)
    (P : S -> Prop) (m : M S A) (Q : A -> S -> Prop) : Prop :=
  forall s, ok s -> P s ->
    match m s with
    | (Done (Ok a), s') => ok s' /\ le s s' /\ Q a s'
    | (Done (Raise _), s') => ok s' /\ le s s'
    | (Dangling, _) => False
    end.

(** The invariant of the worlds the plugin builds. *)
Definition world_ok (w : World) : Prop :=
  wf_world w /\ planets_keyed w.

(** Objects are never removed: the heaps only grow. *)
Definition world_le (w w' : World) : Prop :=
  (length (player_heap w) <= length (player_heap w'))%nat
  /\ (length (planet_heap w) <= length (planet_heap w'))%nat.

(** A reference to a player, or to a planet, of the world. *)
Definition player_ref (l : ref) (w : World) : Prop :=
  (l < length (player_heap w))%nat.

Definition planet_ref (l : ref) (w : World) : Prop :=
  (l < length (planet_heap w))%nat.

(** A session over such a world whose connection, if bound, is bound to
    an object. *)
Definition session_ok (s : Session) : Prop :=
  world_ok (world s)
  /\ forall l, player (protocol s) = Some l -> player_ref l (world s).

Definition session_le (s s' : Session) : Prop := world_le (world s) (world s').

Abbreviation wsafe := (safe world_ok world_le).
Abbreviation ssafe := (safe session_ok session_le).

(** What a handler owes: from any well-formed session, a well-formed
    session and no dangling reference. *)
Abbreviation handler_safe m := (ssafe (fun _ => True) m (fun _ _ => True)).

(** ** The rest of the plugin *)

(** [sync] (lines 99-105), over the top level of the shelf: a dictionary
    from the names of the namespaces to their contents, [empty] being the
    empty dictionary [{}] the method stores. *)
Definition sync {V} (empty : V) (shelf : Py.dict V) : Py.dict V :=
  let shelf :=
    if Py.dict_contains shelf "players" then shelf
    else Py.dict_set shelf "players" empty in
  let shelf :=
    if Py.dict_contains shelf "plugins" then shelf
    else Py.dict_set shelf "plugins" empty in
  if Py.dict_contains shelf "planets" then shelf
  else Py.dict_set shelf "planets" empty.

(** The loop of [deactivate] over [self.shelf['players'].values()]. *)
Fixpoint logout_all (values : list ref) : M World unit :=
  match values with
  | [] => ret tt
  | player :: rest =>
      player_assign player (Player.set_protocol None) ;;;
      player_assign player (Player.set_logged_in false) ;;;
      logout_all rest
  end.

(** [deactivate] (lines 166-171), on the open shelf: what one run does to
    the records and to the log.  [self.shelf.close()] writes the
    dictionaries and records back as they are and closes the shelf, which
    is a fact of the plugin and not of its world: [deactivate_and_close]
    below is the same run with the shelf it closes. *)
Definition deactivate : M World unit :=
  w <- get ;;
  logout_all (Py.dict_values (shelf_players w)) ;;;
  emit (Log DEBUG "Closed the shelf" []).

(** What a caller may pass as the [role] of [add_role]: a role class or,
    mistaking the set of names for the interface, a name. *)
Inductive RoleArg :=
| AClass (c : RoleClass)
| AName (name : string).

(** [add_role] (lines 198-201).  Every class of [RoleClass] is [Role] or
    descends from it ([issubclass_Role]), so for a class the test succeeds
    and the name is added; for a string [issubclass] itself raises
    [TypeError], its first argument not being a class. *)
Definition add_role (player : ref) (role : RoleArg) : M World unit :=
  match role with
  | AClass c =>
      let role := __name__ c in
      player_assign player (fun p => Player.set_roles ({[ role ]} ∪ Player.roles p) p)
  | AName _ => raise TypeError
  end.

(** The test of the loop of [get_player_by_name] on one player. *)
Definition name_matches (lname : string) (check_logged_in : bool)
    (p : Player.t) : bool :=
  String.eqb (Py.lower (Player.name p)) lname
  && (negb check_logged_in || Player.logged_in p).

(** A player record as [deactivate] leaves it. *)
Definition logged_out (p : Player.t) : Player.t :=
  Player.set_logged_in false (Player.set_protocol None p).

(** The three namespaces of the shelf. *)
Definition namespaces : list string := ["players"; "plugins"; "planets"].

(** The search passes over the player behind [l]. *)
Definition passed_over (heap : list Player.t) (lname : string)
    (check_logged_in : bool) (l : ref) : Prop :=
  exists p, heap !! l = Some p /\ name_matches lname check_logged_in p = false.

(** What a search over [values] may answer: the first player who passes
    the test, everybody before them having been passed over, or nobody when
    everybody was. *)
Definition first_match (heap : list Player.t) (lname : string)
    (check_logged_in : bool) (values : list ref) (r : option ref) : Prop :=
  match r with
  | Some l =>
      exists before after p,
        values = before ++ l :: after
        /\ heap !! l = Some p
        /\ name_matches lname check_logged_in p = true
        /\ Forall (passed_over heap lname check_logged_in) before
  | None => Forall (passed_over heap lname check_logged_in) values
  end.

(** ** What a sequence leaves behind

    [keeps R m]: however [m] ends, the state it leaves is [R]-related to
    the state it started from. *)
Definition keeps {S A} (R : S -> S -> Prop) (m : M S A) : Prop :=
  forall s, R s (snd (m s)).

(** The world has only been talked about: [more] events, nothing else. *)
Definition said (more : list Event) (w w' : World) : Prop :=
  w' = with_trace (trace w ++ more) w.

Definition trace_only (w w' : World) : Prop := exists more, said more w w'.

Definition says_only (s s' : Session) : Prop :=
  protocol s' = protocol s /\ trace_only (world s) (world s').

(** The fields of a player that nothing assigns after construction. *)
Definition same_identity (p p' : Player.t) : Prop :=
  Player.uuid p' = Player.uuid p
  /\ Player.name p' = Player.name p
  /\ Player.last_seen p' = Player.last_seen p
  /\ Player.ip p' = Player.ip p
  /\ Player.planet p' = Player.planet p
  /\ Player.muted p' = Player.muted p.

(** A new entry of the players dictionary: it leads to a new object, and
    its key is the [str] of the uuid of that object. *)
Definition new_entry (w w' : World) (kv : string * ref) : Prop :=
  (length (player_heap w) <= snd kv)%nat
  /\ Py.str_bytes <$> (Player.uuid <$> player_heap w' !! snd kv) = Some (fst kv).

(** [w'] extends [w]: the dictionaries and the planets have grown at the
    end, the players are all there with their identity, the configuration
    and the clock are the same and the trace has grown at the end. *)
Definition world_ext (w w' : World) : Prop :=
  (exists more, shelf_players w' = shelf_players w ++ more
                /\ Forall (new_entry w w') more
                /\ NoDup (Py.dict_values more))
  /\ (exists more, shelf_planets w' = shelf_planets w ++ more)
  /\ (exists more, planet_heap w' = planet_heap w ++ more)
  /\ (forall l p, player_heap w !! l = Some p ->
        exists p', player_heap w' !! l = Some p' /\ same_identity p p')
  /\ owner_uuid w' = owner_uuid w
  /\ clock w' = clock w
  /\ (exists more, trace w' = trace w ++ more).

Definition session_ext (s s' : Session) : Prop :=
  ident (protocol s') = ident (protocol s) /\ world_ext (world s) (world s').

Abbreviation wkeeps := (keeps world_ext).
Abbreviation skeeps := (keeps session_ext).

(** Every player on the shelf is stored under the [str] of their uuid, and
    no two keys lead to one player. *)
Definition players_keyed (w : World) : Prop :=
  Forall (fun kv => Py.str_bytes <$> (Player.uuid <$> player_heap w !! snd kv)
                    = Some (fst kv))
         (shelf_players w)
  /\ NoDup (Py.dict_values (shelf_players w)).

(** Every name on the shelf is made of ASCII characters. *)
Definition ascii_names (w : World) : bool :=
  forallb (fun l => match player_heap w !! l with
                    | Some p => Py.isascii (Player.name p)
                    | None => true
                    end)
          (Py.dict_values (shelf_players w)).

(** ** The shelf, open or closed (lines 93 and 170)

    [activate] opens the shelf and [deactivate] closes it.  A closed shelf
    raises [ValueError] whenever it is read or written, so a method whose
    first step reads [self.shelf[...]] raises there and does nothing. *)
Record Plugin := mkPlugin {
  shelf_open : bool;
  contents : World
}.

(** A statement sequence whose first step reads [self.shelf[...]]. *)
Definition on_shelf {A} (m : M World A) : M Plugin A :=
  fun p =>
    if shelf_open p
    then let '(r, w) := m (contents p) in (r, mkPlugin true w)
    else (Done (Raise ValueError), p).

(** A statement that does not touch the shelf. *)
Definition off_shelf {A} (m : M World A) : M Plugin A :=
  fun p => let '(r, w) := m (contents p) in (r, mkPlugin (shelf_open p) w).

(** [self.shelf.close()]. *)
Definition close : M Plugin unit :=
  modify (fun p => mkPlugin false (contents p)).

(** [deactivate] (lines 166-171) with its shelf: the loop reads
    [self.shelf['players']], then the shelf is closed, then the logger is
    told. *)
Definition deactivate_and_close : M Plugin unit :=
  on_shelf (w <- get ;; logout_all (Py.dict_values (shelf_players w))) ;;;
  close ;;;
  off_shelf (emit (Log DEBUG "Closed the shelf" [])).

(** Alice, fully connected on connection 8 while Bob is still online. *)
Definition alice_joins : Session :=
  snd (on_connect_response (ConnectResponse true 2)
         (snd (on_client_connect (ClientConnect (Some alice) alice_kw)
                 (mkSession (fresh_connection 8%nat) (world bob_online))))).

(** A string without a colon, as every ["%d"] is. *)
Fixpoint no_colon (s : string) : bool :=
  match s with
  | EmptyString => true
  | String c rest => negb (Ascii.eqb c ":") && no_colon rest
  end.

(** ** The embedding on small inputs *)

Example str_bytes_plain :
  Py.str_bytes [x61; x62; x30] = "b'ab0'".
Proof. reflexivity. Qed.

Example str_bytes_escapes :
  Py.str_bytes [x0a; xff; x5c] = "b'\n\xff\\'".
Proof. reflexivity. Qed.

Example str_bytes_quote :
  Py.str_bytes [x27] = String "b" (String Py.dquote (String "'" (String Py.dquote ""))).
Proof. reflexivity. Qed.

Example fmt_d_neg : Py.fmt_d (-12) = "-12".
Proof. reflexivity. Qed.

Example lower_mixed : Py.lower "Bob_42Z" = "bob_42z".
Proof. reflexivity. Qed.

Example join_words : Py.join " " ["a"; "b"; "c"] = "a b c".
Proof. reflexivity. Qed.

Example implies_examples :
  implies "Owner" "Kick" = true /\ implies "Ban" "Kick" = false
  /\ implies "Role" "Kick" = false.
Proof. repeat split; reflexivity. Qed.

Example planet_str :
  Planet.__str__ (Planet.__init__ "alpha" (0, 1, 2) 3 4) = "alpha:0:1:2:3:4".
Proof. reflexivity. Qed.

(** ** Dictionary facts *)

Section Dict.
Context {V : Type}.
Implicit Types (d : Py.dict V) (k : string) (v : V).

Lemma dict_get_None_keys d k :
  Py.dict_get d k = None <-> k ∉ Py.dict_keys d.
Proof.
  induction d as [|[k' v'] d IH]; simpl.
  - split; [intros _; apply not_elem_of_nil | done].
  - destruct (String.eqb_spec k' k) as [->|Hne].
    + split; [done | intros H; exfalso; apply H; left].
    + rewrite IH, not_elem_of_cons. split; [by auto | by intros [_ ?]].
Qed.

(** [k in d] and [d[k]] agree, which is why the stores look a key up once. *)
Lemma dict_contains_get d k :
  Py.dict_contains d k = true <-> is_Some (Py.dict_get d k).
Proof.
  unfold Py.dict_contains. destruct (Py.dict_get d k) as [v|].
  - split; [by exists v | done].
  - split; [done | by intros [v ?]].
Qed.

Lemma dict_set_absent d k v :
  Py.dict_get d k = None -> Py.dict_set d k v = d ++ [(k, v)].
Proof.
  induction d as [|[k' v'] d IH]; simpl; [done|].
  destruct (String.eqb k' k); [done|]. intros H. by rewrite IH.
Qed.

Lemma dict_get_set_eq d k v : Py.dict_get (Py.dict_set d k v) k = Some v.
Proof.
  induction d as [|[k' v'] d IH]; simpl.
  - by rewrite String.eqb_refl.
  - destruct (String.eqb k' k) eqn:E; simpl; by rewrite E.
Qed.

Lemma dict_count_absent d k :
  Py.dict_get d k = None -> Py.dict_count d k = 0%nat.
Proof.
  unfold Py.dict_count.
  induction d as [|[k' v'] d IH]; simpl; [done|].
  destruct (String.eqb k' k); [done | exact IH].
Qed.

Lemma dict_count_present d k v :
  NoDup (Py.dict_keys d) -> Py.dict_get d k = Some v ->
  Py.dict_count d k = 1%nat.
Proof.
  unfold Py.dict_count.
  induction d as [|[k' v'] d IH]; simpl; [done|].
  intros Hnd. apply NoDup_cons in Hnd as [Hk' Hnd].
  destruct (String.eqb_spec k' k) as [->|Hne]; simpl.
  - intros _. f_equal. apply dict_count_absent.
    by apply dict_get_None_keys.
  - by apply IH.
Qed.

Lemma dict_keys_app d d' :
  Py.dict_keys (d ++ d') = Py.dict_keys d ++ Py.dict_keys d'.
Proof. unfold Py.dict_keys. apply map_app. Qed.
End Dict.

Lemma wf_dict_append d n k :
  wf_dict d n -> Py.dict_get d k = None -> wf_dict (d ++ [(k, n)]) (S n).
Proof.
  intros [Hnd Hall] Hk. split.
  - rewrite dict_keys_app. simpl. apply NoDup_app. split; [done|].
    split; [|apply NoDup_singleton].
    intros x Hx Hx'. apply list_elem_of_singleton in Hx' as ->.
    by apply dict_get_None_keys in Hk.
  - apply Forall_app. split.
    + eapply Forall_impl; [exact Hall|]. simpl. intros; lia.
    + apply Forall_singleton. simpl. lia.
Qed.

Lemma wf_dict_lookup d n k l :
  wf_dict d n -> Py.dict_get d k = Some l -> (l < n)%nat.
Proof.
  intros [_ Hall]. induction Hall as [|[k' v'] d Hkv Hall IH]; simpl; [done|].
  destruct (String.eqb k' k); [|exact IH]. intros [= <-]. exact Hkv.
Qed.

Lemma wf_fresh_world owner now : wf_world (fresh_world owner now).
Proof. repeat split; constructor. Qed.

(** ** One call of [add_or_get_player] *)

Section OneCall.
Variables (w : World) (uuid : bytes) (kw : PlayerKw).

(** The record exists: it is returned, with the owner's roles written
    into it when the uuid is the owner's, and nothing is inserted. *)
Lemma add_or_get_player_existing l p decoded :
  Py.dict_get (shelf_players w) (Py.str_bytes uuid) = Some l ->
  player_heap w !! l = Some p ->
  Py.decode_ascii uuid = Ok decoded ->
  add_or_get_player_kw uuid kw w =
    (Done (Ok l),
     with_players (shelf_players w)
       (if String.eqb decoded (owner_uuid w)
        then <[l := Player.set_roles owner_role_names p]> (player_heap w)
        else player_heap w)
       (with_trace (trace w ++ [Log INFO "Returning existing player." []]) w)).
Proof.
  intros Hget Hp Hdec.
  unfold add_or_get_player_kw, add_or_get_player, bind, get, decode, emit, modify.
  simpl. rewrite Hget. simpl. rewrite Hdec.
  destruct (String.eqb decoded (owner_uuid w)); simpl.
  - unfold player_assign. simpl. rewrite Hp. reflexivity.
  - reflexivity.
Qed.

(** The record does not exist: a new object is made, stored under
    [str(uuid)] as the last key, and returned. *)
Lemma add_or_get_player_created decoded :
  Py.dict_get (shelf_players w) (Py.str_bytes uuid) = None ->
  Py.decode_ascii uuid = Ok decoded ->
  add_or_get_player_kw uuid kw w =
    (Done (Ok (length (player_heap w))),
     with_players
       (shelf_players w ++ [(Py.str_bytes uuid, length (player_heap w))])
       (player_heap w ++
          [Player.__init__ (clock w) uuid (kw_name kw) (kw_last_seen kw)
             (if String.eqb decoded (owner_uuid w)
              then Some owner_role_names else kw_roles kw)
             (kw_logged_in kw) (kw_protocol kw) (kw_client_id kw)
             (kw_ip kw) (kw_planet kw) (kw_on_ship kw) (kw_muted kw)])
       (with_trace
          (trace w ++
             [Log INFO "Creating new player with UUID %s and name %s"
                  [Py.str_bytes uuid; kw_name kw];
              Log DEBUG "Matches owner UUID: "
                  [py_bool (String.eqb decoded (owner_uuid w))]])
          w)).
Proof.
  intros Hget Hdec.
  unfold add_or_get_player_kw, add_or_get_player, bind, get, decode, emit,
    modify, new_player, store_player.
  simpl. rewrite Hget. simpl. rewrite Hdec. simpl.
  rewrite (dict_set_absent _ _ _ Hget), <- app_assoc. reflexivity.
Qed.

(** A uuid with a byte outside ASCII: the call raises at the first
    [decode], after its first log line and before any insertion. *)
Lemma add_or_get_player_undecodable :
  Py.decode_ascii uuid = Raise UnicodeDecodeError ->
  exists line,
    add_or_get_player_kw uuid kw w =
      (Done (Raise UnicodeDecodeError), with_trace (trace w ++ [line]) w).
Proof.
  intros Hdec.
  unfold add_or_get_player_kw, add_or_get_player, bind, get, decode, emit, modify.
  simpl. destruct (Py.dict_get _ _); simpl; rewrite Hdec; eauto.
Qed.
End OneCall.

(** ** The role hierarchy *)

Lemma issubclass_refl c : issubclass c c = true.
Proof. by destruct c. Qed.

Lemma issubclass_trans c d e :
  issubclass c d = true -> issubclass d e = true -> issubclass c e = true.
Proof. by destruct c, d, e. Qed.

(** Every declared role is a subclass of [Owner]: [Owner] sits at the top
    of the tree the statements declare. *)
Lemma declared_below_Owner c :
  c ∈ declared_roles -> issubclass c Owner = true.
Proof.
  unfold declared_roles. rewrite !elem_of_cons, elem_of_nil.
  intros H. decompose [or] H; subst; done.
Qed.

(** C9: in the tree Owner, SuperAdmin, Admin, Moderator, and below
    Moderator the three leaves Guest, Ban and Kick, Moderator implies Kick,
    Kick does not imply Moderator, and Guest implies Guest. *)
Theorem role_implication :
  implies "Moderator" "Kick" = true
  /\ implies "Kick" "Moderator" = false
  /\ implies "Guest" "Guest" = true.
Proof. repeat split; reflexivity. Qed.

(** ** The handshake handlers *)

(** What each of the four state handlers does to a session, whatever the
    payload: the connection's [state] is overwritten, nothing else moves. *)
Lemma set_state_run v (s : Session) :
  (set_state v ;;; ret true) s =
    (Done (Ok true),
     mkSession (mkConnection (ident (protocol s)) (Some v) (player (protocol s)))
               (world s)).
Proof. reflexivity. Qed.

(** C8: each of the four handlers leaves the connection in its own target
    state: [VERSION_SENT] after a protocol version, [HANDSHAKE_CHALLENGE_SENT]
    after a handshake challenge, [HANDSHAKE_RESPONSE_RECEIVED] after a
    handshake response and [CONNECTED_WITH_HEARTBEAT] after a heartbeat,
    for every payload and every session, hence for every prior state. *)
Theorem state_handlers_unconditional (data : Parsed) (s : Session) :
  state (protocol (snd (on_protocol_version data s)))
    = Some (State_value VERSION_SENT)
  /\ state (protocol (snd (on_handshake_challenge data s)))
    = Some (State_value HANDSHAKE_CHALLENGE_SENT)
  /\ state (protocol (snd (on_handshake_response data s)))
    = Some (State_value HANDSHAKE_RESPONSE_RECEIVED)
  /\ state (protocol (snd (on_heartbeat data s)))
    = Some (State_value CONNECTED_WITH_HEARTBEAT)
  /\ Forall (fun h : Parsed -> M Session bool =>
               fst (h data s) = Done (Ok true)
               /\ player (protocol (snd (h data s))) = player (protocol s)
               /\ world (snd (h data s)) = world s)
       [on_protocol_version; on_handshake_challenge; on_handshake_response;
        on_heartbeat].
Proof.
  unfold on_protocol_version, on_handshake_challenge, on_handshake_response,
    on_heartbeat.
  rewrite !set_state_run. simpl.
  repeat split; repeat constructor.
Qed.

(** ** Owner elevation *)

(** C1: in a well-formed world, a call of [add_or_get_player] whose uuid
    decodes to the configured owner UUID returns a record, the one the
    shelf then holds for the uuid, whose [roles] are the names of all seven
    declared roles, whatever [roles] the caller passes and whether or not
    the shelf already held a record for the uuid. *)
Theorem owner_elevation (w : World) (uuid : bytes) (kw : PlayerKw) :
  wf_world w ->
  Py.decode_ascii uuid = Ok (owner_uuid w) ->
  exists l w' p,
    add_or_get_player_kw uuid kw w = (Done (Ok l), w')
    /\ Py.dict_get (shelf_players w') (Py.str_bytes uuid) = Some l
    /\ player_heap w' !! l = Some p
    /\ Player.roles p = owner_role_names
    /\ Player.roles p =
         {[ "Owner"; "SuperAdmin"; "Admin"; "Moderator"; "Guest"; "Ban"; "Kick" ]}.
Proof.
  intros [Hwf _] Hdec.
  destruct (Py.dict_get (shelf_players w) (Py.str_bytes uuid)) as [l|] eqn:Hget.
  - pose proof (wf_dict_lookup _ _ _ _ Hwf Hget) as Hlt.
    destruct (lookup_lt_is_Some_2 _ _ Hlt) as [p Hp].
    eexists l, _, (Player.set_roles owner_role_names p).
    rewrite (add_or_get_player_existing w uuid kw l p _ Hget Hp Hdec).
    rewrite String.eqb_refl. simpl.
    repeat split; [done | by apply list_lookup_insert_eq].
  - eexists (length (player_heap w)), _, _.
    rewrite (add_or_get_player_created w uuid kw _ Hget Hdec).
    rewrite String.eqb_refl. simpl.
    split; [reflexivity|]. split.
    + rewrite <- (dict_set_absent _ _ _ Hget). apply dict_get_set_eq.
    + split; [apply list_lookup_middle; reflexivity|]. split; reflexivity.
Qed.

Lemma owner_elevation_witness :
  wf_world (fresh_world "ab0" 100)
  /\ Py.decode_ascii [x61; x62; x30] = Ok (owner_uuid (fresh_world "ab0" 100))
  /\ exists l w' p,
       add_or_get_player_kw [x61; x62; x30] kw_defaults (fresh_world "ab0" 100)
         = (Done (Ok l), w')
       /\ Py.dict_get (shelf_players w') (Py.str_bytes [x61; x62; x30]) = Some l
       /\ player_heap w' !! l = Some p
       /\ Player.roles p = owner_role_names
       /\ Player.roles p =
            {[ "Owner"; "SuperAdmin"; "Admin"; "Moderator"; "Guest"; "Ban"; "Kick" ]}.
Proof.
  split; [apply wf_fresh_world|]. split; [reflexivity|].
  apply (owner_elevation (fresh_world "ab0" 100) [x61; x62; x30] kw_defaults).
  - apply wf_fresh_world.
  - reflexivity.
Defined.

(** ** Deduplication of player records *)

(** A call on a uuid the shelf knows returns the stored reference and
    leaves the dictionary and the size of the heap as they were. *)
Lemma add_or_get_player_again w uuid kw l decoded :
  wf_world w ->
  Py.dict_get (shelf_players w) (Py.str_bytes uuid) = Some l ->
  Py.decode_ascii uuid = Ok decoded ->
  exists w',
    add_or_get_player_kw uuid kw w = (Done (Ok l), w')
    /\ shelf_players w' = shelf_players w
    /\ length (player_heap w') = length (player_heap w)
    /\ wf_world w'.
Proof.
  intros Hwf Hget Hdec.
  pose proof (wf_dict_lookup _ _ _ _ (proj1 Hwf) Hget) as Hlt.
  destruct (lookup_lt_is_Some_2 _ _ Hlt) as [p Hp].
  eexists. split; [exact (add_or_get_player_existing w uuid kw l p _ Hget Hp Hdec)|].
  assert (Hlen : length (if String.eqb decoded (owner_uuid w)
                         then <[l:=Player.set_roles owner_role_names p]> (player_heap w)
                         else player_heap w) = length (player_heap w)).
  { destruct (String.eqb _ _); [apply length_insert | reflexivity]. }
  simpl. split; [reflexivity|]. split; [exact Hlen|].
  destruct Hwf as [Hpl Hpn]. split; simpl; [by rewrite Hlen | done].
Qed.

(** A first call on a uuid the shelf does not know appends one entry and
    one object. *)
Lemma add_or_get_player_first w uuid kw decoded :
  wf_world w ->
  Py.dict_get (shelf_players w) (Py.str_bytes uuid) = None ->
  Py.decode_ascii uuid = Ok decoded ->
  exists w',
    add_or_get_player_kw uuid kw w = (Done (Ok (length (player_heap w))), w')
    /\ shelf_players w' =
         shelf_players w ++ [(Py.str_bytes uuid, length (player_heap w))]
    /\ Player.uuid <$> player_heap w' !! length (player_heap w) = Some uuid
    /\ length (player_heap w') = S (length (player_heap w))
    /\ wf_world w'.
Proof.
  intros [Hpl Hpn] Hget Hdec.
  eexists. split; [exact (add_or_get_player_created w uuid kw _ Hget Hdec)|].
  simpl. split; [reflexivity|].
  split; [by rewrite list_lookup_middle|].
  assert (Hlen : forall p : Player.t,
             length (player_heap w ++ [p]) = S (length (player_heap w))).
  { intros p. rewrite length_app. simpl. lia. }
  split; [apply Hlen|].
  split; simpl; [|done]. rewrite Hlen. by apply wf_dict_append.
Qed.

(** Any number of further calls: each returns the stored reference. *)
Lemma run_calls_again uuid decoded l calls :
  Py.decode_ascii uuid = Ok decoded ->
  forall w,
    wf_world w ->
    Py.dict_get (shelf_players w) (Py.str_bytes uuid) = Some l ->
    exists w',
      run_calls uuid calls w = (replicate (length calls) (Done (Ok l)), w')
      /\ shelf_players w' = shelf_players w
      /\ length (player_heap w') = length (player_heap w)
      /\ wf_world w'.
Proof.
  intros Hdec. induction calls as [|kw calls IH]; intros w Hwf Hget.
  - exists w. by split_and!.
  - destruct (add_or_get_player_again w uuid kw l decoded Hwf Hget Hdec)
      as (w1 & Hrun & Hshelf & Hlen & Hwf1).
    destruct (IH w1 Hwf1) as (w' & Hrest & Hshelf' & Hlen' & Hwf');
      [by rewrite Hshelf|].
    exists w'. simpl. rewrite Hrun, Hrest.
    split_and!; [done | congruence | congruence | done].
Qed.

(** Calls that share a uuid that decodes: one reference for all of them,
    one entry under the key, and the dictionary and the number of objects
    as the first call left them. *)
Lemma run_calls_one_record (w : World) (uuid : bytes) (decoded : string)
    (kw : PlayerKw) (later : list PlayerKw) :
  wf_world w ->
  Py.decode_ascii uuid = Ok decoded ->
  let key := Py.str_bytes uuid in
  let w1 := snd (add_or_get_player_kw uuid kw w) in
  let w' := snd (run_calls uuid (kw :: later) w) in
  exists l,
    fst (run_calls uuid (kw :: later) w)
      = replicate (S (length later)) (Done (Ok l))
    /\ Py.dict_get (shelf_players w') key = Some l
    /\ Py.dict_count (shelf_players w') key = 1%nat
    /\ shelf_players w' = shelf_players w1
    /\ length (player_heap w') = length (player_heap w1)
    /\ match Py.dict_get (shelf_players w) key with
       | None =>
           l = length (player_heap w)
           /\ shelf_players w1 = shelf_players w ++ [(key, l)]
           /\ Player.uuid <$> player_heap w1 !! l = Some uuid
           /\ length (player_heap w1) = S (length (player_heap w))
       | Some l0 =>
           l = l0
           /\ shelf_players w1 = shelf_players w
           /\ length (player_heap w1) = length (player_heap w)
       end.
Proof.
  intros Hwf Hdec key w1 w'. subst key w1 w'.
  destruct (Py.dict_get (shelf_players w) (Py.str_bytes uuid)) as [l0|] eqn:Hget.
  - destruct (add_or_get_player_again w uuid kw l0 decoded Hwf Hget Hdec)
      as (w1 & Hrun & Hshelf & Hlen & Hwf1).
    assert (Hget1 : Py.dict_get (shelf_players w1) (Py.str_bytes uuid) = Some l0)
      by (by rewrite Hshelf).
    destruct (run_calls_again uuid decoded l0 later Hdec w1 Hwf1 Hget1)
      as (w' & Hrest & Hshelf' & Hlen' & Hwf').
    exists l0. simpl. rewrite Hrun, Hrest. simpl.
    rewrite Hshelf'. repeat split; try done.
    eapply dict_count_present; [apply Hwf1 | exact Hget1].
  - destruct (add_or_get_player_first w uuid kw decoded Hwf Hget Hdec)
      as (w1 & Hrun & Hshelf & Huuid & Hlen & Hwf1).
    assert (Hget1 : Py.dict_get (shelf_players w1) (Py.str_bytes uuid)
                    = Some (length (player_heap w))).
    { rewrite Hshelf, <- (dict_set_absent _ _ _ Hget). apply dict_get_set_eq. }
    destruct (run_calls_again uuid decoded _ later Hdec w1 Hwf1 Hget1)
      as (w' & Hrest & Hshelf' & Hlen' & Hwf').
    exists (length (player_heap w)). simpl. rewrite Hrun, Hrest. simpl.
    rewrite Hshelf'. repeat split; try done.
    eapply dict_count_present; [apply Hwf1 | exact Hget1].
Qed.

(** ** Deduplication of planet records *)

Lemma add_or_get_planet_existing w sector a x y planet satellite l :
  Py.dict_get (shelf_planets w) (Planet.fmt_location sector a x y planet satellite)
    = Some l ->
  add_or_get_planet sector (a, x, y) planet satellite w =
    (Done (Ok l),
     with_trace (trace w ++ [Print "Returning already existing planet."]) w).
Proof.
  intros Hget. unfold add_or_get_planet, bind, get, emit, modify.
  simpl. by rewrite Hget.
Qed.

Lemma add_or_get_planet_created w sector a x y planet satellite :
  Py.dict_get (shelf_planets w) (Planet.fmt_location sector a x y planet satellite)
    = None ->
  add_or_get_planet sector (a, x, y) planet satellite w =
    (Done (Ok (length (planet_heap w))),
     with_planets
       (shelf_planets w ++
          [(Planet.fmt_location sector a x y planet satellite,
            length (planet_heap w))])
       (planet_heap w ++ [Planet.mk sector a x y planet satellite]) w).
Proof.
  intros Hget.
  unfold add_or_get_planet, bind, get, new_planet, store_planet, modify.
  simpl. rewrite Hget. simpl.
  unfold Planet.__str__. simpl. by rewrite (dict_set_absent _ _ _ Hget).
Qed.

Lemma add_or_get_planet_twice w sector a x y planet satellite :
  same_planet_twice w sector a x y planet satellite
    (Planet.fmt_location sector a x y planet satellite).
Proof.
  unfold same_planet_twice.
  destruct (Py.dict_get (shelf_planets w)
              (Planet.fmt_location sector a x y planet satellite))
    as [l|] eqn:Hget.
  - exists l. eexists. eexists.
    rewrite (add_or_get_planet_existing _ _ _ _ _ _ _ _ Hget).
    split; [reflexivity|]. split.
    + by apply add_or_get_planet_existing.
    + by split_and!.
  - exists (length (planet_heap w)). eexists. eexists.
    rewrite (add_or_get_planet_created _ _ _ _ _ _ _ Hget).
    assert (Hget1 :
      Py.dict_get
        (shelf_planets w ++
           [(Planet.fmt_location sector a x y planet satellite,
             length (planet_heap w))])
        (Planet.fmt_location sector a x y planet satellite)
      = Some (length (planet_heap w))).
    { rewrite <- (dict_set_absent _ _ _ Hget). apply dict_get_set_eq. }
    split; [reflexivity|]. split.
    + by apply add_or_get_planet_existing.
    + simpl. split_and!; [done | done | done |].
      intros _. by apply list_lookup_middle.
Qed.

(** C3: [add_or_get_planet] keys a planet by its sector, the three
    integers of its location, its planet and its satellite, in that order
    and joined by colons; called twice for sector alpha, location (0,1,2),
    planet 3 and satellite 4 it returns one record both times, stored under
    the key alpha:0:1:2:3:4, and the second call inserts nothing. *)
Theorem planet_key_determinism (w : World) :
  (forall sector a x y planet satellite,
     same_planet_twice w sector a x y planet satellite
       (sector +:+ ":" +:+ Py.fmt_d a +:+ ":" +:+ Py.fmt_d x +:+ ":"
          +:+ Py.fmt_d y +:+ ":" +:+ Py.fmt_d planet +:+ ":"
          +:+ Py.fmt_d satellite))
  /\ same_planet_twice w "alpha" 0 1 2 3 4 "alpha:0:1:2:3:4".
Proof.
  split.
  - intros. apply add_or_get_planet_twice.
  - apply (add_or_get_planet_twice w "alpha" 0 1 2 3 4).
Qed.

(** ** Connect responses *)

Lemma assign_player_attr_run f s l p :
  player (protocol s) = Some l ->
  player_heap (world s) !! l = Some p ->
  assign_player_attr f s = (Done (Ok tt), write_player l (f p) s).
Proof.
  intros Hl Hp. unfold assign_player_attr, bind, bound_player, lift, player_assign.
  by rewrite Hl, Hp.
Qed.

Lemma write_player_lookup l q s p :
  player_heap (world s) !! l = Some p ->
  player_heap (world (write_player l q s)) !! l = Some q.
Proof.
  intros Hp. simpl. apply list_lookup_insert_eq. by eapply lookup_lt_Some.
Qed.

Lemma write_player_twice l q q' s :
  write_player l q' (write_player l q s) = write_player l q' s.
Proof. unfold write_player. simpl. by rewrite list_insert_insert_eq. Qed.

Lemma assign_player_attr_again f l q s p :
  player (protocol s) = Some l ->
  player_heap (world s) !! l = Some p ->
  assign_player_attr f (write_player l q s) = (Done (Ok tt), write_player l (f q) s).
Proof.
  intros Hl Hp.
  rewrite (assign_player_attr_run f (write_player l q s) l q Hl
             (write_player_lookup l q s p Hp)).
  by rewrite write_player_twice.
Qed.

Lemma on_connect_response_failure s l p client_id :
  player (protocol s) = Some l ->
  player_heap (world s) !! l = Some p ->
  on_connect_response (ConnectResponse false client_id) s =
    (Done (Ok true),
     write_player l (Player.set_client_id (-1) (Player.set_logged_in false p)) s).
Proof.
  intros Hl Hp. unfold on_connect_response, bind.
  rewrite (assign_player_attr_run _ s l p Hl Hp).
  by rewrite (assign_player_attr_again _ l _ s p Hl Hp).
Qed.

Lemma on_connect_response_success s l p client_id :
  player (protocol s) = Some l ->
  player_heap (world s) !! l = Some p ->
  on_connect_response (ConnectResponse true client_id) s =
    (Done (Ok true),
     mkSession (mkConnection (ident (protocol s))
                  (Some (State_value CONNECTED)) (Some l))
       (world (write_player l
                 (Player.set_protocol (Some (ident (protocol s)))
                    (Player.set_client_id client_id (Player.set_logged_in true p)))
                 s))).
Proof.
  intros Hl Hp. unfold on_connect_response, bind.
  rewrite (assign_player_attr_run _ s l p Hl Hp).
  rewrite (assign_player_attr_again _ l _ s p Hl Hp).
  unfold self_ident. simpl protocol at 1.
  rewrite (assign_player_attr_again _ l _ s p Hl Hp).
  simpl. by rewrite Hl.
Qed.

(** C6: on a connection with a bound player, a connect response with
    [success] false leaves the player logged out with client id -1 and does
    not touch the connection's state; one with [success] true leaves the
    player logged in with the client id of the response and the connection
    in state [CONNECTED]. *)
Theorem connect_response_outcomes (s : Session) (l : ref) (p : Player.t)
    (client_id : Z) :
  player (protocol s) = Some l ->
  player_heap (world s) !! l = Some p ->
  (exists s' p',
     on_connect_response (ConnectResponse false client_id) s = (Done (Ok true), s')
     /\ player_heap (world s') !! l = Some p'
     /\ Player.logged_in p' = false
     /\ Player.client_id p' = -1
     /\ state (protocol s') = state (protocol s)
     /\ (state (protocol s) <> Some (State_value CONNECTED) ->
         state (protocol s') <> Some (State_value CONNECTED)))
  /\ (exists s' p',
        on_connect_response (ConnectResponse true client_id) s = (Done (Ok true), s')
        /\ player_heap (world s') !! l = Some p'
        /\ Player.logged_in p' = true
        /\ Player.client_id p' = client_id
        /\ Player.protocol p' = Some (ident (protocol s))
        /\ state (protocol s') = Some (State_value CONNECTED)).
Proof.
  intros Hl Hp. split.
  - eexists _, _. rewrite (on_connect_response_failure s l p _ Hl Hp).
    split; [reflexivity|]. split; [by eapply write_player_lookup|].
    by split_and!.
  - eexists _, _. rewrite (on_connect_response_success s l p _ Hl Hp).
    split; [reflexivity|]. split; [by eapply write_player_lookup|].
    by split_and!.
Qed.

Lemma connect_response_outcomes_witness :
  player (protocol bob_connects) = Some 0%nat
  /\ is_Some (player_heap (world bob_connects) !! 0%nat)
  /\ exists s' p',
       on_connect_response (ConnectResponse true 3) bob_connects
         = (Done (Ok true), s')
       /\ player_heap (world s') !! 0%nat = Some p'
       /\ Player.logged_in p' = true
       /\ Player.client_id p' = 3
       /\ Player.protocol p' = Some 7%nat
       /\ state (protocol s') = Some 5.
Proof.
  split; [reflexivity|]. split; [by eexists|].
  exact (proj2 (connect_response_outcomes bob_connects 0%nat _ 3 eq_refl eq_refl)).
Defined.

(** ** What the handlers answer *)

Section ReturnsTrue.
Context {S : Type}.

Lemma returns_true_ret : returns_true (S := S) (ret true).
Proof. intros s v s' [= <- _]. reflexivity. Qed.

Lemma returns_true_raise e : returns_true (S := S) (raise e).
Proof. intros s v s' [=]. Qed.

Lemma returns_true_bind {A} (m : M S A) (k : A -> M S bool) :
  (forall a, returns_true (k a)) -> returns_true (bind m k).
Proof.
  intros Hk s v s'. unfold bind.
  destruct (m s) as [[[a|e]|] s1]; [apply Hk | intros [=] | intros [=]].
Qed.
End ReturnsTrue.

Ltac answers_true :=
  repeat first
    [ apply returns_true_ret
    | apply returns_true_raise
    | apply returns_true_bind; intros ].

(** C10: whichever of the ten [on_] handlers runs, on whatever payload and
    session, if it completes, its answer is [True]. *)
Theorem handlers_return_true (name : string) (h : Parsed -> M Session bool)
    (data : Parsed) (s s' : Session) (v : bool) :
  (name, h) ∈ handlers ->
  h data s = (Done (Ok v), s') ->
  v = true.
Proof.
  intros Hin. revert s v s'. change (returns_true (h data)).
  unfold handlers in Hin.
  repeat (apply elem_of_cons in Hin as [[= _ ->]|Hin]);
    [..|by apply elem_of_nil in Hin].
  - answers_true.
  - answers_true.
  - answers_true.
  - unfold on_connect_response. destruct data; answers_true.
  - unfold on_client_connect. destruct data as [[u|] kw| | |]; answers_true.
  - answers_true.
  - answers_true.
  - answers_true.
  - unfold on_world_start. destruct data; answers_true.
  - answers_true.
Qed.

Lemma handlers_return_true_witness :
  ("on_client_connect", on_client_connect) ∈ handlers
  /\ on_client_connect (ClientConnect (Some bob) bob_kw)
       (mkSession (fresh_connection 7%nat) (fresh_world "ab0" 100))
     = (Done (Ok true), bob_connects)
  /\ true = true.
Proof.
  assert (Hin : ("on_client_connect", on_client_connect) ∈ handlers).
  { unfold handlers. do 4 apply list_elem_of_further. apply list_elem_of_here. }
  split; [exact Hin|]. split; [reflexivity|].
  exact (handlers_return_true "on_client_connect" on_client_connect
           (ClientConnect (Some bob) bob_kw)
           (mkSession (fresh_connection 7%nat) (fresh_world "ab0" 100))
           bob_connects true Hin eq_refl).
Defined.

(** ** The connect lifecycle *)

Lemma on_client_connect_fresh w c uuid decoded kw :
  Py.dict_get (shelf_players w) (Py.str_bytes uuid) = None ->
  Py.decode_ascii uuid = Ok decoded ->
  on_client_connect (ClientConnect (Some uuid) kw) (mkSession c w) =
    (Done (Ok true),
     mkSession
       (mkConnection (ident c) (state c) (Some (length (player_heap w))))
       (snd (add_or_get_player_kw uuid kw w))).
Proof.
  intros Hget Hdec. unfold on_client_connect, bind, lift. simpl.
  by rewrite (add_or_get_player_created w uuid kw decoded Hget Hdec).
Qed.

Lemma on_disconnect_run s l p :
  player (protocol s) = Some l ->
  player_heap (world s) !! l = Some p ->
  on_client_disconnect = on_server_disconnect
  /\ forall data,
       on_client_disconnect data s =
         (Done (Ok true),
          write_player l (Player.set_logged_in false (Player.set_protocol None p)) s).
Proof.
  intros Hl Hp. split; [reflexivity|]. intros data.
  unfold on_client_disconnect, bind.
  rewrite (assign_player_attr_run _ s l p Hl Hp).
  by rewrite (assign_player_attr_again _ l _ s p Hl Hp).
Qed.

Lemma disconnects_keeping_both data s l p :
  player (protocol s) = Some l ->
  player_heap (world s) !! l = Some p ->
  Forall (fun h => disconnects_keeping h data s l p)
    [on_client_disconnect; on_server_disconnect].
Proof.
  intros Hl Hp. destruct (on_disconnect_run s l p Hl Hp) as [<- Hrun].
  assert (disconnects_keeping on_client_disconnect data s l p) as Hone.
  { eexists _, _. rewrite Hrun. split; [reflexivity|].
    split; [by eapply write_player_lookup|]. by split_and!. }
  by repeat constructor.
Qed.

(** From any session with a bound player: a disconnect now, or a
    successful connect response and a disconnect after it. *)
Lemma bound_lifecycle s l p client_id data :
  player (protocol s) = Some l ->
  player_heap (world s) !! l = Some p ->
  Forall (fun h => disconnects_keeping h data s l p)
    [on_client_disconnect; on_server_disconnect]
  /\ exists s2 p2,
       on_connect_response (ConnectResponse true client_id) s
         = (Done (Ok true), s2)
       /\ player_heap (world s2) !! l = Some p2
       /\ Player.logged_in p2 = true
       /\ Player.protocol p2 = Some (ident (protocol s))
       /\ Forall (fun h => disconnects_keeping h data s2 l p)
            [on_client_disconnect; on_server_disconnect].
Proof.
  intros Hl Hp. split; [by apply disconnects_keeping_both|].
  eexists _, _.
  rewrite (on_connect_response_success s l p client_id Hl Hp).
  split; [reflexivity|].
  split; [by eapply write_player_lookup|].
  split; [reflexivity|]. split; [reflexivity|].
  set (q := Player.set_protocol _ _).
  set (s2 := mkSession _ _).
  assert (Hq : player_heap (world s2) !! l = Some q)
    by (by eapply write_player_lookup).
  eapply Forall_impl; [exact (disconnects_keeping_both data s2 l q eq_refl Hq)|].
  intros h (s' & p' & Hrun & Hp' & Hrest). by exists s', p'.
Qed.

(** C7, as the code has it: for a uuid the shelf does not know, in a
    payload that leaves [logged_in] and [protocol] at their defaults,
    [on_client_connect] binds the connection to a new player who is logged
    in and has no connection of his own yet; a successful connect response
    then gives him the connection; and a client or server disconnect, at
    either point, leaves him logged out and without a connection, his uuid,
    name and roles as they were. *)
Theorem connect_lifecycle (w : World) (c : Connection) (uuid : bytes)
    (decoded : string) (kw : PlayerKw) (client_id : Z) (data : Parsed) :
  Py.dict_get (shelf_players w) (Py.str_bytes uuid) = None ->
  Py.decode_ascii uuid = Ok decoded ->
  kw_logged_in kw = true ->
  kw_protocol kw = None ->
  exists l s1 p1,
    on_client_connect (ClientConnect (Some uuid) kw) (mkSession c w)
      = (Done (Ok true), s1)
    /\ player (protocol s1) = Some l
    /\ player_heap (world s1) !! l = Some p1
    /\ Player.uuid p1 = uuid
    /\ Player.name p1 = kw_name kw
    /\ Player.logged_in p1 = true
    /\ Player.protocol p1 = None
    /\ Forall (fun h => disconnects_keeping h data s1 l p1)
         [on_client_disconnect; on_server_disconnect]
    /\ exists s2 p2,
         on_connect_response (ConnectResponse true client_id) s1
           = (Done (Ok true), s2)
         /\ player_heap (world s2) !! l = Some p2
         /\ Player.logged_in p2 = true
         /\ Player.protocol p2 = Some (ident c)
         /\ Forall (fun h => disconnects_keeping h data s2 l p1)
              [on_client_disconnect; on_server_disconnect].
Proof.
  intros Hget Hdec Hlogged Hproto.
  eexists (length (player_heap w)), _, _.
  rewrite (on_client_connect_fresh w c uuid decoded kw Hget Hdec).
  rewrite (add_or_get_player_created w uuid kw decoded Hget Hdec).
  split; [reflexivity|]. split; [reflexivity|].
  split; [by apply list_lookup_middle|].
  split; [reflexivity|]. split; [reflexivity|].
  split; [exact Hlogged|]. split; [exact Hproto|].
  apply bound_lifecycle; [reflexivity | by apply list_lookup_middle].
Qed.

Lemma connect_lifecycle_witness :
  Py.dict_get (shelf_players (fresh_world "ab0" 100)) (Py.str_bytes bob) = None
  /\ Py.decode_ascii bob = Ok "bob"
  /\ kw_logged_in bob_kw = true
  /\ kw_protocol bob_kw = None
  /\ exists l p1,
       player (protocol bob_connects) = Some l
       /\ player_heap (world bob_connects) !! l = Some p1
       /\ Player.logged_in p1 = true
       /\ Player.protocol p1 = None
       /\ Forall (fun h => disconnects_keeping h Opaque bob_connects l p1)
            [on_client_disconnect; on_server_disconnect].
Proof.
  split_and!; try reflexivity.
  destruct (connect_lifecycle (fresh_world "ab0" 100) (fresh_connection 7%nat)
              bob "bob" bob_kw 1 Opaque eq_refl eq_refl eq_refl eq_refl)
    as (l & s1 & p1 & Hrun & Hl & Hp & _ & _ & Hlogged & Hproto & Hdisc & _).
  assert (s1 = bob_connects) as -> by (unfold bob_connects; by rewrite Hrun).
  by exists l, p1.
Defined.

(** Right after [on_client_connect] the connection knows its player, but
    the player does not know the connection: Bob, new on connection 7, is
    logged in and his [protocol] is still [None]. *)
Lemma client_connect_backref_counterexample :
  on_client_connect (ClientConnect (Some bob) bob_kw)
    (mkSession (fresh_connection 7%nat) (fresh_world "ab0" 100))
    = (Done (Ok true), bob_connects)
  /\ player (protocol bob_connects) = Some 0%nat
  /\ ~ (exists p,
          player_heap (world bob_connects) !! 0%nat = Some p
          /\ Player.logged_in p = true
          /\ Player.protocol p = Some 7%nat).
Proof.
  split; [reflexivity|]. split; [reflexivity|].
  intros (p & Hp & _ & Hproto).
  vm_compute in Hp. injection Hp as <-. discriminate Hproto.
Qed.

(** ** Kicking *)

(** The search reads the world and leaves it as it is. *)
Lemma scan_players_world lname check values w :
  snd (scan_players lname check values w) = w.
Proof.
  induction values as [|l values IH]; simpl; [reflexivity|].
  unfold bind, player_read. destruct (player_heap w !! l) as [p|]; [|reflexivity].
  destruct (String.eqb _ _); [|exact IH].
  destruct (negb check || Player.logged_in p); [reflexivity | exact IH].
Qed.

Lemma get_player_by_name_world name check w :
  snd (get_player_by_name name check w) = w.
Proof. unfold get_player_by_name, bind, get. apply scan_players_world. Qed.

Lemma get_player_by_name_run name check w r :
  fst (get_player_by_name name check w) = r ->
  get_player_by_name name check w = (r, w).
Proof.
  intros <-. rewrite <- (get_player_by_name_world name check w) at 3.
  by destruct (get_player_by_name name check w).
Qed.

(** No player of that name: the issuer is told so, and that is all. *)
Lemma kick_not_found data s :
  fst (get_player_by_name (Py.join " " data) false (world s)) = Done (Ok None) ->
  kick data s =
    (Done (Ok tt),
     mkSession (protocol s)
       (with_trace
          (trace (world s) ++
             [SendMessage (ident (protocol s))
                ("Couldn't find a player with name " +:+ Py.join " " data)])
          (world s))).
Proof.
  intros Hfind. unfold kick, bind, lift.
  by rewrite (get_player_by_name_run _ _ _ _ Hfind).
Qed.

(** A player of that name who has a connection: the connection dies and
    everybody is told who kicked whom. *)
Lemma kick_found data s l target c issuer issuer_obj :
  fst (get_player_by_name (Py.join " " data) false (world s)) = Done (Ok (Some l)) ->
  player_heap (world s) !! l = Some target ->
  Player.protocol target = Some c ->
  player (protocol s) = Some issuer ->
  player_heap (world s) !! issuer = Some issuer_obj ->
  kick data s =
    (Done (Ok tt),
     mkSession (protocol s)
       (with_trace
          (trace (world s) ++
             [Die c;
              Broadcast (Player.name issuer_obj +:+ " has kicked "
                           +:+ Player.name target +:+ ".")])
          (world s))).
Proof.
  intros Hfind Htarget Hconn Hissuer Hobj. unfold kick, bind, lift.
  rewrite (get_player_by_name_run _ _ _ _ Hfind).
  unfold player_read, bound_player, emit, modify. simpl.
  rewrite Htarget, Hconn. simpl. rewrite Hissuer. simpl. rewrite Hobj. simpl.
  rewrite Htarget. simpl. by rewrite <- app_assoc.
Qed.

(** A player of that name without a connection: [p.protocol.die()] is a
    call on [None]. *)
Lemma kick_no_connection data s l target :
  fst (get_player_by_name (Py.join " " data) false (world s)) = Done (Ok (Some l)) ->
  player_heap (world s) !! l = Some target ->
  Player.protocol target = None ->
  kick data s = (Done (Raise AttributeError), s).
Proof.
  intros Hfind Htarget Hconn. unfold kick, bind, lift.
  rewrite (get_player_by_name_run _ _ _ _ Hfind).
  unfold player_read. simpl. rewrite Htarget, Hconn. by destruct s.
Qed.

(** C4, where the code departs from it: Bob has connected on connection 7
    and disconnected, Alice is connected on connection 8 and kicks Bob.
    The search of [kick] does not ask for logged-in players, so it finds
    Bob, who is logged out and has no connection; the command then raises
    [AttributeError] and Alice gets no reply.  Had the search been asked
    for logged-in players only, it would have found nobody. *)
Theorem kick_logged_out_target :
  Player.logged_in <$> player_heap (world alice_online) !! 0%nat = Some false
  /\ Player.protocol <$> player_heap (world alice_online) !! 0%nat = Some None
  /\ fst (get_player_by_name "Bob" false (world alice_online)) = Done (Ok (Some 0%nat))
  /\ fst (get_player_by_name "Bob" true (world alice_online)) = Done (Ok None)
  /\ kick ["Bob"] alice_online = (Done (Raise AttributeError), alice_online).
Proof.
  split; [reflexivity|]. split; [reflexivity|].
  split; [reflexivity|]. split; [reflexivity|].
  by eapply (kick_no_connection ["Bob"] alice_online 0%nat).
Qed.

(** ** Entering a world *)

Lemma dict_get_elem {V} (d : Py.dict V) k v :
  Py.dict_get d k = Some v -> (k, v) ∈ d.
Proof.
  induction d as [|[k' v'] d IH]; simpl; [done|].
  destruct (String.eqb_spec k' k) as [->|_].
  - intros [= ->]. apply list_elem_of_here.
  - intros H. apply list_elem_of_further. by apply IH.
Qed.

(** What [add_or_get_planet] hands back prints as the key it was asked
    for, and the players are not its business. *)
Lemma add_or_get_planet_shown w sector a x y planet satellite :
  planets_keyed w ->
  exists l w1,
    add_or_get_planet sector (a, x, y) planet satellite w = (Done (Ok l), w1)
    /\ Py.dict_get (shelf_planets w1)
         (Planet.fmt_location sector a x y planet satellite) = Some l
    /\ Planet.__str__ <$> planet_heap w1 !! l
       = Some (Planet.fmt_location sector a x y planet satellite)
    /\ shelf_players w1 = shelf_players w
    /\ player_heap w1 = player_heap w.
Proof.
  intros Hkeyed.
  destruct (Py.dict_get (shelf_planets w)
              (Planet.fmt_location sector a x y planet satellite))
    as [l|] eqn:Hget.
  - eexists l, _.
    rewrite (add_or_get_planet_existing _ _ _ _ _ _ _ _ Hget).
    split; [reflexivity|]. simpl. split; [exact Hget|].
    split; [|done].
    unfold planets_keyed in Hkeyed. rewrite Forall_forall in Hkeyed.
    exact (Hkeyed _ (dict_get_elem _ _ _ Hget)).
  - eexists (length (planet_heap w)), _.
    rewrite (add_or_get_planet_created _ _ _ _ _ _ _ Hget).
    split; [reflexivity|]. simpl. split.
    + rewrite <- (dict_set_absent _ _ _ Hget). apply dict_get_set_eq.
    + split; [|done]. by rewrite list_lookup_middle.
Qed.

(** C5, as the code has it: on a connection with a bound player, a world
    start that carries celestial coordinates gets or creates the planet of
    those coordinates and names its key in the log line, and writes to no
    player record; a world start without them marks the bound player as on
    ship. *)
Theorem world_start_effects (s : Session) (l : ref) (p : Player.t) :
  player (protocol s) = Some l ->
  player_heap (world s) !! l = Some p ->
  planets_keyed (world s) ->
  (forall sector a x y planet satellite,
     exists s',
       on_world_start
         (WorldStart (Some (mkCoordinate sector (a, x, y) planet satellite))) s
         = (Done (Ok true), s')
       /\ protocol s' = protocol s
       /\ world s' =
            (let w1 := snd (add_or_get_planet sector (a, x, y) planet satellite
                              (world s)) in
             with_trace
               (trace w1 ++
                  [Log INFO "Player %s is now at location: %s"
                       [Player.name p;
                        Planet.fmt_location sector a x y planet satellite]])
               w1)
       /\ is_Some (Py.dict_get (shelf_planets (world s'))
                     (Planet.fmt_location sector a x y planet satellite))
       /\ player_heap (world s') = player_heap (world s))
  /\ exists s',
       on_world_start (WorldStart None) s = (Done (Ok true), s')
       /\ player_heap (world s') !! l = Some (Player.set_on_ship true p)
       /\ Player.on_ship (Player.set_on_ship true p) = true.
Proof.
  intros Hl Hp Hkeyed. split.
  - intros sector a x y planet satellite.
    destruct (add_or_get_planet_shown (world s) sector a x y planet satellite Hkeyed)
      as (pl & w1 & Hrun & Hkey & Hshown & Hshelf & Hheap).
    eexists. unfold on_world_start, bind, lift. simpl co_sector.
    simpl co_location. simpl co_planet. simpl co_satellite.
    rewrite Hrun. unfold ret at 1. unfold bound_player. simpl.
    rewrite Hl. unfold player_read, str_location, bind, planet_read. simpl.
    rewrite Hheap, Hp.
    destruct (planet_heap w1 !! pl) as [obj|] eqn:Hobj; [|discriminate Hshown].
    simpl in Hshown. injection Hshown as Hshown.
    simpl. rewrite Hobj. unfold ret. simpl. rewrite Hshown.
    split; [reflexivity|]. simpl.
    split; [reflexivity|]. split; [reflexivity|].
    split; [by rewrite Hkey | exact Hheap].
  - eexists. unfold on_world_start, bind.
    rewrite (assign_player_attr_run _ s l p Hl Hp).
    unfold ret at 1. unfold bound_player. simpl. rewrite Hl.
    unfold lift, player_read. simpl.
    rewrite list_lookup_insert_eq by (by eapply lookup_lt_Some).
    split; [reflexivity|]. simpl.
    split; [|reflexivity].
    apply list_lookup_insert_eq. by eapply lookup_lt_Some.
Qed.

Lemma world_start_effects_witness :
  player (protocol bob_online) = Some 0%nat
  /\ is_Some (player_heap (world bob_online) !! 0%nat)
  /\ planets_keyed (world bob_online)
  /\ (exists s',
        on_world_start (WorldStart (Some (mkCoordinate "alpha" (0, 1, 2) 3 4)))
          bob_online = (Done (Ok true), s')
        /\ is_Some (Py.dict_get (shelf_planets (world s')) "alpha:0:1:2:3:4")
        /\ player_heap (world s') = player_heap (world bob_online))
  /\ exists s',
       on_world_start (WorldStart None) bob_online = (Done (Ok true), s')
       /\ Player.on_ship <$> player_heap (world s') !! 0%nat = Some true.
Proof.
  split; [reflexivity|]. split; [by eexists|]. split; [by constructor|].
  destruct (world_start_effects bob_online 0%nat _ eq_refl eq_refl
              (Forall_nil_2 _))
    as [Hplanet (s' & Hrun & Hp & Hship)].
  split.
  - destruct (Hplanet "alpha" 0 1 2 3 4) as (s1 & Hrun1 & _ & _ & Hkey & Hheap).
    by exists s1.
  - exists s'. split; [exact Hrun|]. by rewrite Hp.
Defined.

(** Bob enters the planet alpha:0:1:2:3:4: the shelf gets the planet, the
    log names it, and Bob's record says nothing of it. *)
Lemma world_start_unrecorded_counterexample :
  fst (on_world_start (WorldStart (Some (mkCoordinate "alpha" (0, 1, 2) 3 4)))
         bob_online) = Done (Ok true)
  /\ Py.dict_keys
       (shelf_planets
          (world (snd (on_world_start
                         (WorldStart (Some (mkCoordinate "alpha" (0, 1, 2) 3 4)))
                         bob_online))))
     = ["alpha:0:1:2:3:4"]
  /\ player (protocol bob_online) = Some 0%nat
  /\ ~ (exists p,
          player_heap
            (world (snd (on_world_start
                           (WorldStart (Some (mkCoordinate "alpha" (0, 1, 2) 3 4)))
                           bob_online))) !! 0%nat = Some p
          /\ Player.planet p = "alpha:0:1:2:3:4").
Proof.
  split; [reflexivity|]. split; [reflexivity|]. split; [reflexivity|].
  intros (p & Hp & Hplanet).
  vm_compute in Hp. injection Hp as <-. discriminate Hplanet.
Qed.

(** ** Reachable worlds

    Every handler and the [kick] command keep the invariant: from a
    well-formed session they never meet a dangling reference, and they
    leave a well-formed session with at least as many objects. *)

Section Safe.
Context {S : Type} (ok : S -> Prop) (le : S -> S -> Prop).
Hypothesis le_refl : forall s, le s s.
Hypothesis le_trans : forall s1 s2 s3, le s1 s2 -> le s2 s3 -> le s1 s3.

Lemma safe_ret {A} (P : S -> Prop) (a : A) (Q : A -> S -> Prop) :
  (forall s, P s -> Q a s) -> safe ok le P (ret a) Q.
Proof. intros H s Hok Hs. simpl. auto. Qed.

Lemma safe_raise {A} (P : S -> Prop) e (Q : A -> S -> Prop) :
  safe ok le P (raise e) Q.
Proof. intros s Hok Hs. simpl. auto. Qed.

Lemma safe_bind {A B} (P : S -> Prop) (m : M S A) (R : A -> S -> Prop)
    (k : A -> M S B) (Q : B -> S -> Prop) :
  safe ok le P m R -> (forall a, safe ok le (R a) (k a) Q) ->
  safe ok le P (bind m k) Q.
Proof.
  intros Hm Hk s Hok Hs. specialize (Hm s Hok Hs). unfold bind.
  destruct (m s) as [[[a|e]|] s1]; [|done|done].
  destruct Hm as (Hok1 & Hle1 & HR). specialize (Hk a s1 Hok1 HR).
  destruct (k a s1) as [[[b|e]|] s2]; [|by destruct Hk; eauto|done].
  destruct Hk as (? & ? & ?). eauto.
Qed.

(** Sequences may strengthen what they assume and forget what they show. *)
Lemma safe_weaken {A} (P P' : S -> Prop) (m : M S A) (Q Q' : A -> S -> Prop) :
  safe ok le P' m Q' ->
  (forall s, P s -> P' s) -> (forall a s, Q' a s -> Q a s) ->
  safe ok le P m Q.
Proof.
  intros Hm HP HQ s Hok Hs. specialize (Hm s Hok (HP s Hs)).
  destruct (m s) as [[[a|e]|] s1]; [|done|done].
  destruct Hm as (? & ? & ?). auto.
Qed.

(** A fact that survives growth survives the sequence. *)
Lemma safe_frame {A} (P F : S -> Prop) (m : M S A) (Q : A -> S -> Prop) :
  (forall s s', le s s' -> F s -> F s') ->
  safe ok le P m Q ->
  safe ok le (fun s => P s /\ F s) m (fun a s => Q a s /\ F s).
Proof.
  intros Hmono Hm s Hok [Hs HF]. specialize (Hm s Hok Hs).
  destruct (m s) as [[[a|e]|] s1]; [|done|done].
  destruct Hm as (? & ? & ?). eauto.
Qed.

Lemma safe_get (P : S -> Prop) : safe ok le P get (fun a s => a = s /\ P s).
Proof. intros s Hok Hs. simpl. auto. Qed.
End Safe.

(** *** The world *)

Lemma world_le_refl w : world_le w w.
Proof. split; lia. Qed.

Lemma world_le_trans w1 w2 w3 : world_le w1 w2 -> world_le w2 w3 -> world_le w1 w3.
Proof. intros [? ?] [? ?]. split; lia. Qed.

Lemma player_ref_mono l w w' : world_le w w' -> player_ref l w -> player_ref l w'.
Proof. unfold player_ref. intros [? _] ?. lia. Qed.

Lemma planet_ref_mono l w w' : world_le w w' -> planet_ref l w -> planet_ref l w'.
Proof. unfold planet_ref. intros [_ ?] ?. lia. Qed.

Lemma world_ok_trace t w : world_ok w -> world_ok (with_trace t w).
Proof. by intros [Hwf Hkeyed]. Qed.

Lemma world_ok_heap h w :
  length h = length (player_heap w) ->
  world_ok w -> world_ok (with_players (shelf_players w) h w).
Proof.
  intros Hlen [[Hpl Hpn] Hkeyed].
  split; [split; simpl; [by rewrite Hlen | done] | done].
Qed.

Lemma world_ok_new_player key p w :
  Py.dict_get (shelf_players w) key = None ->
  world_ok w ->
  world_ok (with_players (shelf_players w ++ [(key, length (player_heap w))])
              (player_heap w ++ [p]) w).
Proof.
  intros Hget [[Hpl Hpn] Hkeyed]. split; [split; simpl; [|done] | done].
  rewrite length_app. simpl. rewrite Nat.add_1_r. by apply wf_dict_append.
Qed.

Lemma world_ok_new_planet obj w :
  Py.dict_get (shelf_planets w) (Planet.__str__ obj) = None ->
  world_ok w ->
  world_ok (with_planets
              (shelf_planets w ++ [(Planet.__str__ obj, length (planet_heap w))])
              (planet_heap w ++ [obj]) w).
Proof.
  intros Hget [[Hpl Hpn] Hkeyed]. split; [split; simpl; [done|] |].
  - rewrite length_app. simpl. rewrite Nat.add_1_r. by apply wf_dict_append.
  - unfold planets_keyed in *. simpl. apply Forall_app. split.
    + eapply Forall_impl; [exact Hkeyed|]. intros [k l]. simpl.
      destruct (planet_heap w !! l) as [o|] eqn:Hl; [|done].
      by rewrite (lookup_app_l_Some _ _ _ _ Hl).
    + apply Forall_singleton. simpl. by rewrite list_lookup_middle.
Qed.

Lemma decode_ascii_cases u :
  (exists decoded, Py.decode_ascii u = Ok decoded)
  \/ Py.decode_ascii u = Raise UnicodeDecodeError.
Proof. unfold Py.decode_ascii. destruct (forallb _ u); eauto. Qed.

Lemma emit_safe e : wsafe (fun _ => True) (emit e) (fun _ _ => True).
Proof.
  intros w Hok _. simpl. split; [by apply world_ok_trace|].
  split; [exact (world_le_refl w) | done].
Qed.

Lemma player_read_safe l : wsafe (player_ref l) (player_read l) (fun _ _ => True).
Proof.
  intros w Hok Hl. unfold player_read.
  destruct (lookup_lt_is_Some_2 _ _ Hl) as [p ->].
  split; [done|]. split; [apply world_le_refl | done].
Qed.

Lemma player_assign_safe l f :
  wsafe (player_ref l) (player_assign l f) (fun _ _ => True).
Proof.
  intros w Hok Hl. unfold player_assign.
  destruct (lookup_lt_is_Some_2 _ _ Hl) as [p ->].
  split; [apply world_ok_heap; [apply length_insert | done]|].
  split; [|done]. split; simpl; [by rewrite length_insert | done].
Qed.

Lemma planet_read_safe l : wsafe (planet_ref l) (planet_read l) (fun _ _ => True).
Proof.
  intros w Hok Hl. unfold planet_read.
  destruct (lookup_lt_is_Some_2 _ _ Hl) as [p ->].
  split; [done|]. split; [apply world_le_refl | done].
Qed.

Lemma add_or_get_player_safe uuid kw :
  wsafe (fun _ => True) (add_or_get_player_kw uuid kw) (fun l w => player_ref l w).
Proof.
  intros w Hok _.
  destruct (decode_ascii_cases uuid) as [[decoded Hdec]|Hdec].
  - destruct (Py.dict_get (shelf_players w) (Py.str_bytes uuid)) as [l|] eqn:Hget.
    + pose proof (wf_dict_lookup _ _ _ _ (proj1 (proj1 Hok)) Hget) as Hlt.
      destruct (lookup_lt_is_Some_2 _ _ Hlt) as [p Hp].
      rewrite (add_or_get_player_existing w uuid kw l p decoded Hget Hp Hdec).
      assert (Hlen : length (if String.eqb decoded (owner_uuid w)
                             then <[l:=Player.set_roles owner_role_names p]> (player_heap w)
                             else player_heap w) = length (player_heap w)).
      { destruct (String.eqb _ _); [apply length_insert | reflexivity]. }
      split; [apply (world_ok_heap _ (with_trace _ w) Hlen), world_ok_trace, Hok|].
      unfold world_le, player_ref. simpl. rewrite Hlen. by split_and!.
    + rewrite (add_or_get_player_created w uuid kw decoded Hget Hdec).
      split; [by apply (world_ok_new_player _ _ (with_trace _ w)), world_ok_trace|].
      unfold world_le, player_ref. simpl. rewrite !length_app. simpl.
      split_and!; lia.
  - destruct (add_or_get_player_undecodable w uuid kw Hdec) as [line ->].
    split; [by apply world_ok_trace | exact (world_le_refl w)].
Qed.

Lemma add_or_get_planet_safe sector location planet satellite :
  wsafe (fun _ => True) (add_or_get_planet sector location planet satellite)
    (fun l w => planet_ref l w).
Proof.
  destruct location as [[a x] y]. intros w Hok _.
  destruct (Py.dict_get (shelf_planets w)
              (Planet.fmt_location sector a x y planet satellite))
    as [l|] eqn:Hget.
  - rewrite (add_or_get_planet_existing _ _ _ _ _ _ _ _ Hget).
    split; [by apply world_ok_trace|]. split; [exact (world_le_refl w)|].
    exact (wf_dict_lookup _ _ _ _ (proj2 (proj1 Hok)) Hget).
  - rewrite (add_or_get_planet_created _ _ _ _ _ _ _ Hget).
    split; [by apply (world_ok_new_planet (Planet.mk sector a x y planet satellite))|].
    unfold world_le, planet_ref. simpl. rewrite !length_app. simpl.
    split_and!; lia.
Qed.

Lemma scan_players_safe lname check values :
  wsafe (fun w => Forall (fun l => player_ref l w) values)
    (scan_players lname check values)
    (fun r w => forall l, r = Some l -> player_ref l w).
Proof.
  induction values as [|l values IH]; intros w Hok Hall; simpl.
  - split; [done|]. split; [apply world_le_refl | done].
  - apply Forall_cons in Hall as [Hl Hall]. unfold bind, player_read.
    destruct (lookup_lt_is_Some_2 _ _ Hl) as [p ->].
    destruct (String.eqb _ _); [|by apply IH].
    destruct (negb check || Player.logged_in p); [|by apply IH].
    split; [done|]. split; [apply world_le_refl|]. by intros ? [= <-].
Qed.

Lemma get_player_by_name_safe name check :
  wsafe (fun _ => True) (get_player_by_name name check)
    (fun r w => forall l, r = Some l -> player_ref l w).
Proof.
  intros w Hok _. unfold get_player_by_name, bind, get.
  apply scan_players_safe; [done|].
  destruct Hok as [[[_ Hall] _] _]. unfold Py.dict_values.
  apply Forall_fmap. eapply Forall_impl; [exact Hall | done].
Qed.

Lemma str_location_safe location :
  wsafe (fun w => forall l, location = AtPlanet l -> planet_ref l w)
    (str_location location) (fun _ _ => True).
Proof.
  intros w Hok Hloc. destruct location as [l|text]; simpl.
  - unfold bind. specialize (Hloc l eq_refl).
    pose proof (planet_read_safe l w Hok Hloc) as Hread.
    destruct (planet_read l w) as [[[obj|e]|] w1]; done.
  - split; [done|]. split; [apply world_le_refl | done].
Qed.

(** *** Sessions *)

Lemma session_le_refl s : session_le s s.
Proof. apply world_le_refl. Qed.

Lemma session_le_trans s1 s2 s3 :
  session_le s1 s2 -> session_le s2 s3 -> session_le s1 s3.
Proof. apply world_le_trans. Qed.

Lemma lift_safe {A} (m : M World A) (Pw : World -> Prop) (Qw : A -> World -> Prop) :
  wsafe Pw m Qw ->
  ssafe (fun s => Pw (world s)) (lift m) (fun a s => Qw a (world s)).
Proof.
  intros Hm s [Hok Hbound] HP. specialize (Hm (world s) Hok HP). unfold lift.
  destruct (m (world s)) as [[[a|e]|] w']; [| |done].
  - destruct Hm as (Hok' & Hle & HQ). split; [|by split].
    split; [done|]. simpl. intros l Hl. eapply player_ref_mono; eauto.
  - destruct Hm as (Hok' & Hle). split; [|done].
    split; [done|]. simpl. intros l Hl. eapply player_ref_mono; eauto.
Qed.

Lemma set_state_safe v : ssafe (fun _ => True) (set_state v) (fun _ _ => True).
Proof.
  intros s [Hok Hbound] _. simpl.
  split; [by split|]. split; [exact (session_le_refl s) | done].
Qed.

Lemma set_player_safe l :
  ssafe (fun s => player_ref l (world s)) (set_player l) (fun _ _ => True).
Proof.
  intros s [Hok Hbound] Hl. simpl.
  split; [split; [done|]; simpl; by intros ? [= <-]|].
  split; [exact (session_le_refl s) | done].
Qed.

Lemma bound_player_safe :
  ssafe (fun _ => True) bound_player (fun l s => player_ref l (world s)).
Proof.
  intros s Hok _. unfold bound_player.
  destruct (player (protocol s)) as [l|] eqn:Hl.
  - split; [done|]. split; [apply session_le_refl|]. by apply Hok.
  - split; [done | apply session_le_refl].
Qed.

Lemma self_ident_safe : ssafe (fun _ => True) self_ident (fun _ _ => True).
Proof.
  intros s Hok _. simpl. split; [done|]. split; [apply session_le_refl | done].
Qed.

Lemma assign_player_attr_safe f :
  ssafe (fun _ => True) (assign_player_attr f) (fun _ _ => True).
Proof.
  unfold assign_player_attr.
  eapply safe_bind; [exact session_le_trans | exact bound_player_safe |].
  intros l. exact (lift_safe _ _ _ (player_assign_safe l f)).
Qed.

Lemma safe_seq {A B} (m : M Session A) (k : M Session B) :
  handler_safe m -> handler_safe k -> handler_safe (bind m (fun _ => k)).
Proof.
  intros Hm Hk. eapply safe_bind; [exact session_le_trans | exact Hm |].
  intros a. exact Hk.
Qed.

Lemma ret_safe {A} (a : A) : handler_safe (ret a).
Proof. apply safe_ret; [exact session_le_refl | done]. Qed.

Lemma raise_safe {A} e : handler_safe (raise (A := A) e).
Proof. apply safe_raise. exact session_le_refl. Qed.

Lemma emit_session_safe e : handler_safe (lift (emit e)).
Proof. exact (lift_safe _ _ _ (emit_safe e)). Qed.

Lemma on_connect_response_safe data : handler_safe (on_connect_response data).
Proof.
  unfold on_connect_response. destruct data as [| success client_id | |];
    try apply raise_safe.
  apply safe_seq; [|apply ret_safe].
  destruct success.
  - repeat (apply safe_seq; [apply assign_player_attr_safe|]).
    eapply safe_bind; [exact session_le_trans | exact self_ident_safe |].
    intros self. apply safe_seq; [apply assign_player_attr_safe|].
    apply set_state_safe.
  - apply safe_seq; apply assign_player_attr_safe.
Qed.

Lemma on_client_connect_safe data : handler_safe (on_client_connect data).
Proof.
  unfold on_client_connect. destruct data as [[uuid|] kw | | |];
    try apply raise_safe.
  eapply safe_bind;
    [exact session_le_trans
    | exact (lift_safe _ _ _ (add_or_get_player_safe uuid kw)) |].
  intros l. apply (safe_bind _ _ session_le_trans _ _ (fun _ _ => True)).
  - apply set_player_safe.
  - intros u. apply ret_safe.
Qed.

Lemma on_disconnect_safe data :
  handler_safe (on_client_disconnect data)
  /\ handler_safe (on_server_disconnect data).
Proof.
  split; repeat (apply safe_seq; [apply assign_player_attr_safe|]);
    apply ret_safe.
Qed.

(** A sequence run while holding references: they stay good. *)
Lemma safe_holding {A} (F P : Session -> Prop) (m : M Session A)
    (Q : A -> Session -> Prop) :
  (forall s s', session_le s s' -> F s -> F s') ->
  (forall s, F s -> P s) ->
  ssafe P m Q ->
  ssafe F m (fun a s => Q a s /\ F s).
Proof.
  intros Hmono HP Hm.
  eapply safe_weaken; [exact (safe_frame _ _ P F m Q Hmono Hm) | |].
  - intros s HF. split; [by apply HP | done].
  - by intros a s HQ.
Qed.

Lemma holds_player_ref l s s' :
  session_le s s' -> player_ref l (world s) -> player_ref l (world s').
Proof. apply player_ref_mono. Qed.

Lemma holds_location location s s' :
  session_le s s' ->
  (forall l, location = AtPlanet l -> planet_ref l (world s)) ->
  (forall l, location = AtPlanet l -> planet_ref l (world s')).
Proof. intros Hle H l Hl. eapply planet_ref_mono; eauto. Qed.

Lemma on_world_start_safe data : handler_safe (on_world_start data).
Proof.
  unfold on_world_start. destruct data as [| | celestialParameters |];
    try apply raise_safe.
  apply (safe_bind _ _ session_le_trans _ _
           (fun location s => forall l, location = AtPlanet l -> planet_ref l (world s))).
  - destruct celestialParameters as [co|].
    + eapply safe_bind;
        [exact session_le_trans
        | exact (lift_safe _ _ _ (add_or_get_planet_safe _ _ _ _)) |].
      intros l. apply safe_ret; [exact session_le_refl|].
      by intros s Hl ? [= <-].
    + eapply safe_bind;
        [exact session_le_trans | apply assign_player_attr_safe |].
      intros u. apply safe_ret; [exact session_le_refl | by intros s _ l].
  - intros location.
    apply (safe_bind _ _ session_le_trans _ _
             (fun p s => player_ref p (world s)
                         /\ forall l, location = AtPlanet l -> planet_ref l (world s))).
    { eapply safe_holding; [apply holds_location | | exact bound_player_safe]; done. }
    intros p.
    apply (safe_bind _ _ session_le_trans _ _
             (fun _ s => forall l, location = AtPlanet l -> planet_ref l (world s))).
    { eapply safe_weaken;
        [exact (safe_frame _ _ _ _ _ _ (holds_location location)
                  (lift_safe _ _ _ (player_read_safe p)))
        | done | by intros ? ? [_ ?]]. }
    intros obj.
    apply (safe_bind _ _ session_le_trans _ _ (fun _ _ => True)).
    { exact (lift_safe _ _ _ (str_location_safe location)). }
    intros shown. apply safe_seq; [apply emit_session_safe | apply ret_safe].
Qed.

Lemma kick_safe data : ssafe (fun _ => True) (kick data) (fun _ _ => True).
Proof.
  unfold kick.
  eapply safe_bind;
    [exact session_le_trans
    | exact (lift_safe _ _ _ (get_player_by_name_safe _ _)) |].
  intros [p|].
  - eapply safe_weaken with (P' := fun s => player_ref p (world s))
                            (Q' := fun _ _ => True); [|by auto|done].
    apply (safe_bind _ _ session_le_trans _ _
             (fun _ s => player_ref p (world s))).
    { eapply safe_weaken;
        [exact (safe_holding _ _ _ _ (holds_player_ref p) (fun s H => H)
                  (lift_safe _ _ _ (player_read_safe p)))
        | done | by intros ? ? [_ ?]]. }
    intros target.
    apply (safe_bind _ _ session_le_trans _ _
             (fun _ s => player_ref p (world s))).
    { eapply safe_weaken with (P' := fun s => player_ref p (world s))
                              (Q' := fun _ s => True /\ player_ref p (world s));
        [|done|by intros ? ? [_ ?]].
      eapply safe_holding with (P := fun _ => True);
        [apply holds_player_ref | done |].
      destruct (Player.protocol target);
        [apply emit_session_safe | apply raise_safe]. }
    intros u.
    apply (safe_bind _ _ session_le_trans _ _
             (fun issuer s => player_ref issuer (world s) /\ player_ref p (world s))).
    { eapply safe_holding; [apply holds_player_ref | | exact bound_player_safe]; done. }
    intros issuer.
    apply (safe_bind _ _ session_le_trans _ _
             (fun _ s => player_ref p (world s))).
    { eapply safe_weaken;
        [exact (safe_frame _ _ _ _ _ _ (holds_player_ref p)
                  (lift_safe _ _ _ (player_read_safe issuer)))
        | done | by intros ? ? [_ ?]]. }
    intros issuer_obj.
    apply (safe_bind _ _ session_le_trans _ _ (fun _ _ => True)).
    { exact (lift_safe _ _ _ (player_read_safe p)). }
    intros target'. apply emit_session_safe.
  - eapply safe_weaken with (P' := fun _ => True) (Q' := fun _ _ => True);
      [|done|done].
    eapply safe_bind; [exact session_le_trans | exact self_ident_safe |].
    intros self. apply emit_session_safe.
Qed.

(** X1: Whatever the plugin is asked to do, on whatever payload, a well-formed
    session stays well-formed, keeps all its objects, and no reference is
    ever followed outside its heap. *)
Theorem sessions_stay_well_formed (name : string)
    (h : Parsed -> M Session bool) (data : Parsed) (words : list string)
    (s : Session) :
  (name, h) ∈ handlers ->
  session_ok s ->
  (fst (h data s) <> Dangling
   /\ session_ok (snd (h data s)) /\ session_le s (snd (h data s)))
  /\ (fst (kick words s) <> Dangling
      /\ session_ok (snd (kick words s)) /\ session_le s (snd (kick words s))).
Proof.
  intros Hin Hok.
  assert (Hrun : forall A (m : M Session A),
             ssafe (fun _ => True) m (fun _ _ => True) ->
             fst (m s) <> Dangling
             /\ session_ok (snd (m s)) /\ session_le s (snd (m s))).
  { intros A m Hm. specialize (Hm s Hok I).
    destruct (m s) as [[[a|e]|] s']; simpl; [| |done].
    - by destruct Hm as (? & ? & _).
    - by destruct Hm. }
  split; [|apply Hrun, kick_safe]. apply Hrun.
  unfold handlers in Hin.
  repeat (apply elem_of_cons in Hin as [[= _ ->]|Hin]);
    [..|by apply elem_of_nil in Hin].
  - apply safe_seq; [apply set_state_safe | apply ret_safe].
  - apply safe_seq; [apply set_state_safe | apply ret_safe].
  - apply safe_seq; [apply set_state_safe | apply ret_safe].
  - apply on_connect_response_safe.
  - apply on_client_connect_safe.
  - apply on_disconnect_safe.
  - apply on_disconnect_safe.
  - apply ret_safe.
  - apply on_world_start_safe.
  - apply safe_seq; [apply set_state_safe | apply ret_safe].
Qed.

Lemma fresh_session_ok c owner now :
  session_ok (mkSession (fresh_connection c) (fresh_world owner now)).
Proof.
  split; [split; [apply wf_fresh_world | constructor] | by intros l].
Qed.

Lemma sessions_stay_well_formed_witness :
  ("on_world_start", on_world_start) ∈ handlers
  /\ session_ok (mkSession (fresh_connection 7%nat) (fresh_world "ab0" 100))
  /\ fst (on_world_start (WorldStart (Some (mkCoordinate "alpha" (0, 1, 2) 3 4)))
            (mkSession (fresh_connection 7%nat) (fresh_world "ab0" 100)))
     <> Dangling
  /\ fst (kick ["bob"] (mkSession (fresh_connection 7%nat) (fresh_world "ab0" 100)))
     <> Dangling.
Proof.
  assert (Hin : ("on_world_start", on_world_start) ∈ handlers).
  { unfold handlers. do 8 apply list_elem_of_further. apply list_elem_of_here. }
  split; [exact Hin|]. split; [apply fresh_session_ok|].
  destruct (sessions_stay_well_formed "on_world_start" on_world_start
              (WorldStart (Some (mkCoordinate "alpha" (0, 1, 2) 3 4))) ["bob"]
              (mkSession (fresh_connection 7%nat) (fresh_world "ab0" 100))
              Hin (fresh_session_ok _ _ _))
    as [(Hrun & _) (Hkick & _)].
  split; [exact Hrun | exact Hkick].
Defined.

(** ** Opening the shelf *)

Lemma dict_get_set_ne {V} (d : Py.dict V) k k' v :
  k <> k' -> Py.dict_get (Py.dict_set d k v) k' = Py.dict_get d k'.
Proof.
  intros Hne. induction d as [|[k0 v0] d IH]; simpl.
  - by rewrite (proj2 (String.eqb_neq k k') Hne).
  - destruct (String.eqb_spec k0 k) as [->|Hk0]; simpl.
    + by rewrite (proj2 (String.eqb_neq k k') Hne).
    + destruct (String.eqb k0 k'); [done | exact IH].
Qed.

(** One step of [sync]: the namespace [k] is created when it is missing. *)
Lemma ensure_get {V} (d : Py.dict V) k e k' :
  Py.dict_get (if Py.dict_contains d k then d else Py.dict_set d k e) k' =
    match Py.dict_get d k' with
    | Some v => Some v
    | None => if String.eqb k k' then Some e else None
    end.
Proof.
  unfold Py.dict_contains.
  destruct (String.eqb_spec k k') as [<-|Hne].
  - destruct (Py.dict_get d k) as [v|] eqn:Hk; [done|]. apply dict_get_set_eq.
  - destruct (Py.dict_get d k) as [v|] eqn:Hk.
    + by destruct (Py.dict_get d k').
    + rewrite (dict_get_set_ne _ _ _ _ Hne). by destruct (Py.dict_get d k').
Qed.

Lemma sync_get {V} (empty : V) shelf k :
  Py.dict_get (sync empty shelf) k =
    match Py.dict_get shelf k with
    | Some v => Some v
    | None => if bool_decide (k ∈ namespaces) then Some empty else None
    end.
Proof.
  unfold sync. rewrite !ensure_get.
  destruct (Py.dict_get shelf k) as [v|]; [done|].
  unfold namespaces.
  destruct (String.eqb_spec "players" k) as [<-|H1]; [done|].
  destruct (String.eqb_spec "plugins" k) as [<-|H2]; [done|].
  destruct (String.eqb_spec "planets" k) as [<-|H3]; [done|].
  rewrite bool_decide_eq_false_2; [done|].
  rewrite !elem_of_cons, elem_of_nil. intros [?|[?|[?|[]]]]; congruence.
Qed.

(** X2: [sync] gives the shelf its three namespaces, each empty if it was
    missing; whatever the shelf held, under these names or any other, it
    still holds; and a second [sync] changes nothing. *)
Theorem sync_namespaces {V} (empty : V) (shelf : Py.dict V) :
  (forall k, k ∈ namespaces -> is_Some (Py.dict_get (sync empty shelf) k))
  /\ (forall k v, Py.dict_get shelf k = Some v ->
        Py.dict_get (sync empty shelf) k = Some v)
  /\ (forall k, k ∈ namespaces -> Py.dict_get shelf k = None ->
        Py.dict_get (sync empty shelf) k = Some empty)
  /\ (forall k, k ∉ namespaces ->
        Py.dict_get (sync empty shelf) k = Py.dict_get shelf k)
  /\ sync empty (sync empty shelf) = sync empty shelf.
Proof.
  split_and!.
  - intros k Hk. rewrite sync_get, (bool_decide_eq_true_2 _ Hk).
    by destruct (Py.dict_get shelf k).
  - intros k v Hk. by rewrite sync_get, Hk.
  - intros k Hk Hnone. by rewrite sync_get, Hnone, (bool_decide_eq_true_2 _ Hk).
  - intros k Hk. rewrite sync_get, (bool_decide_eq_false_2 _ Hk).
    by destruct (Py.dict_get shelf k).
  - assert (Hhas : forall k, k ∈ namespaces ->
               Py.dict_contains (sync empty shelf) k = true).
    { intros k Hk. unfold Py.dict_contains.
      rewrite sync_get, (bool_decide_eq_true_2 _ Hk).
      by destruct (Py.dict_get shelf k). }
    unfold sync at 1.
    rewrite !Hhas; [done|..]; unfold namespaces;
      rewrite !elem_of_cons; auto.
Qed.

(** ** Shutting down *)

Lemma logged_out_twice p : logged_out (logged_out p) = logged_out p.
Proof. reflexivity. Qed.

(** The loop logs out the players it is given and nobody else. *)
Lemma logout_all_run values :
  forall w,
    Forall (fun l => player_ref l w) values ->
    exists heap',
      logout_all values w = (Done (Ok tt), with_players (shelf_players w) heap' w)
      /\ length heap' = length (player_heap w)
      /\ forall l,
           heap' !! l =
             (fun p => if bool_decide (l ∈ values) then logged_out p else p)
               <$> player_heap w !! l.
Proof.
  induction values as [|l0 values IH]; intros w Hall.
  - exists (player_heap w). simpl. split; [by destruct w|]. split; [done|].
    intros l. by destruct (player_heap w !! l).
  - apply Forall_cons in Hall as [Hl0 Hall].
    destruct (lookup_lt_is_Some_2 _ _ Hl0) as [p0 Hp0].
    set (w1 := with_players (shelf_players w)
                 (<[l0 := logged_out p0]> (player_heap w)) w).
    assert (Hstep : logout_all (l0 :: values) w = logout_all values w1).
    { simpl. unfold bind, player_assign. rewrite Hp0. simpl.
      rewrite list_lookup_insert_eq by done.
      unfold w1, logged_out. by rewrite list_insert_insert_eq. }
    destruct (IH w1) as (heap' & Hrun & Hlen & Hheap).
    { eapply Forall_impl; [exact Hall|]. intros l. unfold player_ref, w1.
      simpl. by rewrite length_insert. }
    exists heap'. rewrite Hstep, Hrun. split; [reflexivity|].
    split; [by rewrite Hlen; unfold w1; simpl; rewrite length_insert|].
    intros l. rewrite Hheap. unfold w1. simpl.
    destruct (decide (l = l0)) as [->|Hne].
    + rewrite list_lookup_insert_eq by done. rewrite Hp0. simpl.
      rewrite (bool_decide_eq_true_2 (l0 ∈ l0 :: values)) by apply list_elem_of_here.
      by destruct (bool_decide (l0 ∈ values)).
    + rewrite list_lookup_insert_ne by done.
      destruct (player_heap w !! l) as [p|]; [|done]. simpl. f_equal.
      destruct (decide (l ∈ values)) as [Hin|Hnin].
      * rewrite !bool_decide_eq_true_2; [done | by apply list_elem_of_further | done].
      * rewrite !bool_decide_eq_false_2; [done | | done].
        rewrite elem_of_cons. by intros [?|?].
Qed.

(** One run of [deactivate] from a well-formed world, field by field. *)
Lemma deactivate_run (w : World) :
  wf_world w ->
  exists w',
    deactivate w = (Done (Ok tt), w')
    /\ shelf_players w' = shelf_players w
    /\ shelf_planets w' = shelf_planets w
    /\ planet_heap w' = planet_heap w
    /\ length (player_heap w') = length (player_heap w)
    /\ trace w' = trace w ++ [Log DEBUG "Closed the shelf" []]
    /\ (forall k l, Py.dict_get (shelf_players w) k = Some l ->
          exists p,
            player_heap w !! l = Some p
            /\ player_heap w' !! l = Some (logged_out p)
            /\ Player.logged_in (logged_out p) = false
            /\ Player.protocol (logged_out p) = None)
    /\ (forall l, l ∉ Py.dict_values (shelf_players w) ->
          player_heap w' !! l = player_heap w !! l).
Proof.
  intros [[Hnd Hall] _].
  assert (Hrefs : Forall (fun l => player_ref l w) (Py.dict_values (shelf_players w))).
  { unfold Py.dict_values. apply Forall_fmap.
    eapply Forall_impl; [exact Hall | done]. }
  destruct (logout_all_run _ w Hrefs) as (heap' & Hrun & Hlen & Hheap).
  eexists. unfold deactivate, bind, get. rewrite Hrun. simpl.
  split; [reflexivity|]. simpl. split_and!; try done.
  - intros k l Hget.
    assert (Hin : l ∈ Py.dict_values (shelf_players w)).
    { unfold Py.dict_values. apply list_elem_of_fmap.
      exists (k, l). split; [done | by apply dict_get_elem]. }
    rewrite Forall_forall in Hrefs.
    destruct (lookup_lt_is_Some_2 _ _ (Hrefs l Hin)) as [p Hp].
    exists p. split; [done|]. rewrite Hheap, Hp. simpl.
    by rewrite (bool_decide_eq_true_2 _ Hin).
  - intros l Hnin. rewrite Hheap.
    destruct (player_heap w !! l) as [p|]; [|done]. simpl.
    by rewrite (bool_decide_eq_false_2 _ Hnin).
Qed.

(** X3: [deactivate], from a well-formed world: it completes; every player of
    the shelf ends logged out and without a connection, every other field
    of the record as it was; the dictionaries, the planets and the records that
    are not on the shelf are untouched; and the log says the shelf is
    closed. *)
Theorem deactivate_logs_everyone_out (w : World) :
  wf_world w ->
  exists w',
    deactivate w = (Done (Ok tt), w')
    /\ shelf_players w' = shelf_players w
    /\ shelf_planets w' = shelf_planets w
    /\ planet_heap w' = planet_heap w
    /\ length (player_heap w') = length (player_heap w)
    /\ trace w' = trace w ++ [Log DEBUG "Closed the shelf" []]
    /\ (forall k l, Py.dict_get (shelf_players w) k = Some l ->
          exists p,
            player_heap w !! l = Some p
            /\ player_heap w' !! l = Some (logged_out p)
            /\ Player.logged_in (logged_out p) = false
            /\ Player.protocol (logged_out p) = None)
    /\ (forall l, l ∉ Py.dict_values (shelf_players w) ->
          player_heap w' !! l = player_heap w !! l).
Proof. exact (deactivate_run w). Qed.

Lemma deactivate_logs_everyone_out_witness :
  wf_world (world alice_online)
  /\ exists w',
       deactivate (world alice_online) = (Done (Ok tt), w')
       /\ Player.logged_in <$> player_heap w' !! 1%nat = Some false
       /\ Player.protocol <$> player_heap w' !! 1%nat = Some None
       /\ Player.name <$> player_heap w' !! 1%nat = Some "Alice".
Proof.
  assert (Hwf : wf_world (world alice_online)).
  { repeat split; vm_compute; repeat constructor;
      rewrite ?elem_of_cons, ?elem_of_nil; intuition discriminate. }
  split; [exact Hwf|].
  destruct (deactivate_logs_everyone_out (world alice_online) Hwf)
    as (w' & Hrun & _ & _ & _ & _ & _ & Hout & _).
  exists w'. split; [exact Hrun|].
  destruct (Hout (Py.str_bytes alice) 1%nat eq_refl) as (p & Hp & Hp' & _).
  rewrite Hp'. vm_compute in Hp. injection Hp as <-. by vm_compute.
Defined.

(** ** Granting a role *)

Lemma issubclass_Role c : issubclass c Role = true.
Proof. by destruct c. Qed.

Lemma add_role_run w l p c :
  player_heap w !! l = Some p ->
  add_role l (AClass c) w =
    (Done (Ok tt),
     with_players (shelf_players w)
       (<[l := Player.set_roles ({[ __name__ c ]} ∪ Player.roles p) p]> (player_heap w))
       w).
Proof. intros Hp. unfold add_role, player_assign. by rewrite Hp. Qed.

(** X4: [add_role] with a role class adds the name of the class to the
    player's roles and touches nothing else; granted twice a role is held
    once, and two roles may be granted in either order.  With a name
    instead of a class it raises [TypeError] and grants nothing. *)
Theorem add_role_grants (w : World) (l : ref) (p : Player.t) (c d : RoleClass)
    (name : string) :
  player_heap w !! l = Some p ->
  (exists w' p',
     add_role l (AClass c) w = (Done (Ok tt), w')
     /\ player_heap w' !! l = Some p'
     /\ (forall r, r ∈ Player.roles p' <-> r = __name__ c \/ r ∈ Player.roles p)
     /\ Player.set_roles (Player.roles p) p' = p
     /\ (forall l', l' <> l -> player_heap w' !! l' = player_heap w !! l')
     /\ shelf_players w' = shelf_players w
     /\ snd (add_role l (AClass c) w') = w'
     /\ snd (add_role l (AClass d) w')
        = snd (add_role l (AClass c) (snd (add_role l (AClass d) w))))
  /\ add_role l (AName name) w = (Done (Raise TypeError), w).
Proof.
  intros Hp. split; [|reflexivity].
  assert (Hlt : (l < length (player_heap w))%nat) by (by eapply lookup_lt_Some).
  assert (Hunion : forall x y : gset string, x ∪ (x ∪ y) = x ∪ y).
  { intros x y. by rewrite (assoc_L (∪)), union_idemp_L. }
  assert (Hswap : forall x y z : gset string, x ∪ (y ∪ z) = y ∪ (x ∪ z)).
  { intros x y z. by rewrite !(assoc_L (∪)), (comm_L (∪) x y). }
  eexists _, _. rewrite (add_role_run w l p c Hp).
  split; [reflexivity|].
  split; [by apply list_lookup_insert_eq|].
  split; [intros r; simpl; by rewrite elem_of_union, elem_of_singleton|].
  split; [by destruct p|].
  split; [by intros l' Hne; apply list_lookup_insert_ne|].
  split; [reflexivity|].
  split.
  - erewrite add_role_run by (by apply list_lookup_insert_eq). simpl.
    rewrite list_insert_insert_eq. unfold Player.set_roles. simpl.
    by rewrite Hunion.
  - rewrite (add_role_run w l p d Hp). cbn [snd].
    erewrite !add_role_run by (by apply list_lookup_insert_eq). simpl.
    rewrite !list_insert_insert_eq. unfold Player.set_roles. simpl.
    by rewrite Hswap.
Qed.

Lemma add_role_grants_witness :
  player_heap (world bob_online) !! 0%nat
    = Some (Player.mk bob "Bob" 100 ∅ true (Some 7%nat) 1 "0.0.0.0" "" true false)
  /\ exists w' p',
       add_role 0%nat (AClass Kick) (world bob_online) = (Done (Ok tt), w')
       /\ player_heap w' !! 0%nat = Some p'
       /\ "Kick" ∈ Player.roles p'.
Proof.
  split; [reflexivity|].
  destruct (add_role_grants (world bob_online) 0%nat _ Kick Ban "Kick" eq_refl)
    as [(w' & p' & Hrun & Hp' & Hroles & _) _].
  exists w', p'. split; [exact Hrun|]. split; [exact Hp'|].
  apply Hroles. by left.
Defined.

(** ** Finding a player by name *)

Lemma scan_players_finds lname check values w :
  Forall (fun l => player_ref l w) values ->
  exists r,
    scan_players lname check values w = (Done (Ok r), w)
    /\ first_match (player_heap w) lname check values r.
Proof.
  induction values as [|l values IH]; intros Hall.
  - exists None. split; [reflexivity | constructor].
  - apply Forall_cons in Hall as [Hl Hall].
    destruct (lookup_lt_is_Some_2 _ _ Hl) as [p Hp].
    destruct (name_matches lname check p) eqn:Hmatch.
    + exists (Some l). split.
      * simpl. unfold bind, player_read. rewrite Hp.
        unfold name_matches in Hmatch. apply andb_true_iff in Hmatch as [-> ->].
        reflexivity.
      * exists [], values, p. by split_and!.
    + destruct (IH Hall) as (r & Hrun & Hr). exists r. split.
      * simpl. unfold bind, player_read. rewrite Hp.
        unfold name_matches in Hmatch.
        destruct (String.eqb _ _); [|exact Hrun].
        simpl in Hmatch. by rewrite Hmatch.
      * assert (Hpass : passed_over (player_heap w) lname check l) by (by exists p).
        destruct r as [l'|]; simpl in *.
        -- destruct Hr as (before & after & p' & -> & Hp' & Hm & Hbefore).
           exists (l :: before), after, p'. split_and!; try done.
           by constructor.
        -- by constructor.
Qed.

(** One search from a well-formed world: the answer, and what is known of
    the player it names. *)
Lemma get_player_by_name_spec (name : string) (check_logged_in : bool)
    (w : World) :
  wf_world w ->
  exists r,
    get_player_by_name name check_logged_in w = (Done (Ok r), w)
    /\ first_match (player_heap w) (Py.lower name) check_logged_in
         (Py.dict_values (shelf_players w)) r
    /\ (forall l p, r = Some l -> player_heap w !! l = Some p ->
          Py.lower (Player.name p) = Py.lower name
          /\ (check_logged_in = true -> Player.logged_in p = true)
          /\ exists k, Py.dict_get (shelf_players w) k = Some l).
Proof.
  intros [[Hnd Hall] _].
  assert (Hrefs : Forall (fun l => player_ref l w) (Py.dict_values (shelf_players w))).
  { unfold Py.dict_values. apply Forall_fmap.
    eapply Forall_impl; [exact Hall | done]. }
  destruct (scan_players_finds (Py.lower name) check_logged_in _ w Hrefs)
    as (r & Hrun & Hr).
  exists r. split; [exact Hrun|]. split; [exact Hr|].
  intros l p -> Hp. destruct Hr as (before & after & p' & Hvals & Hp' & Hm & _).
  rewrite Hp in Hp'. injection Hp' as <-.
  unfold name_matches in Hm. apply andb_true_iff in Hm as [Hname Hlog].
  split; [by apply String.eqb_eq|]. split.
  - intros ->. exact Hlog.
  - assert (Hin : l ∈ Py.dict_values (shelf_players w)).
    { rewrite Hvals. apply elem_of_app. right. apply list_elem_of_here. }
    unfold Py.dict_values in Hin. apply list_elem_of_fmap in Hin as ([k l'] & -> & Hin).
    exists k. simpl. clear -Hnd Hin.
    induction (shelf_players w) as [|[k0 v0] d IH]; [by apply elem_of_nil in Hin|].
    simpl in *. apply NoDup_cons in Hnd as [Hk0 Hnd].
    apply elem_of_cons in Hin as [[= -> ->]|Hin].
    + by rewrite String.eqb_refl.
    + destruct (String.eqb_spec k0 k) as [->|_]; [|by apply IH].
      exfalso. apply Hk0. unfold Py.dict_keys.
      apply list_elem_of_fmap. by exists (k, l').
Qed.

(** X5: [get_player_by_name], from a well-formed world, for ASCII names
    (the one asked for and those on the shelf, so that [Py.lower] is
    [str.lower]): it changes nothing and answers with the first player, in
    the order in which the players were first stored, whose name is the
    one asked for up to the case of its letters and who, when
    [check_logged_in] is set, is logged in; it answers [None] exactly when
    the shelf has no such player. *)
Theorem get_player_by_name_finds (name : string) (check_logged_in : bool)
    (w : World) :
  wf_world w ->
  Py.isascii name = true ->
  ascii_names w = true ->
  exists r,
    get_player_by_name name check_logged_in w = (Done (Ok r), w)
    /\ first_match (player_heap w) (Py.lower name) check_logged_in
         (Py.dict_values (shelf_players w)) r
    /\ (forall l p, r = Some l -> player_heap w !! l = Some p ->
          Py.lower (Player.name p) = Py.lower name
          /\ (check_logged_in = true -> Player.logged_in p = true)
          /\ exists k, Py.dict_get (shelf_players w) k = Some l).
Proof.
  intros Hwf _ _. exact (get_player_by_name_spec name check_logged_in w Hwf).
Qed.

Lemma get_player_by_name_finds_witness :
  wf_world (world alice_online)
  /\ Py.isascii "ALICE" = true
  /\ Py.isascii "bob" = true
  /\ ascii_names (world alice_online) = true
  /\ get_player_by_name "ALICE" true (world alice_online)
     = (Done (Ok (Some 1%nat)), world alice_online)
  /\ get_player_by_name "bob" true (world alice_online)
     = (Done (Ok None), world alice_online).
Proof.
  assert (Hwf : wf_world (world alice_online)).
  { repeat split; vm_compute; repeat constructor;
      rewrite ?elem_of_cons, ?elem_of_nil; intuition discriminate. }
  assert (Hnames : ascii_names (world alice_online) = true) by (by vm_compute).
  split; [exact Hwf|]. split; [reflexivity|]. split; [reflexivity|].
  split; [exact Hnames|].
  destruct (get_player_by_name_finds "ALICE" true _ Hwf eq_refl Hnames)
    as (r1 & Hrun1 & _).
  destruct (get_player_by_name_finds "bob" true _ Hwf eq_refl Hnames)
    as (r2 & Hrun2 & _).
  split.
  - rewrite Hrun1. f_equal. apply (f_equal fst) in Hrun1. by vm_compute in Hrun1.
  - rewrite Hrun2. f_equal. apply (f_equal fst) in Hrun2. by vm_compute in Hrun2.
Defined.

(** ** What the plugin leaves behind *)

Section Keeps.
Context {S : Type} (R : S -> S -> Prop).
Hypothesis R_refl : forall s, R s s.
Hypothesis R_trans : forall s1 s2 s3, R s1 s2 -> R s2 s3 -> R s1 s3.

Lemma keeps_ret {A} (a : A) : keeps R (ret a).
Proof. intros s. apply R_refl. Qed.

Lemma keeps_raise {A} e : keeps R (raise (A := A) e).
Proof. intros s. apply R_refl. Qed.

Lemma keeps_get : keeps R get.
Proof. intros s. apply R_refl. Qed.

Lemma keeps_bind {A B} (m : M S A) (k : A -> M S B) :
  keeps R m -> (forall a, keeps R (k a)) -> keeps R (bind m k).
Proof.
  intros Hm Hk s. specialize (Hm s). unfold bind.
  destruct (m s) as [[[a|e]|] s1]; simpl in *; [|done|done].
  eapply R_trans; [exact Hm | apply Hk].
Qed.
End Keeps.

Lemma with_trace_nil w : with_trace (trace w ++ []) w = w.
Proof. destruct w. unfold with_trace. simpl. by rewrite app_nil_r. Qed.

Lemma said_nil w : said [] w w.
Proof. unfold said. by rewrite with_trace_nil. Qed.

Lemma said_app more1 more2 w1 w2 w3 :
  said more1 w1 w2 -> said more2 w2 w3 -> said (more1 ++ more2) w1 w3.
Proof.
  unfold said. intros -> ->. unfold with_trace. simpl. by rewrite app_assoc.
Qed.

Lemma trace_only_refl w : trace_only w w.
Proof. exists []. apply said_nil. Qed.

Lemma trace_only_trans w1 w2 w3 :
  trace_only w1 w2 -> trace_only w2 w3 -> trace_only w1 w3.
Proof. intros [m1 H1] [m2 H2]. exists (m1 ++ m2). by eapply said_app. Qed.

Lemma says_only_refl s : says_only s s.
Proof. split; [done | apply trace_only_refl]. Qed.

Lemma says_only_trans s1 s2 s3 :
  says_only s1 s2 -> says_only s2 s3 -> says_only s1 s3.
Proof.
  intros [Hp1 Hw1] [Hp2 Hw2]. split; [congruence | by eapply trace_only_trans].
Qed.

Lemma lift_says_only {A} (m : M World A) :
  keeps trace_only m -> keeps says_only (lift m).
Proof.
  intros Hm s. specialize (Hm (world s)). unfold lift.
  destruct (m (world s)) as [r w']. by split.
Qed.

Lemma emit_says e : keeps trace_only (emit e).
Proof. intros w. by exists [e]. Qed.

Lemma player_read_says l : keeps trace_only (player_read l).
Proof.
  intros w. unfold player_read.
  destruct (player_heap w !! l); apply trace_only_refl.
Qed.

Lemma get_player_by_name_says name check : keeps trace_only (get_player_by_name name check).
Proof. intros w. rewrite get_player_by_name_world. apply trace_only_refl. Qed.

Lemma bound_player_says : keeps says_only bound_player.
Proof.
  intros s. unfold bound_player.
  destruct (player (protocol s)); apply says_only_refl.
Qed.

Lemma kick_says_only data : keeps says_only (kick data).
Proof.
  unfold kick.
  apply (keeps_bind _ says_only_trans);
    [apply lift_says_only, get_player_by_name_says|].
  intros [p|].
  - apply (keeps_bind _ says_only_trans);
      [apply lift_says_only, player_read_says|].
    intros target. apply (keeps_bind _ says_only_trans).
    { destruct (Player.protocol target);
        [apply lift_says_only, emit_says | apply keeps_raise, says_only_refl]. }
    intros _. apply (keeps_bind _ says_only_trans); [exact bound_player_says|].
    intros issuer. apply (keeps_bind _ says_only_trans);
      [apply lift_says_only, player_read_says|].
    intros issuer_obj. apply (keeps_bind _ says_only_trans);
      [apply lift_says_only, player_read_says|].
    intros target'. apply lift_says_only, emit_says.
  - apply (keeps_bind _ says_only_trans); [intros s; apply says_only_refl|].
    intros self. apply lift_says_only, emit_says.
Qed.

(** X6: [kick] changes no dictionary, no record and no connection, whatever
    its words and however it ends: all it leaves is what it has said. *)
Theorem kick_changes_only_trace (data : list string) (s : Session) :
  protocol (snd (kick data s)) = protocol s
  /\ exists more,
       world (snd (kick data s)) = with_trace (trace (world s) ++ more) (world s).
Proof. exact (kick_says_only data s). Qed.

(** The search does not stop at a player it passes over. *)
Lemma scan_players_skip lname check before rest w :
  Forall (passed_over (player_heap w) lname check) before ->
  scan_players lname check (before ++ rest) w = scan_players lname check rest w.
Proof.
  induction before as [|l before IH]; intros Hall; [done|].
  apply Forall_cons in Hall as [(p & Hp & Hm) Hall]. simpl.
  unfold bind, player_read. rewrite Hp.
  unfold name_matches in Hm.
  destruct (String.eqb _ _); simpl in Hm; [rewrite Hm|]; by apply IH.
Qed.

(** X7: [kick] with a name no player of the shelf has, whatever the case of
    its letters, the names being ASCII (the words typed and the names on
    the shelf, so that [Py.lower] is [str.lower]): the issuer gets the one
    private message, naming the words as typed and joined by spaces, and
    nothing else happens. *)
Theorem kick_unknown_name (data : list string) (s : Session) :
  wf_world (world s) ->
  Py.isascii (Py.join " " data) = true ->
  ascii_names (world s) = true ->
  (forall k l p,
     Py.dict_get (shelf_players (world s)) k = Some l ->
     player_heap (world s) !! l = Some p ->
     Py.lower (Player.name p) <> Py.lower (Py.join " " data)) ->
  kick data s =
    (Done (Ok tt),
     mkSession (protocol s)
       (with_trace
          (trace (world s) ++
             [SendMessage (ident (protocol s))
                ("Couldn't find a player with name " +:+ Py.join " " data)])
          (world s))).
Proof.
  intros Hwf _ _ Hnone. apply kick_not_found.
  destruct (get_player_by_name_spec (Py.join " " data) false (world s) Hwf)
    as (r & Hrun & Hfirst & Hsound).
  rewrite Hrun. simpl. destruct r as [l|]; [exfalso|done].
  destruct Hfirst as (before & after & p & _ & Hp & _).
  destruct (Hsound l p eq_refl Hp) as (Hname & _ & k & Hk).
  exact (Hnone k l p Hk Hp Hname).
Qed.

Lemma kick_unknown_name_witness :
  wf_world (world alice_online)
  /\ Py.isascii (Py.join " " ["Carol"]) = true
  /\ ascii_names (world alice_online) = true
  /\ kick ["Carol"] alice_online =
       (Done (Ok tt),
        mkSession (protocol alice_online)
          (with_trace
             (trace (world alice_online) ++
                [SendMessage 8%nat "Couldn't find a player with name Carol"])
             (world alice_online))).
Proof.
  assert (Hwf : wf_world (world alice_online)).
  { repeat split; vm_compute; repeat constructor;
      rewrite ?elem_of_cons, ?elem_of_nil; intuition discriminate. }
  assert (Hnames : ascii_names (world alice_online) = true) by (by vm_compute).
  split; [exact Hwf|]. split; [reflexivity|]. split; [exact Hnames|].
  apply (kick_unknown_name ["Carol"] alice_online Hwf eq_refl Hnames).
  intros k l p Hk Hp.
  destruct l as [|[|l]]; vm_compute in Hp; [| |discriminate Hp];
    injection Hp as <-; vm_compute; discriminate.
Defined.

(** X8: [kick] with the name of a player who has a connection, the names
    being ASCII (the words typed and the names on the shelf, so that
    [Py.lower] is [str.lower]): the first such player in the order of the
    shelf, names compared without regard to case, loses their connection;
    then everybody is told, with the names as stored, who kicked whom.
    When the issuer's connection has no player the target's connection is
    ended all the same and the command raises [AttributeError] before
    anybody is told. *)
Theorem kick_first_connected (data : list string) (s : Session)
    (before after : list ref) (l : ref) (target : Player.t) (c : conn_id) :
  Py.isascii (Py.join " " data) = true ->
  ascii_names (world s) = true ->
  Py.dict_values (shelf_players (world s)) = before ++ l :: after ->
  Forall (passed_over (player_heap (world s)) (Py.lower (Py.join " " data)) false)
    before ->
  player_heap (world s) !! l = Some target ->
  Py.lower (Player.name target) = Py.lower (Py.join " " data) ->
  Player.protocol target = Some c ->
  (forall issuer issuer_obj,
     player (protocol s) = Some issuer ->
     player_heap (world s) !! issuer = Some issuer_obj ->
     kick data s =
       (Done (Ok tt),
        mkSession (protocol s)
          (with_trace
             (trace (world s) ++
                [Die c;
                 Broadcast (Player.name issuer_obj +:+ " has kicked "
                              +:+ Player.name target +:+ ".")])
             (world s))))
  /\ (player (protocol s) = None ->
      kick data s =
        (Done (Raise AttributeError),
         mkSession (protocol s)
           (with_trace (trace (world s) ++ [Die c]) (world s)))).
Proof.
  intros _ _ Hvals Hbefore Htarget Hname Hconn.
  assert (Hfind : fst (get_player_by_name (Py.join " " data) false (world s))
                  = Done (Ok (Some l))).
  { unfold get_player_by_name, bind, get. rewrite Hvals.
    rewrite (scan_players_skip _ _ _ _ _ Hbefore). simpl.
    unfold bind, player_read. rewrite Htarget.
    by rewrite (proj2 (String.eqb_eq _ _) Hname). }
  split.
  - intros issuer issuer_obj Hissuer Hobj. by eapply kick_found.
  - intros Hunbound. unfold kick, bind, lift.
    rewrite (get_player_by_name_run _ _ _ _ Hfind).
    unfold player_read, bound_player, emit, modify. simpl.
    rewrite Htarget, Hconn. simpl. by rewrite Hunbound.
Qed.

Lemma kick_first_connected_witness :
  Py.isascii (Py.join " " ["BOB"]) = true
  /\ ascii_names (world alice_joins) = true
  /\ Py.dict_values (shelf_players (world alice_joins)) = [] ++ 0%nat :: [1%nat]
  /\ kick ["BOB"] alice_joins =
       (Done (Ok tt),
        mkSession (protocol alice_joins)
          (with_trace
             (trace (world alice_joins) ++
                [Die 7%nat; Broadcast "Alice has kicked Bob."])
             (world alice_joins))).
Proof.
  assert (Hvals : Py.dict_values (shelf_players (world alice_joins))
                  = [] ++ 0%nat :: [1%nat]) by (by vm_compute).
  assert (Hnames : ascii_names (world alice_joins) = true) by (by vm_compute).
  split; [reflexivity|]. split; [exact Hnames|]. split; [exact Hvals|].
  assert (Hbob : player_heap (world alice_joins) !! 0%nat
                 = Some (Player.mk bob "Bob" 100 ∅ true (Some 7%nat) 1
                           "0.0.0.0" "" true false)) by (by vm_compute).
  assert (Halice : player_heap (world alice_joins) !! 1%nat
                   = Some (Player.mk alice "Alice" 100 ∅ true (Some 8%nat) 2
                             "0.0.0.0" "" true false)) by (by vm_compute).
  assert (Hissuer : player (protocol alice_joins) = Some 1%nat) by (by vm_compute).
  destruct (kick_first_connected ["BOB"] alice_joins [] [1%nat] 0%nat _ 7%nat
              eq_refl Hnames Hvals (Forall_nil_2 _) Hbob eq_refl eq_refl)
    as [Hkick _].
  exact (Hkick 1%nat _ Hissuer Halice).
Defined.

(** ** Nothing is lost *)

Lemma same_identity_refl p : same_identity p p.
Proof. by repeat split. Qed.

Lemma same_identity_trans p1 p2 p3 :
  same_identity p1 p2 -> same_identity p2 p3 -> same_identity p1 p3.
Proof.
  intros (? & ? & ? & ? & ? & ?) (? & ? & ? & ? & ? & ?).
  repeat split; congruence.
Qed.

Lemma world_ext_length w w' :
  world_ext w w' -> (length (player_heap w) <= length (player_heap w'))%nat.
Proof.
  intros (_ & _ & _ & Hkeep & _).
  destruct (length (player_heap w)) as [|n] eqn:Hn; [lia|].
  destruct (lookup_lt_is_Some_2 (player_heap w) n) as [p Hp]; [lia|].
  destruct (Hkeep n p Hp) as (p' & Hp' & _).
  apply lookup_lt_Some in Hp'. lia.
Qed.

Lemma world_ext_refl w : world_ext w w.
Proof.
  split; [exists []; split; [by rewrite app_nil_r | split; constructor]|].
  split; [exists []; by rewrite app_nil_r|].
  split; [exists []; by rewrite app_nil_r|].
  split; [intros l p Hp; exists p; split; [done | apply same_identity_refl]|].
  split; [done|]. split; [done|]. exists []. by rewrite app_nil_r.
Qed.

Lemma world_ext_trans w1 w2 w3 :
  world_ext w1 w2 -> world_ext w2 w3 -> world_ext w1 w3.
Proof.
  intros H12 H23. pose proof (world_ext_length _ _ H12) as Hlen.
  destruct H12 as ((m1 & Hs1 & Hn1 & Hd1) & (pm1 & Hp1) & (ph1 & Hh1) & Hk1 & Ho1 & Hc1 & (t1 & Ht1)).
  destruct H23 as ((m2 & Hs2 & Hn2 & Hd2) & (pm2 & Hp2) & (ph2 & Hh2) & Hk2 & Ho2 & Hc2 & (t2 & Ht2)).
  split_and!.
  - exists (m1 ++ m2). split; [by rewrite Hs2, Hs1, app_assoc|].
    split; [|unfold Py.dict_values; rewrite fmap_app; apply NoDup_app;
             split; [exact Hd1|]; split; [|exact Hd2];
             intros l Hin1 Hin2;
             apply list_elem_of_fmap in Hin1 as ([k1 l1] & -> & Hin1);
             apply list_elem_of_fmap in Hin2 as ([k2 l2] & Heq & Hin2);
             simpl in Heq; subst l2;
             rewrite Forall_forall in Hn1; rewrite Forall_forall in Hn2;
             destruct (Hn1 _ Hin1) as [_ Hkey1]; destruct (Hn2 _ Hin2) as [Hfresh2 _];
             simpl in *;
             destruct (player_heap w2 !! l1) as [p|] eqn:Hl1; [|done];
             apply lookup_lt_Some in Hl1; lia].
    apply Forall_app. split.
    + eapply Forall_impl; [exact Hn1|]. intros [k l] [Hfresh Hkey].
      split; [done|]. simpl in *.
      destruct (player_heap w2 !! l) as [p2|] eqn:Hl; [|done].
      destruct (Hk2 l p2 Hl) as (p3 & Hl3 & Hid & _).
      rewrite Hl3. simpl in *. by rewrite Hid.
    + eapply Forall_impl; [exact Hn2|]. intros [k l] [Hfresh Hkey]. simpl in *.
      split; simpl; [lia | done].
  - exists (pm1 ++ pm2). by rewrite Hp2, Hp1, app_assoc.
  - exists (ph1 ++ ph2). by rewrite Hh2, Hh1, app_assoc.
  - intros l p Hp. destruct (Hk1 l p Hp) as (p2 & Hl2 & Hid2).
    destruct (Hk2 l p2 Hl2) as (p3 & Hl3 & Hid3).
    exists p3. split; [done | by eapply same_identity_trans].
  - congruence.
  - congruence.
  - exists (t1 ++ t2). by rewrite Ht2, Ht1, app_assoc.
Qed.

(** The two ways in which the plugin changes a world: it rewrites fields
    of players other than those of their identity, and it appends a new
    player under the key of their uuid; both may come with more trace. *)
Lemma world_ext_update w h' more :
  (forall l p, player_heap w !! l = Some p ->
     exists p', h' !! l = Some p' /\ same_identity p p') ->
  world_ext w
    (mkWorld (shelf_players w) (shelf_planets w) h' (planet_heap w)
       (owner_uuid w) (clock w) (trace w ++ more)).
Proof.
  intros Hkeep.
  split; [exists []; split; [by rewrite app_nil_r | split; constructor]|].
  split; [exists []; by rewrite app_nil_r|].
  split; [exists []; by rewrite app_nil_r|].
  split; [exact Hkeep|].
  split; [done|]. split; [done|]. by exists more.
Qed.

Lemma world_ext_insert w l p q more :
  player_heap w !! l = Some p -> same_identity p q ->
  world_ext w
    (mkWorld (shelf_players w) (shelf_planets w) (<[l := q]> (player_heap w))
       (planet_heap w) (owner_uuid w) (clock w) (trace w ++ more)).
Proof.
  intros Hp Hid. apply world_ext_update. intros l' p' Hp'.
  destruct (decide (l' = l)) as [->|Hne].
  - exists q. rewrite list_lookup_insert_eq by (by eapply lookup_lt_Some).
    split; [done|]. congruence.
  - exists p'. rewrite list_lookup_insert_ne by done.
    split; [done | apply same_identity_refl].
Qed.

Lemma world_ext_said w more : world_ext w (with_trace (trace w ++ more) w).
Proof.
  apply (world_ext_update w (player_heap w) more).
  intros l p Hp. exists p. split; [done | apply same_identity_refl].
Qed.

Lemma world_ext_new_player w p more :
  world_ext w
    (mkWorld (shelf_players w ++ [(Py.str_bytes (Player.uuid p), length (player_heap w))])
       (shelf_planets w) (player_heap w ++ [p]) (planet_heap w)
       (owner_uuid w) (clock w) (trace w ++ more)).
Proof.
  split.
  { eexists. split; [reflexivity|]. split; [|apply NoDup_singleton].
    apply Forall_singleton.
    split; simpl; [done|]. by rewrite list_lookup_middle. }
  split; [exists []; by rewrite app_nil_r|].
  split; [exists []; by rewrite app_nil_r|].
  split.
  { intros l q Hq. exists q. split; [|apply same_identity_refl].
    by apply lookup_app_l_Some. }
  split; [done|]. split; [done|]. by exists more.
Qed.

Lemma world_ext_new_planet w key obj :
  world_ext w
    (with_planets (shelf_planets w ++ [(key, length (planet_heap w))])
       (planet_heap w ++ [obj]) w).
Proof.
  split; [exists []; split; [by rewrite app_nil_r | split; constructor]|].
  split; [by eexists|]. split; [by eexists|].
  split; [intros l q Hq; exists q; split; [done | apply same_identity_refl]|].
  split; [done|]. split; [done|]. exists []. by rewrite app_nil_r.
Qed.

Lemma emit_keeps e : wkeeps (emit e).
Proof. intros w. apply (world_ext_said w [e]). Qed.

Lemma decode_keeps u : wkeeps (decode u).
Proof. intros w. apply world_ext_refl. Qed.

Lemma player_read_keeps l : wkeeps (player_read l).
Proof.
  intros w. unfold player_read.
  destruct (player_heap w !! l); apply world_ext_refl.
Qed.

Lemma planet_read_keeps l : wkeeps (planet_read l).
Proof.
  intros w. unfold planet_read.
  destruct (planet_heap w !! l); apply world_ext_refl.
Qed.

Lemma player_assign_keeps l f :
  (forall p, same_identity p (f p)) -> wkeeps (player_assign l f).
Proof.
  intros Hf w. unfold player_assign.
  destruct (player_heap w !! l) as [p|] eqn:Hp; [|apply world_ext_refl].
  simpl. pose proof (world_ext_insert w l p (f p) [] Hp (Hf p)) as Hext.
  by rewrite app_nil_r in Hext.
Qed.

Lemma add_or_get_player_keeps uuid kw : wkeeps (add_or_get_player_kw uuid kw).
Proof.
  intros w.
  destruct (decode_ascii_cases uuid) as [[decoded Hdec]|Hdec].
  - destruct (Py.dict_get (shelf_players w) (Py.str_bytes uuid)) as [l|] eqn:Hget.
    + destruct (player_heap w !! l) as [p|] eqn:Hp.
      * rewrite (add_or_get_player_existing w uuid kw l p decoded Hget Hp Hdec).
        simpl. destruct (String.eqb decoded (owner_uuid w)).
        -- refine (world_ext_insert w l p (Player.set_roles owner_role_names p)
                     [Log INFO "Returning existing player." []] Hp _).
           by repeat split.
        -- exact (world_ext_said w [Log INFO "Returning existing player." []]).
      * unfold add_or_get_player_kw, add_or_get_player, bind, get, decode,
          emit, modify. simpl. rewrite Hget. simpl. rewrite Hdec.
        destruct (String.eqb decoded (owner_uuid w)); simpl.
        -- unfold player_assign. simpl. rewrite Hp.
           exact (world_ext_said w [Log INFO "Returning existing player." []]).
        -- exact (world_ext_said w [Log INFO "Returning existing player." []]).
    + rewrite (add_or_get_player_created w uuid kw decoded Hget Hdec).
      exact (world_ext_new_player w
               (Player.__init__ (clock w) uuid (kw_name kw) (kw_last_seen kw)
                  (if String.eqb decoded (owner_uuid w)
                   then Some owner_role_names else kw_roles kw)
                  (kw_logged_in kw) (kw_protocol kw) (kw_client_id kw)
                  (kw_ip kw) (kw_planet kw) (kw_on_ship kw) (kw_muted kw))
               [Log INFO "Creating new player with UUID %s and name %s"
                    [Py.str_bytes uuid; kw_name kw];
                Log DEBUG "Matches owner UUID: "
                    [py_bool (String.eqb decoded (owner_uuid w))]]).
  - destruct (add_or_get_player_undecodable w uuid kw Hdec) as [line ->].
    exact (world_ext_said w [line]).
Qed.

Lemma add_or_get_planet_keeps sector location planet satellite :
  wkeeps (add_or_get_planet sector location planet satellite).
Proof.
  destruct location as [[a x] y]. intros w.
  destruct (Py.dict_get (shelf_planets w)
              (Planet.fmt_location sector a x y planet satellite))
    as [l|] eqn:Hget.
  - rewrite (add_or_get_planet_existing _ _ _ _ _ _ _ _ Hget).
    exact (world_ext_said w [Print "Returning already existing planet."]).
  - rewrite (add_or_get_planet_created _ _ _ _ _ _ _ Hget).
    apply world_ext_new_planet.
Qed.

Lemma get_player_by_name_keeps name check : wkeeps (get_player_by_name name check).
Proof. intros w. rewrite get_player_by_name_world. apply world_ext_refl. Qed.

Lemma str_location_keeps location : wkeeps (str_location location).
Proof.
  destruct location as [l|text]; simpl.
  - apply (keeps_bind _ world_ext_trans); [apply planet_read_keeps|].
    intros obj. apply keeps_ret, world_ext_refl.
  - apply keeps_ret, world_ext_refl.
Qed.

Lemma logout_all_keeps values : wkeeps (logout_all values).
Proof.
  induction values as [|l values IH]; simpl.
  - apply keeps_ret, world_ext_refl.
  - apply (keeps_bind _ world_ext_trans);
      [by apply player_assign_keeps; intros p; repeat split|].
    intros _. apply (keeps_bind _ world_ext_trans);
      [by apply player_assign_keeps; intros p; repeat split|].
    intros _. exact IH.
Qed.

Lemma deactivate_keeps : wkeeps deactivate.
Proof.
  unfold deactivate.
  apply (keeps_bind _ world_ext_trans); [apply keeps_get, world_ext_refl|].
  intros w. apply (keeps_bind _ world_ext_trans); [apply logout_all_keeps|].
  intros _. apply emit_keeps.
Qed.

Lemma add_role_keeps l role : wkeeps (add_role l role).
Proof.
  destruct role as [c|name]; simpl.
  - by apply player_assign_keeps; intros p; repeat split.
  - apply keeps_raise, world_ext_refl.
Qed.

Lemma session_ext_refl s : session_ext s s.
Proof. split; [done | apply world_ext_refl]. Qed.

Lemma session_ext_trans s1 s2 s3 :
  session_ext s1 s2 -> session_ext s2 s3 -> session_ext s1 s3.
Proof.
  intros [Hi1 Hw1] [Hi2 Hw2]. split; [congruence | by eapply world_ext_trans].
Qed.

Lemma lift_keeps {A} (m : M World A) : wkeeps m -> skeeps (lift m).
Proof.
  intros Hm s. specialize (Hm (world s)). unfold lift.
  destruct (m (world s)) as [r w']. by split.
Qed.

Lemma set_state_keeps v : skeeps (set_state v).
Proof. intros s. split; [done | apply world_ext_refl]. Qed.

Lemma set_player_keeps l : skeeps (set_player l).
Proof. intros s. split; [done | apply world_ext_refl]. Qed.

Lemma bound_player_keeps : skeeps bound_player.
Proof.
  intros s. unfold bound_player.
  destruct (player (protocol s)); apply session_ext_refl.
Qed.

Lemma self_ident_keeps : skeeps self_ident.
Proof. intros s. apply session_ext_refl. Qed.

Lemma assign_player_attr_keeps f :
  (forall p, same_identity p (f p)) -> skeeps (assign_player_attr f).
Proof.
  intros Hf. unfold assign_player_attr.
  apply (keeps_bind _ session_ext_trans); [exact bound_player_keeps|].
  intros l. by apply lift_keeps, player_assign_keeps.
Qed.

Ltac keeps_step :=
  first
    [ apply (keeps_ret _ session_ext_refl)
    | apply (keeps_raise _ session_ext_refl)
    | apply set_state_keeps
    | apply set_player_keeps
    | exact bound_player_keeps
    | exact self_ident_keeps
    | apply assign_player_attr_keeps; intros p; by repeat split
    | apply lift_keeps;
      first [ apply emit_keeps | apply player_read_keeps
            | apply add_or_get_player_keeps | apply add_or_get_planet_keeps
            | apply get_player_by_name_keeps | apply str_location_keeps ]
    | apply (keeps_bind _ session_ext_trans); [|intros ?] ].

Lemma handlers_keep name h data :
  (name, h) ∈ handlers -> skeeps (h data).
Proof.
  intros Hin. unfold handlers in Hin.
  repeat (apply elem_of_cons in Hin as [[= _ ->]|Hin]);
    [..|by apply elem_of_nil in Hin].
  - repeat keeps_step.
  - repeat keeps_step.
  - repeat keeps_step.
  - unfold on_connect_response. destruct data as [| [] ? | |]; repeat keeps_step.
  - unfold on_client_connect. destruct data as [[u|] kw | | |]; repeat keeps_step.
  - repeat keeps_step.
  - repeat keeps_step.
  - repeat keeps_step.
  - unfold on_world_start. destruct data as [| | [co|] |]; repeat keeps_step.
  - repeat keeps_step.
Qed.

Lemma kick_keeps data : skeeps (kick data).
Proof.
  unfold kick.
  apply (keeps_bind _ session_ext_trans); [keeps_step|].
  intros [p|]; [|repeat keeps_step].
  apply (keeps_bind _ session_ext_trans); [keeps_step|].
  intros target. apply (keeps_bind _ session_ext_trans).
  { destruct (Player.protocol target); keeps_step. }
  intros _. repeat keeps_step.
Qed.

(** X9: Whatever a handler, the [kick] command, [deactivate] or [add_role]
    does, and however it ends, the world it leaves extends the world it
    found: every entry of the two dictionaries is still there, in its
    place and leading where it led; every planet is as it was; every
    player record is still there with the uuid, name, time of creation,
    address, planet and mute flag it had; the owner and the clock are the same; and
    the trace has only grown. *)
Theorem nothing_is_lost :
  (forall name h data s, (name, h) ∈ handlers -> session_ext s (snd (h data s)))
  /\ (forall words s, session_ext s (snd (kick words s)))
  /\ (forall w, world_ext w (snd (deactivate w)))
  /\ (forall l role w, world_ext w (snd (add_role l role w))).
Proof.
  split_and!.
  - intros name h data s Hin. by eapply handlers_keep.
  - intros words s. apply kick_keeps.
  - apply deactivate_keeps.
  - intros l role. apply add_role_keeps.
Qed.

(** ** One record for each uuid *)

Lemma players_keyed_ext w w' :
  wf_world w -> players_keyed w -> world_ext w w' -> players_keyed w'.
Proof.
  intros [[_ Hrefs] _] [Hkeyed Hapart] ((more & Hshelf & Hnew & Hdistinct) & _ & _ & Hkeep & _).
  split.
  - rewrite Hshelf. apply Forall_app. split.
    + eapply Forall_impl; [exact Hkeyed|]. intros [k l] Hk. simpl in *.
      destruct (player_heap w !! l) as [p|] eqn:Hl; [|done].
      destruct (Hkeep l p Hl) as (p' & -> & Hid & _). simpl in *. by rewrite Hid.
    + eapply Forall_impl; [exact Hnew|]. by intros kv [_ Hk].
  - rewrite Hshelf. unfold Py.dict_values. rewrite fmap_app.
    apply NoDup_app. split; [exact Hapart|]. split; [|exact Hdistinct].
    intros l Hin1 Hin2.
    apply list_elem_of_fmap in Hin1 as ([k1 l1] & -> & Hin1).
    apply list_elem_of_fmap in Hin2 as ([k2 l2] & Heq & Hin2).
    simpl in Heq. subst l2.
    rewrite Forall_forall in Hrefs. specialize (Hrefs _ Hin1).
    rewrite Forall_forall in Hnew. destruct (Hnew _ Hin2) as [Hfresh _].
    simpl in *. lia.
Qed.

Lemma dict_get_of_elem {V} (d : Py.dict V) k v :
  NoDup (Py.dict_keys d) -> (k, v) ∈ d -> Py.dict_get d k = Some v.
Proof.
  induction d as [|[k0 v0] d IH]; intros Hnd Hin; [by apply elem_of_nil in Hin|].
  simpl in *. apply NoDup_cons in Hnd as [Hk0 Hnd].
  apply elem_of_cons in Hin as [Heq|Hin].
  - injection Heq as -> ->. by rewrite String.eqb_refl.
  - destruct (String.eqb_spec k0 k) as [->|_]; [|by apply IH].
    exfalso. apply Hk0. unfold Py.dict_keys.
    apply list_elem_of_fmap. by exists (k, v).
Qed.

(** In a world whose players are stored under their own keys the shelf is
    a one-to-one record of the uuids it has seen: two entries for players
    with one uuid are one entry, and two entries for one player likewise. *)
Lemma keyed_entries_agree w k1 l1 p1 k2 l2 p2 :
  wf_world w -> players_keyed w ->
  (k1, l1) ∈ shelf_players w -> player_heap w !! l1 = Some p1 ->
  (k2, l2) ∈ shelf_players w -> player_heap w !! l2 = Some p2 ->
  (Player.uuid p1 = Player.uuid p2 <-> l1 = l2) /\ (l1 = l2 <-> k1 = k2).
Proof.
  intros [[Hnd _] _] [Hkeyed Hapart] Hin1 Hp1 Hin2 Hp2.
  rewrite Forall_forall in Hkeyed.
  pose proof (Hkeyed _ Hin1) as Hk1. pose proof (Hkeyed _ Hin2) as Hk2.
  simpl in *. rewrite Hp1 in Hk1. rewrite Hp2 in Hk2. simpl in *.
  injection Hk1 as Hk1. injection Hk2 as Hk2.
  assert (Hkeys : k1 = k2 -> l1 = l2).
  { intros ->. pose proof (dict_get_of_elem _ _ _ Hnd Hin1) as H1.
    pose proof (dict_get_of_elem _ _ _ Hnd Hin2) as H2. congruence. }
  assert (Hrefs : l1 = l2 -> k1 = k2).
  { intros ->. rewrite Hp1 in Hp2. injection Hp2 as <-. congruence. }
  split; [split|split]; auto.
  - intros Huuid. apply Hkeys. congruence.
  - intros ->. rewrite Hp1 in Hp2. by injection Hp2 as <-.
Qed.

(** X10: The invariant of the players store survives everything the plugin
    does: from a well-formed session whose players are stored under the
    [str] of their uuids, one reference to a key, every handler and the
    [kick] command leave such a world, and so do [deactivate] and
    [add_role]. *)
Theorem players_stay_keyed (name : string) (h : Parsed -> M Session bool)
    (data : Parsed) (words : list string) (l : ref) (role : RoleArg)
    (s : Session) :
  (name, h) ∈ handlers ->
  wf_world (world s) ->
  players_keyed (world s) ->
  players_keyed (world (snd (h data s)))
  /\ players_keyed (world (snd (kick words s)))
  /\ players_keyed (snd (deactivate (world s)))
  /\ players_keyed (snd (add_role l role (world s))).
Proof.
  intros Hin Hwf Hkeyed.
  split_and!; eapply players_keyed_ext; try done.
  - by eapply handlers_keep.
  - apply kick_keeps.
  - apply deactivate_keeps.
  - apply add_role_keeps.
Qed.

Lemma players_stay_keyed_witness :
  ("on_client_connect", on_client_connect) ∈ handlers
  /\ wf_world (fresh_world "ab0" 100)
  /\ players_keyed (fresh_world "ab0" 100)
  /\ players_keyed
       (world (snd (on_client_connect (ClientConnect (Some bob) bob_kw)
                      (mkSession (fresh_connection 7%nat) (fresh_world "ab0" 100))))).
Proof.
  assert (Hin : ("on_client_connect", on_client_connect) ∈ handlers).
  { unfold handlers. do 4 apply list_elem_of_further. apply list_elem_of_here. }
  assert (Hkeyed : players_keyed (fresh_world "ab0" 100))
    by (split; constructor).
  split; [exact Hin|]. split; [apply wf_fresh_world|]. split; [exact Hkeyed|].
  destruct (players_stay_keyed "on_client_connect" on_client_connect
              (ClientConnect (Some bob) bob_kw) [] 0%nat (AClass Kick)
              (mkSession (fresh_connection 7%nat) (fresh_world "ab0" 100))
              Hin (wf_fresh_world _ _) Hkeyed) as [Hafter _].
  exact Hafter.
Defined.

(** ** Keys are faithful *)

Lemma string_app_cons c (s t : string) : String c s +:+ t = String c (s +:+ t).
Proof. reflexivity. Qed.

Lemma string_app_assoc (s1 s2 s3 : string) :
  (s1 +:+ s2) +:+ s3 = s1 +:+ (s2 +:+ s3).
Proof.
  induction s1 as [|c s1 IH]; [done|].
  by rewrite !string_app_cons, IH.
Qed.

Lemma string_app_nil_r (s : string) : s +:+ "" = s.
Proof.
  induction s as [|c s IH]; [done|]. by rewrite string_app_cons, IH.
Qed.

Lemma string_concat_cons (x : string) (xs : list string) :
  String.concat "" (x :: xs) = x +:+ String.concat "" xs.
Proof.
  destruct xs as [|y xs]; [|done].
  change (x = x +:+ ""). by rewrite string_app_nil_r.
Qed.

Lemma unrepr_byte quote b rest :
  quote = Py.squote \/ quote = Py.dquote ->
  Py.unrepr_body quote (Py.repr_byte quote b +:+ rest)
    = cons b <$> Py.unrepr_body quote rest.
Proof. intros [->| ->]; destruct b; reflexivity. Qed.

Lemma unrepr_body_repr quote u :
  quote = Py.squote \/ quote = Py.dquote ->
  Py.unrepr_body quote
    (String.concat "" (map (Py.repr_byte quote) u) +:+ String quote "")
    = Some u.
Proof.
  intros Hq. induction u as [|b u IH].
  - destruct Hq as [->| ->]; reflexivity.
  - rewrite map_cons, string_concat_cons, string_app_assoc.
    rewrite (unrepr_byte _ _ _ Hq), IH. reflexivity.
Qed.

(** Reading back what [str] wrote gives the bytes written. *)
Lemma unrepr_str_bytes u : Py.unrepr (Py.str_bytes u) = Some u.
Proof.
  unfold Py.unrepr, Py.str_bytes. apply unrepr_body_repr.
  unfold Py.repr_quote. destruct (_ && _); auto.
Qed.

(** X11: Two uuids with one [str] are one uuid: no two clients share a key of
    the players dictionary. *)
Theorem str_bytes_inj (u1 u2 : bytes) :
  Py.str_bytes u1 = Py.str_bytes u2 -> u1 = u2.
Proof.
  intros Heq. apply (f_equal Py.unrepr) in Heq.
  rewrite !unrepr_str_bytes in Heq. by injection Heq.
Qed.

Lemma no_colon_app (s t : string) :
  no_colon (s +:+ t) = no_colon s && no_colon t.
Proof.
  induction s as [|c s IH]; [done|].
  rewrite string_app_cons. simpl. rewrite IH. by rewrite andb_assoc.
Qed.

Lemma no_colon_pretty_N_go x s :
  no_colon s = true -> no_colon (pretty_N_go x s) = true.
Proof.
  revert s. induction (N.lt_wf_0 x) as [x _ IH]; intros s Hs.
  assert (x = 0 \/ 0 < x)%N as [->|Hpos] by lia.
  - by rewrite pretty_N_go_0.
  - rewrite pretty_N_go_step by done. apply IH; [by apply N.div_lt|].
    simpl. rewrite Hs. unfold pretty_N_char. by repeat case_match.
Qed.

Lemma no_colon_fmt_d n : no_colon (Py.fmt_d n) = true.
Proof.
  unfold Py.fmt_d, pretty, pretty_Z.
  assert (Hpos : forall p : positive, no_colon (pretty p) = true).
  { intros p. unfold pretty, pretty_positive, pretty, pretty_N.
    case_decide; [done | by apply no_colon_pretty_N_go]. }
  destruct n as [|p|p]; [done | apply Hpos |].
  rewrite no_colon_app. by rewrite Hpos.
Qed.

(** A string is cut at its last colon in one way only. *)
Lemma split_last_colon (p1 t1 p2 t2 : string) :
  (p1 +:+ ":") +:+ t1 = (p2 +:+ ":") +:+ t2 ->
  no_colon t1 = true -> no_colon t2 = true ->
  p1 = p2 /\ t1 = t2.
Proof.
  intros Heq Ht1 Ht2. revert p2 Heq.
  assert (Hcolon : forall p t, no_colon ((p +:+ ":") +:+ t) = false).
  { intros p t. rewrite !no_colon_app. simpl. by rewrite andb_false_r. }
  assert (Hnil : forall t : string, "" +:+ t = t) by done.
  induction p1 as [|c p1 IH]; intros [|c2 p2] Heq;
    repeat (progress rewrite ?string_app_cons, ?Hnil in Heq).
  - by injection Heq.
  - injection Heq as Hc Heq. rewrite Heq, Hcolon in Ht1. discriminate.
  - injection Heq as Hc Heq. rewrite <- Heq, Hcolon in Ht2. discriminate.
  - injection Heq as -> Heq. destruct (IH p2 Heq) as [-> ->]. done.
Qed.

Lemma fmt_location_left sector a x y planet satellite :
  Planet.fmt_location sector a x y planet satellite =
    ((((((((((sector +:+ ":") +:+ Py.fmt_d a) +:+ ":") +:+ Py.fmt_d x) +:+ ":")
          +:+ Py.fmt_d y) +:+ ":") +:+ Py.fmt_d planet) +:+ ":")
       +:+ Py.fmt_d satellite).
Proof. unfold Planet.fmt_location. by rewrite !string_app_assoc. Qed.

(** The format of a location is read back in one way only, whatever
    colons the sector may hold. *)
Lemma fmt_location_inj s1 a1 x1 y1 p1 t1 s2 a2 x2 y2 p2 t2 :
  Planet.fmt_location s1 a1 x1 y1 p1 t1 = Planet.fmt_location s2 a2 x2 y2 p2 t2 ->
  s1 = s2 /\ a1 = a2 /\ x1 = x2 /\ y1 = y2 /\ p1 = p2 /\ t1 = t2.
Proof.
  rewrite !fmt_location_left. intros Heq.
  apply split_last_colon in Heq as [Heq Ht]; [|apply no_colon_fmt_d..].
  apply split_last_colon in Heq as [Heq Hp]; [|apply no_colon_fmt_d..].
  apply split_last_colon in Heq as [Heq Hy]; [|apply no_colon_fmt_d..].
  apply split_last_colon in Heq as [Heq Hx]; [|apply no_colon_fmt_d..].
  apply split_last_colon in Heq as [-> Ha]; [|apply no_colon_fmt_d..].
  unfold Py.fmt_d in *.
  apply (inj pretty) in Ht, Hp, Hy, Hx, Ha. by subst.
Qed.

(** X12: The key of a planet tells its six fields: two planets with one key
    agree on sector, location, planet and satellite, whatever colons the
    sector may hold. *)
Theorem planet_key_inj (o1 o2 : Planet.t) :
  Planet.__str__ o1 = Planet.__str__ o2 -> o1 = o2.
Proof.
  destruct o1 as [s1 a1 x1 y1 p1 t1], o2 as [s2 a2 x2 y2 p2 t2].
  unfold Planet.__str__. simpl. intros Heq.
  by apply fmt_location_inj in Heq as (-> & -> & -> & -> & -> & ->).
Qed.

(** ** The stores answer what they were asked *)

Lemma add_or_get_planet_keyed sector location planet satellite w :
  planets_keyed w ->
  planets_keyed (snd (add_or_get_planet sector location planet satellite w)).
Proof.
  destruct location as [[a x] y]. intros Hkeyed.
  destruct (Py.dict_get (shelf_planets w)
              (Planet.fmt_location sector a x y planet satellite))
    as [l|] eqn:Hget.
  - by rewrite (add_or_get_planet_existing _ _ _ _ _ _ _ _ Hget).
  - rewrite (add_or_get_planet_created _ _ _ _ _ _ _ Hget).
    unfold planets_keyed in *. simpl. apply Forall_app. split.
    + eapply Forall_impl; [exact Hkeyed|]. intros [k l]. simpl.
      destruct (planet_heap w !! l) as [o|] eqn:Hl; [|done].
      by rewrite (lookup_app_l_Some _ _ _ _ Hl).
    + apply Forall_singleton. simpl. by rewrite list_lookup_middle.
Qed.

Lemma add_or_get_planet_faithful sector a x y planet satellite w :
  planets_keyed w ->
  exists l w',
    add_or_get_planet sector (a, x, y) planet satellite w = (Done (Ok l), w')
    /\ planet_heap w' !! l = Some (Planet.mk sector a x y planet satellite)
    /\ exists more, planet_heap w' = planet_heap w ++ more.
Proof.
  intros Hkeyed.
  destruct (Py.dict_get (shelf_planets w)
              (Planet.fmt_location sector a x y planet satellite))
    as [l|] eqn:Hget.
  - eexists l, _. rewrite (add_or_get_planet_existing _ _ _ _ _ _ _ _ Hget).
    split; [reflexivity|]. simpl. split; [|exists []; by rewrite app_nil_r].
    unfold planets_keyed in Hkeyed. rewrite Forall_forall in Hkeyed.
    pose proof (Hkeyed _ (dict_get_elem _ _ _ Hget)) as Hl. simpl in Hl.
    destruct (planet_heap w !! l) as [obj|]; [|done]. simpl in Hl.
    injection Hl as Hl. f_equal. destruct obj as [s0 a0 x0 y0 p0 t0].
    unfold Planet.__str__ in Hl. simpl in Hl.
    by apply fmt_location_inj in Hl as (-> & -> & -> & -> & -> & ->).
  - eexists _, _. rewrite (add_or_get_planet_created _ _ _ _ _ _ _ Hget).
    split; [reflexivity|]. simpl.
    split; [by apply list_lookup_middle | by eexists].
Qed.

(** X13: In a world whose planets are stored under their own keys,
    [add_or_get_planet] returns a planet with exactly the sector, location,
    planet and satellite it was asked for, found or made; and asked for two
    planets, one after the other, it returns one record if and only if the
    six fields asked for are the same. *)
Theorem planet_store_is_faithful (w : World) (o1 o2 : Planet.t) :
  planets_keyed w ->
  exists l1 w1 l2 w2,
    add_or_get_planet (Planet.sector o1) (Planet.a o1, Planet.x o1, Planet.y o1)
      (Planet.planet o1) (Planet.satellite o1) w = (Done (Ok l1), w1)
    /\ planet_heap w1 !! l1 = Some o1
    /\ add_or_get_planet (Planet.sector o2) (Planet.a o2, Planet.x o2, Planet.y o2)
         (Planet.planet o2) (Planet.satellite o2) w1 = (Done (Ok l2), w2)
    /\ planet_heap w2 !! l1 = Some o1
    /\ planet_heap w2 !! l2 = Some o2
    /\ (l1 = l2 <-> o1 = o2).
Proof.
  intros Hkeyed. destruct o1 as [s1 a1 x1 y1 p1 t1], o2 as [s2 a2 x2 y2 p2 t2].
  simpl.
  destruct (add_or_get_planet_faithful s1 a1 x1 y1 p1 t1 w Hkeyed)
    as (l1 & w1 & Hrun1 & Hl1 & _).
  assert (Hkeyed1 : planets_keyed w1).
  { pose proof (add_or_get_planet_keyed s1 (a1, x1, y1) p1 t1 w Hkeyed) as H.
    by rewrite Hrun1 in H. }
  destruct (add_or_get_planet_faithful s2 a2 x2 y2 p2 t2 w1 Hkeyed1)
    as (l2 & w2 & Hrun2 & Hl2 & more & Hmore).
  assert (Hl1' : planet_heap w2 !! l1 = Some (Planet.mk s1 a1 x1 y1 p1 t1)).
  { rewrite Hmore. by apply lookup_app_l_Some. }
  exists l1, w1, l2, w2.
  do 5 (split; [done|]). split.
  - intros ->. congruence.
  - intros [= -> -> -> -> -> ->].
    destruct (add_or_get_planet_twice w s2 a2 x2 y2 p2 t2)
      as (l & w1' & w2' & Hrun1' & Hrun2' & _).
    rewrite Hrun1 in Hrun1'. injection Hrun1' as -> ->.
    rewrite Hrun2 in Hrun2'. by injection Hrun2' as ->.
Qed.

Lemma planet_store_is_faithful_witness :
  planets_keyed (fresh_world "ab0" 100)
  /\ exists l1 w1 l2 w2,
       add_or_get_planet "alpha" (0, 1, 2) 3 4 (fresh_world "ab0" 100)
         = (Done (Ok l1), w1)
       /\ add_or_get_planet "alpha:0" (1, 2, 3) 4 5 w1 = (Done (Ok l2), w2)
       /\ l1 <> l2.
Proof.
  split; [constructor|].
  destruct (planet_store_is_faithful (fresh_world "ab0" 100)
              (Planet.mk "alpha" 0 1 2 3 4) (Planet.mk "alpha:0" 1 2 3 4 5)
              (Forall_nil_2 _))
    as (l1 & w1 & l2 & w2 & Hrun1 & _ & Hrun2 & _ & _ & Hiff).
  exists l1, w1, l2, w2. split; [exact Hrun1|]. split; [exact Hrun2|].
  intros Heq. apply Hiff in Heq. discriminate Heq.
Defined.

Lemma add_or_get_player_faithful uuid decoded kw w :
  wf_world w -> players_keyed w ->
  Py.decode_ascii uuid = Ok decoded ->
  exists l w' p,
    add_or_get_player_kw uuid kw w = (Done (Ok l), w')
    /\ Py.dict_get (shelf_players w') (Py.str_bytes uuid) = Some l
    /\ player_heap w' !! l = Some p
    /\ Player.uuid p = uuid
    /\ wf_world w' /\ players_keyed w'
    /\ world_ext w w'.
Proof.
  intros Hwf Hkeyed Hdec.
  pose proof (add_or_get_player_keeps uuid kw w) as Hext.
  destruct (Py.dict_get (shelf_players w) (Py.str_bytes uuid)) as [l|] eqn:Hget.
  - destruct (add_or_get_player_again w uuid kw l decoded Hwf Hget Hdec)
      as (w' & Hrun & Hshelf & Hlen & Hwf').
    rewrite Hrun in Hext. simpl in Hext.
    pose proof (wf_dict_lookup _ _ _ _ (proj1 Hwf) Hget) as Hlt.
    destruct (lookup_lt_is_Some_2 _ _ Hlt) as [p Hp].
    destruct Hext as (Hentries & Hrest). destruct Hrest as (_ & _ & Hkeep & _).
    destruct (Hkeep l p Hp) as (p' & Hp' & Huuid & _).
    exists l, w', p'. split; [exact Hrun|]. split; [by rewrite Hshelf|].
    split; [exact Hp'|]. split.
    + rewrite Huuid.
      destruct Hkeyed as [Hk _]. rewrite Forall_forall in Hk.
      pose proof (Hk _ (dict_get_elem _ _ _ Hget)) as Hkl. simpl in Hkl.
      rewrite Hp in Hkl.
      assert (Hstr : Py.str_bytes (Player.uuid p) = Py.str_bytes uuid)
        by (simpl in Hkl; congruence).
      apply (f_equal Py.unrepr) in Hstr. rewrite !unrepr_str_bytes in Hstr.
      by injection Hstr.
    + split; [exact Hwf'|]. split.
      * eapply players_keyed_ext; [exact Hwf | exact Hkeyed|].
        pose proof (add_or_get_player_keeps uuid kw w) as H. by rewrite Hrun in H.
      * pose proof (add_or_get_player_keeps uuid kw w) as H. by rewrite Hrun in H.
  - destruct (add_or_get_player_first w uuid kw decoded Hwf Hget Hdec)
      as (w' & Hrun & Hshelf & Huuid & Hlen & Hwf').
    rewrite Hrun in Hext. simpl in Hext.
    destruct (player_heap w' !! length (player_heap w)) as [p|] eqn:Hp; [|done].
    simpl in Huuid. injection Huuid as Huuid.
    exists (length (player_heap w)), w', p. split; [exact Hrun|].
    split; [rewrite Hshelf, <- (dict_set_absent _ _ _ Hget); apply dict_get_set_eq|].
    split; [done|]. split; [done|]. split; [done|].
    split; [exact (players_keyed_ext w w' Hwf Hkeyed Hext) | exact Hext].
Qed.

(** X14: In a well-formed world whose players are stored under their own keys,
    [add_or_get_player] returns a record with the uuid it was asked for,
    found or made; and asked for two uuids, one after the other, it returns
    one record if and only if the two uuids are the same. *)
Theorem player_store_is_faithful (w : World) (u1 u2 : bytes) (d1 d2 : string)
    (kw1 kw2 : PlayerKw) :
  wf_world w -> players_keyed w ->
  Py.decode_ascii u1 = Ok d1 -> Py.decode_ascii u2 = Ok d2 ->
  exists l1 w1 p1 l2 w2 p2,
    add_or_get_player_kw u1 kw1 w = (Done (Ok l1), w1)
    /\ player_heap w1 !! l1 = Some p1 /\ Player.uuid p1 = u1
    /\ add_or_get_player_kw u2 kw2 w1 = (Done (Ok l2), w2)
    /\ player_heap w2 !! l2 = Some p2 /\ Player.uuid p2 = u2
    /\ (l1 = l2 <-> u1 = u2).
Proof.
  intros Hwf Hkeyed Hd1 Hd2.
  destruct (add_or_get_player_faithful u1 d1 kw1 w Hwf Hkeyed Hd1)
    as (l1 & w1 & p1 & Hrun1 & Hget1 & Hp1 & Hu1 & Hwf1 & Hkeyed1 & _).
  destruct (add_or_get_player_faithful u2 d2 kw2 w1 Hwf1 Hkeyed1 Hd2)
    as (l2 & w2 & p2 & Hrun2 & Hget2 & Hp2 & Hu2 & _ & _ & Hext).
  exists l1, w1, p1, l2, w2, p2.
  do 6 (split; [done|]). split.
  - intros ->. destruct Hext as (_ & _ & _ & Hkeep & _).
    destruct (Hkeep l2 p1 Hp1) as (p' & Hp' & Hid & _).
    rewrite Hp2 in Hp'. injection Hp' as <-. congruence.
  - intros ->.
    destruct (add_or_get_player_again w1 u2 kw2 l1 d2 Hwf1 Hget1 Hd2)
      as (w' & Hrun' & _).
    rewrite Hrun2 in Hrun'. by injection Hrun' as ->.
Qed.

Lemma player_store_is_faithful_witness :
  wf_world (fresh_world "ab0" 100)
  /\ players_keyed (fresh_world "ab0" 100)
  /\ Py.decode_ascii bob = Ok "bob"
  /\ Py.decode_ascii alice = Ok "alice"
  /\ exists l1 w1 l2 w2,
       add_or_get_player_kw bob bob_kw (fresh_world "ab0" 100) = (Done (Ok l1), w1)
       /\ add_or_get_player_kw alice alice_kw w1 = (Done (Ok l2), w2)
       /\ l1 <> l2.
Proof.
  assert (Hkeyed : players_keyed (fresh_world "ab0" 100))
    by (split; constructor).
  split; [apply wf_fresh_world|]. split; [exact Hkeyed|].
  split; [reflexivity|]. split; [reflexivity|].
  destruct (player_store_is_faithful (fresh_world "ab0" 100) bob alice
              "bob" "alice" bob_kw alice_kw (wf_fresh_world _ _) Hkeyed
              eq_refl eq_refl)
    as (l1 & w1 & p1 & l2 & w2 & p2 & Hrun1 & _ & _ & Hrun2 & _ & _ & Hiff).
  exists l1, w1, l2, w2. split; [exact Hrun1|]. split; [exact Hrun2|].
  intros Heq. apply Hiff in Heq. discriminate Heq.
Defined.

Lemma str_bytes_inj_witness :
  Py.str_bytes bob = Py.str_bytes [x62; x6f; x62] /\ bob = [x62; x6f; x62].
Proof.
  split; [reflexivity|].
  exact (str_bytes_inj bob [x62; x6f; x62] eq_refl).
Defined.

Lemma planet_key_inj_witness :
  Planet.__str__ (Planet.__init__ "alpha" (0, 1, 2) 3 4) = "alpha:0:1:2:3:4"
  /\ Planet.__init__ "alpha" (0, 1, 2) 3 4 = Planet.mk "alpha" 0 1 2 3 4.
Proof.
  split; [reflexivity|].
  exact (planet_key_inj (Planet.__init__ "alpha" (0, 1, 2) 3 4)
           (Planet.mk "alpha" 0 1 2 3 4) eq_refl).
Defined.

(** ** One record for each uuid, whatever the calls *)

Lemma run_calls_ext uuid calls :
  forall w, world_ext w (snd (run_calls uuid calls w)).
Proof.
  induction calls as [|kw calls IH]; intros w; [apply world_ext_refl|].
  simpl. pose proof (add_or_get_player_keeps uuid kw w) as H1.
  destruct (add_or_get_player_kw uuid kw w) as [r w1]. simpl in H1.
  specialize (IH w1). destruct (run_calls uuid calls w1) as [rs w2].
  simpl in *. by eapply world_ext_trans.
Qed.

(** Calls on a uuid that does not decode: each raises, and between them
    they leave the dictionary and the records as they found them. *)
Lemma run_calls_undecodable uuid calls :
  Py.decode_ascii uuid = Raise UnicodeDecodeError ->
  forall w,
    fst (run_calls uuid calls w)
      = replicate (length calls) (Done (Raise UnicodeDecodeError))
    /\ shelf_players (snd (run_calls uuid calls w)) = shelf_players w
    /\ player_heap (snd (run_calls uuid calls w)) = player_heap w.
Proof.
  intros Hdec. induction calls as [|kw calls IH]; intros w; [done|].
  simpl. destruct (add_or_get_player_undecodable w uuid kw Hdec) as [line ->].
  destruct (IH (with_trace (trace w ++ [line]) w)) as (Hres & Hshelf & Hheap).
  destruct (run_calls uuid calls _) as [rs w2]. simpl in *.
  by rewrite Hres, Hshelf, Hheap.
Qed.

(** The record behind the key of a uuid carries that uuid. *)
Lemma keyed_record_uuid w uuid l :
  players_keyed w ->
  Py.dict_get (shelf_players w) (Py.str_bytes uuid) = Some l ->
  Player.uuid <$> player_heap w !! l = Some uuid.
Proof.
  intros [Hk _] Hget. rewrite Forall_forall in Hk.
  pose proof (Hk _ (dict_get_elem _ _ _ Hget)) as Hkl. simpl in Hkl.
  destruct (player_heap w !! l) as [p|]; [|done].
  assert (Hstr : Py.str_bytes (Player.uuid p) = Py.str_bytes uuid)
    by (simpl in Hkl; congruence).
  apply (f_equal Py.unrepr) in Hstr. rewrite !unrepr_str_bytes in Hstr.
  simpl. congruence.
Qed.

(** C2: from a well-formed world, calls of [add_or_get_player] that share
    a uuid, in any number and with any other arguments.  When the uuid
    decodes as ASCII the calls all return one and the same record; after
    them the shelf holds exactly one entry under the key of the uuid,
    leading to that record; the dictionary and the number of player
    objects are those left by the first call, which appended the entry and
    the object when the shelf did not know the uuid and changed neither
    when it did; and on a shelf whose players are stored under their own
    keys the record carries the uuid and is the record of no other uuid: a
    call with another uuid returns another record.  When the uuid does not
    decode every call raises [UnicodeDecodeError], and the calls leave the
    dictionary and the records as they found them: no record is made. *)
Theorem player_dedup (w : World) (uuid : bytes) (kw : PlayerKw)
    (later : list PlayerKw) :
  wf_world w ->
  let key := Py.str_bytes uuid in
  let w1 := snd (add_or_get_player_kw uuid kw w) in
  let outcomes := fst (run_calls uuid (kw :: later) w) in
  let w' := snd (run_calls uuid (kw :: later) w) in
  match Py.decode_ascii uuid with
  | Ok decoded =>
      exists l,
        outcomes = replicate (S (length later)) (Done (Ok l))
        /\ Py.dict_get (shelf_players w') key = Some l
        /\ Py.dict_count (shelf_players w') key = 1%nat
        /\ shelf_players w' = shelf_players w1
        /\ length (player_heap w') = length (player_heap w1)
        /\ match Py.dict_get (shelf_players w) key with
           | None =>
               l = length (player_heap w)
               /\ shelf_players w1 = shelf_players w ++ [(key, l)]
               /\ Player.uuid <$> player_heap w1 !! l = Some uuid
               /\ length (player_heap w1) = S (length (player_heap w))
           | Some l0 =>
               l = l0
               /\ shelf_players w1 = shelf_players w
               /\ length (player_heap w1) = length (player_heap w)
           end
        /\ (players_keyed w ->
            Player.uuid <$> player_heap w' !! l = Some uuid
            /\ forall uuid' decoded' kw',
                 Py.decode_ascii uuid' = Ok decoded' ->
                 uuid' <> uuid ->
                 exists l',
                   fst (add_or_get_player_kw uuid' kw' w') = Done (Ok l')
                   /\ l' <> l)
  | Raise e =>
      e = UnicodeDecodeError
      /\ outcomes = replicate (S (length later)) (Done (Raise UnicodeDecodeError))
      /\ shelf_players w' = shelf_players w
      /\ player_heap w' = player_heap w
  end.
Proof.
  intros Hwf key w1 outcomes w'.
  destruct (decode_ascii_cases uuid) as [[decoded Hdec]|Hdec]; rewrite Hdec.
  - destruct (run_calls_one_record w uuid decoded kw later Hwf Hdec)
      as (l & Hres & Hget & Hcount & Hshelf & Hlen & Hfirst).
    exists l. do 6 (split; [done|]).
    intros Hkeyed.
    assert (Hwf' : wf_world w').
    { subst w'. simpl.
      destruct (Py.dict_get (shelf_players w) (Py.str_bytes uuid)) as [l0|] eqn:Hg.
      - destruct (add_or_get_player_again w uuid kw l0 decoded Hwf Hg Hdec)
          as (wa & Hrun & Hs & _ & Hwfa).
        rewrite Hrun.
        destruct (run_calls_again uuid decoded l0 later Hdec wa Hwfa)
          as (wb & Hrest & _ & _ & Hwfb); [by rewrite Hs|].
        by rewrite Hrest.
      - destruct (add_or_get_player_first w uuid kw decoded Hwf Hg Hdec)
          as (wa & Hrun & Hs & _ & _ & Hwfa).
        rewrite Hrun.
        destruct (run_calls_again uuid decoded (length (player_heap w)) later
                    Hdec wa Hwfa)
          as (wb & Hrest & _ & _ & Hwfb).
        { rewrite Hs, <- (dict_set_absent _ _ _ Hg). apply dict_get_set_eq. }
        by rewrite Hrest. }
    assert (Hkeyed' : players_keyed w')
      by exact (players_keyed_ext w w' Hwf Hkeyed (run_calls_ext uuid (kw :: later) w)).
    pose proof (keyed_record_uuid w' uuid l Hkeyed' Hget) as Huuid.
    split; [exact Huuid|].
    intros uuid' decoded' kw' Hdec' Hne.
    destruct (add_or_get_player_faithful uuid' decoded' kw' w' Hwf' Hkeyed' Hdec')
      as (l' & w'' & p' & Hrun' & _ & Hp' & Hu' & _ & _ & Hext).
    exists l'. rewrite Hrun'. split; [reflexivity|]. intros ->.
    destruct (player_heap w' !! l) as [p|] eqn:Hp; [|done].
    simpl in Huuid. injection Huuid as Huuid.
    destruct Hext as (_ & _ & _ & Hkeep & _).
    destruct (Hkeep l p Hp) as (q & Hq & Hid & _).
    rewrite Hp' in Hq. injection Hq as <-. congruence.
  - split; [reflexivity|].
    exact (run_calls_undecodable uuid (kw :: later) Hdec w).
Qed.

Lemma player_dedup_witness :
  wf_world (fresh_world "ab0" 100)
  /\ players_keyed (fresh_world "ab0" 100)
  /\ exists l,
       fst (run_calls bob [kw_defaults; kw_defaults; kw_defaults]
              (fresh_world "ab0" 100))
         = replicate 3 (Done (Ok l))
       /\ Py.dict_count
            (shelf_players
               (snd (run_calls bob [kw_defaults; kw_defaults; kw_defaults]
                       (fresh_world "ab0" 100))))
            (Py.str_bytes bob) = 1%nat
       /\ exists l',
            fst (add_or_get_player_kw alice alice_kw
                   (snd (run_calls bob [kw_defaults; kw_defaults; kw_defaults]
                           (fresh_world "ab0" 100))))
              = Done (Ok l')
            /\ l' <> l.
Proof.
  assert (Hkeyed : players_keyed (fresh_world "ab0" 100))
    by (split; constructor).
  split; [apply wf_fresh_world|]. split; [exact Hkeyed|].
  pose proof (player_dedup (fresh_world "ab0" 100) bob kw_defaults
                [kw_defaults; kw_defaults] (wf_fresh_world "ab0" 100)) as H.
  cbv zeta in H. change (Py.decode_ascii bob) with (Ok (A := string) "bob") in H.
  cbv beta iota in H.
  destruct H as (l & Hres & _ & Hcount & _ & _ & _ & Hother).
  exists l. split; [exact Hres|]. split; [exact Hcount|].
  destruct (Hother Hkeyed) as [_ Hne].
  exact (Hne alice "alice" alice_kw eq_refl ltac:(discriminate)).
Defined.

(** Two calls with the uuid [b'\xff']: each raises, no record is made and
    no entry stored, so no record is returned by every call and none
    exists afterwards. *)
Lemma player_dedup_undecodable_counterexample :
  wf_world (fresh_world "ab0" 100)
  /\ fst (run_calls [xff] [kw_defaults; kw_defaults] (fresh_world "ab0" 100))
     = [Done (Raise UnicodeDecodeError); Done (Raise UnicodeDecodeError)]
  /\ shelf_players
       (snd (run_calls [xff] [kw_defaults; kw_defaults] (fresh_world "ab0" 100)))
     = []
  /\ player_heap
       (snd (run_calls [xff] [kw_defaults; kw_defaults] (fresh_world "ab0" 100)))
     = []
  /\ ~ (exists l,
          fst (run_calls [xff] [kw_defaults; kw_defaults] (fresh_world "ab0" 100))
            = replicate 2 (Done (Ok l))
          /\ Py.dict_count
               (shelf_players
                  (snd (run_calls [xff] [kw_defaults; kw_defaults]
                          (fresh_world "ab0" 100))))
               (Py.str_bytes [xff]) = 1%nat).
Proof.
  split; [apply wf_fresh_world|]. split; [reflexivity|].
  split; [reflexivity|]. split; [reflexivity|].
  intros (l & Hres & _). discriminate Hres.
Qed.

(** ** Coming back *)

(** X15: A player the shelf knows is returned as the shelf stores them:
    whatever the caller passes besides the uuid is ignored, the name among
    it, and no record changes, except that the owner's roles are written
    anew. *)
Theorem returning_player_is_not_updated (w : World) (uuid : bytes)
    (decoded : string) (l : ref) (p : Player.t) (kw : PlayerKw) :
  Py.dict_get (shelf_players w) (Py.str_bytes uuid) = Some l ->
  player_heap w !! l = Some p ->
  Py.decode_ascii uuid = Ok decoded ->
  add_or_get_player_kw uuid kw w = add_or_get_player_kw uuid kw_defaults w
  /\ exists w',
       add_or_get_player_kw uuid kw w = (Done (Ok l), w')
       /\ player_heap w' !! l =
            Some (if String.eqb decoded (owner_uuid w)
                  then Player.set_roles owner_role_names p else p)
       /\ (forall l', l' <> l -> player_heap w' !! l' = player_heap w !! l')
       /\ shelf_players w' = shelf_players w
       /\ length (player_heap w') = length (player_heap w).
Proof.
  intros Hget Hp Hdec.
  rewrite !(add_or_get_player_existing w uuid _ l p decoded Hget Hp Hdec).
  split; [reflexivity|]. eexists. split; [reflexivity|]. simpl.
  assert (Hlt : (l < length (player_heap w))%nat) by (by eapply lookup_lt_Some).
  destruct (String.eqb decoded (owner_uuid w)).
  - split; [by apply list_lookup_insert_eq|].
    split; [by intros l' Hne; apply list_lookup_insert_ne|].
    split; [done | apply length_insert].
  - by split_and!.
Qed.

Lemma returning_player_is_not_updated_witness :
  Py.dict_get (shelf_players bob_left) (Py.str_bytes bob) = Some 0%nat
  /\ exists w',
       add_or_get_player_kw bob alice_kw bob_left = (Done (Ok 0%nat), w')
       /\ Player.name <$> player_heap w' !! 0%nat = Some "Bob".
Proof.
  split; [reflexivity|].
  destruct (returning_player_is_not_updated bob_left bob "bob" 0%nat
              (Player.mk bob "Bob" 100 ∅ false None 1 "0.0.0.0" "" true false)
              alice_kw eq_refl eq_refl eq_refl)
    as (_ & w' & Hrun & Hp & _).
  exists w'. split; [exact Hrun|]. by rewrite Hp.
Defined.

(** X16: A client connect whose uuid has a byte outside ASCII is refused: the
    handler raises [UnicodeDecodeError] after one log line, the shelf gets
    no record and the connection no player, whether or not the shelf holds
    a record under the key of that uuid. *)
Theorem undecodable_uuid_is_refused (s : Session) (uuid : bytes) (kw : PlayerKw) :
  forallb Py.is_ascii_byte uuid = false ->
  exists line,
    on_client_connect (ClientConnect (Some uuid) kw) s =
      (Done (Raise UnicodeDecodeError),
       mkSession (protocol s) (with_trace (trace (world s) ++ [line]) (world s))).
Proof.
  intros Hbad.
  assert (Hdec : Py.decode_ascii uuid = Raise UnicodeDecodeError)
    by (unfold Py.decode_ascii; by rewrite Hbad).
  destruct (add_or_get_player_undecodable (world s) uuid kw Hdec) as [line Hrun].
  exists line. unfold on_client_connect, bind, lift. by rewrite Hrun.
Qed.

Lemma undecodable_uuid_is_refused_witness :
  forallb Py.is_ascii_byte [x62; xff] = false
  /\ fst (on_client_connect (ClientConnect (Some [x62; xff]) bob_kw)
            (mkSession (fresh_connection 7%nat) (fresh_world "ab0" 100)))
     = Done (Raise UnicodeDecodeError).
Proof.
  split; [reflexivity|].
  destruct (undecodable_uuid_is_refused
              (mkSession (fresh_connection 7%nat) (fresh_world "ab0" 100))
              [x62; xff] bob_kw eq_refl) as [line Hrun].
  exact (f_equal fst Hrun).
Defined.

Lemma on_client_connect_known w c uuid decoded kw l p :
  Py.dict_get (shelf_players w) (Py.str_bytes uuid) = Some l ->
  player_heap w !! l = Some p ->
  Py.decode_ascii uuid = Ok decoded ->
  on_client_connect (ClientConnect (Some uuid) kw) (mkSession c w) =
    (Done (Ok true),
     mkSession (mkConnection (ident c) (state c) (Some l))
       (snd (add_or_get_player_kw uuid kw w))).
Proof.
  intros Hget Hp Hdec. unfold on_client_connect, bind, lift. simpl.
  by rewrite (add_or_get_player_existing w uuid kw l p decoded Hget Hp Hdec).
Qed.

(** X17: A client who comes back: after a disconnect, a client connect with
    the uuid of the stored player binds the new connection to the very
    record the old one was bound to; the record is as the disconnect left
    it, logged out and without a connection, and the name of the packet
    is not taken; a successful connect response then logs the player in
    on the new connection. *)
Theorem reconnect_binds_the_same_record (s : Session) (c' : Connection)
    (uuid : bytes) (decoded : string) (l : ref) (p : Player.t)
    (kw : PlayerKw) (data : Parsed) (client_id : Z) :
  player (protocol s) = Some l ->
  player_heap (world s) !! l = Some p ->
  Py.dict_get (shelf_players (world s)) (Py.str_bytes uuid) = Some l ->
  Py.decode_ascii uuid = Ok decoded ->
  String.eqb decoded (owner_uuid (world s)) = false ->
  exists s1 s2 s3,
    on_client_disconnect data s = (Done (Ok true), s1)
    /\ on_client_connect (ClientConnect (Some uuid) kw) (mkSession c' (world s1))
       = (Done (Ok true), s2)
    /\ player (protocol s2) = Some l
    /\ player_heap (world s2) !! l = Some (logged_out p)
    /\ on_connect_response (ConnectResponse true client_id) s2
       = (Done (Ok true), s3)
    /\ player_heap (world s3) !! l =
         Some (Player.set_protocol (Some (ident c'))
                 (Player.set_client_id client_id
                    (Player.set_logged_in true (logged_out p))))
    /\ state (protocol s3) = Some (State_value CONNECTED).
Proof.
  intros Hl Hp Hget Hdec Howner.
  assert (Hlt : (l < length (player_heap (world s)))%nat)
    by (by eapply lookup_lt_Some).
  destruct (on_disconnect_run s l p Hl Hp) as [_ Hrun1].
  eexists _, _, _. rewrite Hrun1. split; [reflexivity|].
  set (s1 := write_player l _ s).
  assert (Hp1 : player_heap (world s1) !! l = Some (logged_out p))
    by (by apply list_lookup_insert_eq).
  rewrite (on_client_connect_known (world s1) c' uuid decoded kw l (logged_out p)
             Hget Hp1 Hdec).
  rewrite (add_or_get_player_existing (world s1) uuid kw l (logged_out p)
             decoded Hget Hp1 Hdec).
  change (owner_uuid (world s1)) with (owner_uuid (world s)).
  rewrite Howner. cbn [snd].
  split; [reflexivity|]. split; [reflexivity|].
  split; [exact Hp1|].
  erewrite on_connect_response_success; [|reflexivity|exact Hp1].
  split; [reflexivity|]. split; [|reflexivity].
  simpl. apply list_lookup_insert_eq. by rewrite length_insert.
Qed.

Lemma reconnect_binds_the_same_record_witness :
  player (protocol bob_online) = Some 0%nat
  /\ Py.dict_get (shelf_players (world bob_online)) (Py.str_bytes bob) = Some 0%nat
  /\ exists s1 s2,
       on_client_disconnect Opaque bob_online = (Done (Ok true), s1)
       /\ on_client_connect (ClientConnect (Some bob) alice_kw)
            (mkSession (fresh_connection 9%nat) (world s1))
          = (Done (Ok true), s2)
       /\ player (protocol s2) = Some 0%nat.
Proof.
  split; [reflexivity|]. split; [reflexivity|].
  destruct (reconnect_binds_the_same_record bob_online (fresh_connection 9%nat)
              bob "bob" 0%nat
              (Player.mk bob "Bob" 100 ∅ true (Some 7%nat) 1 "0.0.0.0" "" true false)
              alice_kw Opaque 5 eq_refl eq_refl eq_refl eq_refl eq_refl)
    as (s1 & s2 & s3 & Hrun1 & Hrun2 & Hbound & _).
  by exists s1, s2.
Defined.

(** ** Connections without a player *)

Lemma add_or_get_planet_returns sector location planet satellite w :
  exists l, fst (add_or_get_planet sector location planet satellite w) = Done (Ok l).
Proof.
  destruct location as [[a x] y].
  destruct (add_or_get_planet_twice w sector a x y planet satellite)
    as (l & w1 & _ & Hrun & _).
  exists l. by rewrite Hrun.
Qed.

(** X18: On a connection that has no player, the handlers that write to the
    player raise [AttributeError] and change nothing; a world start with
    coordinates still gets or creates its planet before it raises. *)
Theorem handlers_need_a_player (s : Session) (data : Parsed) (success : bool)
    (client_id : Z) (co : Coordinate) :
  player (protocol s) = None ->
  on_connect_response (ConnectResponse success client_id) s
    = (Done (Raise AttributeError), s)
  /\ on_client_disconnect data s = (Done (Raise AttributeError), s)
  /\ on_server_disconnect data s = (Done (Raise AttributeError), s)
  /\ on_world_start (WorldStart None) s = (Done (Raise AttributeError), s)
  /\ on_world_start (WorldStart (Some co)) s =
       (Done (Raise AttributeError),
        mkSession (protocol s)
          (snd (add_or_get_planet (co_sector co) (co_location co) (co_planet co)
                  (co_satellite co) (world s)))).
Proof.
  intros Hunbound.
  assert (Hassign : forall f, assign_player_attr f s = (Done (Raise AttributeError), s)).
  { intros f. unfold assign_player_attr, bind, bound_player. by rewrite Hunbound. }
  split_and!.
  - unfold on_connect_response, bind. destruct success; by rewrite Hassign.
  - unfold on_client_disconnect, bind. by rewrite Hassign.
  - unfold on_server_disconnect, bind. by rewrite Hassign.
  - unfold on_world_start, bind. by rewrite Hassign.
  - unfold on_world_start, bind, lift.
    destruct (add_or_get_planet_returns (co_sector co) (co_location co)
                (co_planet co) (co_satellite co) (world s)) as [l Hl].
    destruct (add_or_get_planet _ _ _ _ (world s)) as [r w1].
    simpl in Hl. subst r. simpl. unfold bound_player. simpl.
    by rewrite Hunbound.
Qed.

Lemma handlers_need_a_player_witness :
  player (protocol (mkSession (fresh_connection 7%nat) (fresh_world "ab0" 100)))
    = None
  /\ Py.dict_keys
       (shelf_planets
          (world (snd (on_world_start
                         (WorldStart (Some (mkCoordinate "alpha" (0, 1, 2) 3 4)))
                         (mkSession (fresh_connection 7%nat)
                            (fresh_world "ab0" 100))))))
     = ["alpha:0:1:2:3:4"].
Proof.
  split; [reflexivity|].
  destruct (handlers_need_a_player
              (mkSession (fresh_connection 7%nat) (fresh_world "ab0" 100))
              Opaque true 0 (mkCoordinate "alpha" (0, 1, 2) 3 4) eq_refl)
    as (_ & _ & _ & _ & Hrun).
  by rewrite Hrun.
Defined.

(** ** After the shutdown *)


